(** * RiskRadar event exporter ([app/export_events.py])

    A shallow embedding of the exporter and the properties its
    specification states about it.

    Python values are modelled as follows.
    - A [float] is an IEEE-754 binary64 value ([spec_float] of the standard
      library with precision 53 and maximal exponent 1024); arithmetic and
      comparisons are the correctly rounded ones of [SpecFloat].
    - An [int] is an unbounded [Z]; [str] is a [string] whose characters are
      read as the code points below 256.
    - A [dict] with string keys is a [gmap string _].
    - A raised exception is the [Raise] case of [result].
    - An object of any other class is known by what it answers to the
      operations the exporter applies to a value ([pyobject]). *)

From Stdlib Require Import ZArith List String Ascii Bool Lia DecimalString.
From Stdlib Require Import Sorted Permutation.
From Stdlib Require Import Floats.SpecFloat.
From stdpp Require Import gmap strings.
Import ListNotations.

#[local] Open Scope Z_scope.

(** ** Exceptions

    An exception is told apart as the handlers of the exporter tell it
    apart: [TypeError] and [ValueError] stand for these classes and their
    subclasses, which [except (TypeError, ValueError)] catches alike; an
    exception of any other class is an [OverflowError] or is known by the name
    of its class. *)

Inductive exn : Set :=
| TypeError
| ValueError
| OverflowError
| OtherError (name : string).

Inductive result (A : Type) : Type :=
| Ok (a : A)
| Raise (e : exn).

Arguments Ok {A} a.
Arguments Raise {A} e.

Definition rbind {A B} (r : result A) (k : A -> result B) : result B :=
  match r with
  | Ok a => k a
  | Raise e => Raise e
  end.

Notation "x <- r ;; k" := (rbind r (fun x => k))
  (at level 100, r at next level, right associativity).

(** [for x in l: out.append(f(x))] where [f] may raise: the first exception
    aborts the loop. *)
Fixpoint rmap {A B} (f : A -> result B) (l : list A) : result (list B) :=
  match l with
  | [] => Ok []
  | x :: l' => y <- f x ;; ys <- rmap f l' ;; Ok (y :: ys)
  end.

(** ** Binary64 floats *)

Definition float : Set := spec_float.

Definition prec : Z := 53.
Definition emax : Z := 1024.

Definition f_add : float -> float -> float := SFadd prec emax.
Definition f_sub : float -> float -> float := SFsub prec emax.
Definition f_mul : float -> float -> float := SFmul prec emax.
Definition f_div : float -> float -> float := SFdiv prec emax.

Definition f_eqb : float -> float -> bool := SFeqb.
Definition f_ltb : float -> float -> bool := SFltb.
Definition f_gtb (x y : float) : bool := f_ltb y x.

(** One step of a running extremum: the accumulator gives way to an item that
    compares strictly before it. *)
Definition keep_first {A} (before : A -> A -> bool) (acc item : A) : A :=
  if before item acc then item else acc.

Definition is_nan (x : float) : bool :=
  match x with
  | S754_nan => true
  | _ => false
  end.

(** The float nearest to an integer (ties to even); an infinity when the
    integer is out of range. *)
Definition Z2F (z : Z) : float := binary_normalize prec emax z 0 false.

(** The float nearest to [num / den], with sign [s]. *)
Definition float_of_ratio (s : bool) (num den : positive) : float :=
  let '(m, e, l) := SFdiv_core_binary prec emax (Zpos num) 0 (Zpos den) 0 in
  binary_round_aux prec emax s m e l.

(** The float nearest to [m * 10^e], with sign [s]. *)
Definition float_of_decimal (s : bool) (m : Z) (e : Z) : float :=
  match m with
  | Zpos p =>
      match e with
      | Zneg k => float_of_ratio s p (Pos.pow 10 k)
      | _ => binary_normalize prec emax (cond_Zopp s (Zpos p * 10 ^ e)) 0 s
      end
  | _ => S754_zero s
  end.

(** Nearest integer to the rational [n / d] ([d > 0]), ties to even. *)
Definition round_half_even (n : Z) (d : Z) : Z :=
  let q := n / d in
  let r := n mod d in
  match Z.compare (2 * r) d with
  | Lt => q
  | Gt => q + 1
  | Eq => if Z.even q then q else q + 1
  end.

(** The magnitude of a finite float scaled by [10^k], rounded to the nearest
    integer (ties to even) on its exact value. *)
Definition scaled_magnitude (m : positive) (e : Z) (k : Z) : Z :=
  match e with
  | Zneg p => round_half_even (Zpos m * 10 ^ k) (2 ^ Zpos p)
  | _ => Zpos m * 2 ^ e * 10 ^ k
  end.

(** [numpy.rint], which is what [Series.round()] applies to a float64 column:
    round to the nearest integer, ties to even, keeping the sign of zero. *)
Definition np_round (x : float) : float :=
  match x with
  | S754_finite s m e =>
      match scaled_magnitude m e 0 with
      | Z0 => S754_zero s
      | n => binary_normalize prec emax (cond_Zopp s n) 0 s
      end
  | _ => x
  end.

(** The built-in [round(x, ndigits)] on a float with [ndigits >= 0]: the exact
    value is rounded to [ndigits] decimals (ties to even) and the decimal
    result is converted back to the nearest float. *)
Definition py_round (x : float) (ndigits : Z) : float :=
  match x with
  | S754_finite s m e => float_of_decimal s (scaled_magnitude m e ndigits) (- ndigits)
  | _ => x
  end.

(** The comparison [x >= n] of a float with an [int]: Python compares the
    exact values. *)
Definition float_ge_int (x : float) (n : Z) : bool :=
  match x with
  | S754_nan => false
  | S754_infinity s => negb s
  | S754_zero _ => n <=? 0
  | S754_finite s m e =>
      match e with
      | Zneg p => n * 2 ^ Zpos p <=? cond_Zopp s (Zpos m)
      | _ => n <=? cond_Zopp s (Zpos m) * 2 ^ e
      end
  end.

(** ** Strings *)

Definition code (c : ascii) : Z := Z.of_N (N_of_ascii c).
Definition chr (n : Z) : ascii := ascii_of_N (Z.to_N n).

Definition is_digit (c : ascii) : bool := (48 <=? code c) && (code c <=? 57).

(** [str.isspace] on one character. *)
Definition is_space (c : ascii) : bool :=
  let n := code c in
  ((9 <=? n) && (n <=? 13)) || ((28 <=? n) && (n <=? 32))
  || (n =? 133) || (n =? 160).

(** The characters [float()] skips around a numeric literal. *)
Definition is_float_space (c : ascii) : bool :=
  let n := code c in
  ((9 <=? n) && (n <=? 13)) || (n =? 32) || (n =? 133) || (n =? 160).

Definition lower_char (c : ascii) : ascii :=
  let n := code c in
  if ((65 <=? n) && (n <=? 90))
     || ((192 <=? n) && (n <=? 222) && negb (n =? 215))
  then chr (n + 32) else c.

Fixpoint str_lower (s : string) : string :=
  match s with
  | EmptyString => EmptyString
  | String c s' => String (lower_char c) (str_lower s')
  end.

Fixpoint lstrip_by (sp : ascii -> bool) (s : string) : string :=
  match s with
  | EmptyString => EmptyString
  | String c s' => if sp c then lstrip_by sp s' else s
  end.

Fixpoint rstrip_by (sp : ascii -> bool) (s : string) : string :=
  match s with
  | EmptyString => EmptyString
  | String c s' =>
      match rstrip_by sp s' with
      | EmptyString => if sp c then EmptyString else String c EmptyString
      | r => String c r
      end
  end.

(** [str.strip()] *)
Definition str_strip (s : string) : string := rstrip_by is_space (lstrip_by is_space s).

(** [s in {a, b, ...}] for a set literal of strings. *)
Definition str_in (s : string) (l : list string) : bool :=
  existsb (String.eqb s) l.

(** *** [float(str)] *)

(** Underscores may only separate two digits. *)
Fixpoint underscores_ok (prev_digit : bool) (l : list ascii) : bool :=
  match l with
  | [] => true
  | c :: l' =>
      if Ascii.eqb c "_"
      then prev_digit && match l' with d :: _ => is_digit d | [] => false end
           && underscores_ok false l'
      else underscores_ok (is_digit c) l'
  end.

Definition drop_underscores (l : list ascii) : list ascii :=
  List.filter (fun c => negb (Ascii.eqb c "_")) l.

Fixpoint span_digits (l : list ascii) : list ascii * list ascii :=
  match l with
  | c :: l' =>
      if is_digit c then let '(ds, r) := span_digits l' in (c :: ds, r) else ([], l)
  | [] => ([], [])
  end.

Definition digits_value (ds : list ascii) : Z :=
  fold_left (fun acc c => 10 * acc + (code c - 48)) ds 0.

Definition take_sign (l : list ascii) : bool * list ascii :=
  match l with
  | c :: l' =>
      if Ascii.eqb c "-" then (true, l')
      else if Ascii.eqb c "+" then (false, l') else (false, l)
  | [] => (false, [])
  end.

(** The exponent part: nothing, or [e], an optional sign and digits. *)
Definition parse_exponent (l : list ascii) : option Z :=
  match l with
  | [] => Some 0
  | c :: l' =>
      if Ascii.eqb (lower_char c) "e" then
        let '(s, l'') := take_sign l' in
        match span_digits l'' with
        | (d :: ds, []) => Some (cond_Zopp s (digits_value (d :: ds)))
        | _ => None
        end
      else None
  end.

Definition parse_decimal (s : bool) (l : list ascii) : option float :=
  let '(ip, r1) := span_digits l in
  let '(fp, r2) :=
    match r1 with
    | c :: r1' => if Ascii.eqb c "." then span_digits r1' else ([], r1)
    | [] => ([], [])
    end in
  match ip ++ fp with
  | [] => None
  | ds =>
      match parse_exponent r2 with
      | Some ex => Some (float_of_decimal s (digits_value ds) (ex - Z.of_nat (length fp)))
      | None => None
      end
  end.

Definition parse_float (str : string) : option float :=
  let l := list_ascii_of_string str in
  if underscores_ok false l then
    let body :=
      list_ascii_of_string
        (rstrip_by is_float_space (lstrip_by is_float_space
           (string_of_list_ascii (drop_underscores l)))) in
    let '(s, r) := take_sign body in
    let word := str_lower (string_of_list_ascii r) in
    if str_in word ["inf"; "infinity"]%string then Some (S754_infinity s)
    else if String.eqb word "nan" then Some S754_nan
    else parse_decimal s r
  else None.

(** ** Dates and timestamps

    A calendar date is its proleptic Gregorian ordinal (what
    [date.toordinal()] returns: 1 is 0001-01-01); a timestamp is a date and
    the nanoseconds elapsed since midnight. *)

Record timestamp : Set := { ts_day : Z; ts_nanos : Z }.

(** ** Python values that reach the exporter *)

(** An object of any other class than those [pyval] names (a list, an array,
    a [Decimal], a numpy scalar, ...) is known by what it answers to the four
    operations the exporter applies to a value:
    - [obj_isna]: the truth value that an [if] takes of [pandas.isna(o)];
      a list of two items has none (its [isna] is an array, whose truth value
      raises [ValueError]);
    - [obj_float]: [float(o)];
    - [obj_isoformat]: [o.isoformat()], when [o] has the attribute;
    - [obj_str]: [str(o)]. *)
Record pyobject : Set := {
  obj_isna : result bool;
  obj_float : result float;
  obj_isoformat : option (result string);
  obj_str : result string
}.

Inductive pyval : Set :=
| VNone
| VNA                      (* pandas.NA *)
| VNaT                     (* pandas.NaT *)
| VBool (b : bool)
| VInt (z : Z)
| VFloat (f : float)
| VStr (s : string)
| VDate (d : Z)            (* datetime.date *)
| VDatetime (t : timestamp) (* datetime.datetime, pandas.Timestamp *)
| VObject (o : pyobject).  (* an object of any other class *)

Definition is_None (v : pyval) : bool :=
  match v with
  | VNone => true
  | _ => false
  end.

(** The truth value of [pandas.isna(v)], as [if] and [or] take it. *)
Definition pd_isna (v : pyval) : result bool :=
  match v with
  | VNone | VNA | VNaT => Ok true
  | VFloat f => Ok (is_nan f)
  | VObject o => obj_isna o
  | _ => Ok false
  end.

(** The truth value of [pandas.notna(v)]. *)
Definition pd_notna (v : pyval) : result bool :=
  isna <- pd_isna v ;; Ok (negb isna).

(** [float(int)]: an integer beyond the float range raises. *)
Definition float_of_int (z : Z) : result float :=
  match Z2F z with
  | S754_infinity _ => Raise OverflowError
  | f => Ok f
  end.

(** [float(str)] *)
Definition float_of_str (s : string) : result float :=
  match parse_float s with
  | Some f => Ok f
  | None => Raise ValueError
  end.

(** The built-in [float(value)]. *)
Definition py_float (v : pyval) : result float :=
  match v with
  | VBool b => Ok (Z2F (if b then 1 else 0))
  | VInt z => float_of_int z
  | VFloat f => Ok f
  | VStr s => float_of_str s
  | VObject o => obj_float o
  | _ => Raise TypeError
  end.

(** ** The confidence rank *)

Definition CONFIDENCE_THRESHOLDS : gmap string Z :=
  {[ "nominal"%string := 30; "high"%string := 80 ]}.

Definition CONFIDENCE_LABELS : gmap Z string :=
  {[ 0 := "low"%string; 1 := "nominal"%string; 2 := "high"%string ]}.

(** Lines 58-66: the numeric rule. *)
Definition score_rank (value : pyval) : result Z :=
  match py_float value with
  | Ok score =>
      if float_ge_int score (CONFIDENCE_THRESHOLDS !!! "high"%string) then Ok 2
      else if float_ge_int score (CONFIDENCE_THRESHOLDS !!! "nominal"%string) then Ok 1
      else Ok 0
  | Raise TypeError | Raise ValueError => Ok 0
  | Raise e => Raise e
  end.

Definition _confidence_rank (value : pyval) : result Z :=
  if is_None value then Ok 0
  else
    isna <- pd_isna value ;;
    if isna then Ok 0
    else
    match value with
    | VStr s =>
        let normalized := str_lower (str_strip s) in
        if str_in normalized ["high"; "h"]%string then Ok 2
        else if str_in normalized ["nominal"; "n"]%string then Ok 1
        else if str_in normalized ["low"; "l"]%string then Ok 0
        else
          match float_of_str normalized with
          | Ok f => score_rank (VFloat f)
          | Raise ValueError => Ok 0
          | Raise e => Raise e
          end
    | _ => score_rank value
    end.

(** ** Rendering dates *)

(** [str(int)] *)
Definition str_of_int (z : Z) : string := NilZero.string_of_int (Z.to_int z).

(** ["%0<w>d"] on a non-negative integer. *)
Definition zero_pad (w : nat) (z : Z) : string :=
  let s := str_of_int z in
  string_of_list_ascii (repeat "0"%char (w - String.length s)) +:+ s.

Definition days_in_month (leap : bool) (month : Z) : Z :=
  nth (Z.to_nat month) [0; 31; if leap then 29 else 28; 31; 30; 31; 30; 31; 31; 30; 31; 30; 31] 0.

Definition days_before_month (leap : bool) (month : Z) : Z :=
  nth (Z.to_nat month) [0; 0; 31; 59; 90; 120; 151; 181; 212; 243; 273; 304; 334] 0
  + (if (2 <? month) && leap then 1 else 0).

(** Year, month and day of an ordinal, as [datetime] computes them. *)
Definition ord2ymd (ordinal : Z) : Z * Z * Z :=
  let n := ordinal - 1 in
  let n400 := n / 146097 in
  let n := n mod 146097 in
  let n100 := n / 36524 in
  let n := n mod 36524 in
  let n4 := n / 1461 in
  let n := n mod 1461 in
  let n1 := n / 365 in
  let n := n mod 365 in
  let year := n400 * 400 + 1 + n100 * 100 + n4 * 4 + n1 in
  if (n1 =? 4) || (n100 =? 4) then (year - 1, 12, 31)
  else
    let leapyear := (n1 =? 3) && (negb (n4 =? 24) || (n100 =? 3)) in
    let month := Z.shiftr (n + 50) 5 in
    let preceding := days_before_month leapyear month in
    if n <? preceding
    then (year, month - 1, n - (preceding - days_in_month leapyear (month - 1)) + 1)
    else (year, month, n - preceding + 1).

(** [date.isoformat()] *)
Definition date_isoformat (d : Z) : string :=
  let '(y, m, dd) := ord2ymd d in
  zero_pad 4 y +:+ "-" +:+ zero_pad 2 m +:+ "-" +:+ zero_pad 2 dd.

(** The clock part of a timestamp: [HH:MM:SS], followed by the microseconds
    when there are any and by the nanoseconds when there are any. *)
Definition clock_isoformat (nanos : Z) : string :=
  let secs := nanos / 1000000000 in
  let frac := nanos mod 1000000000 in
  zero_pad 2 (secs / 3600) +:+ ":" +:+ zero_pad 2 (secs / 60 mod 60) +:+ ":"
  +:+ zero_pad 2 (secs mod 60)
  +:+ (if frac =? 0 then ""
       else if frac mod 1000 =? 0 then "." +:+ zero_pad 6 (frac / 1000)
       else "." +:+ zero_pad 9 frac).

(** [datetime.isoformat(sep)] *)
Definition datetime_isoformat (sep : string) (t : timestamp) : string :=
  date_isoformat (ts_day t) +:+ sep +:+ clock_isoformat (ts_nanos t).

(** What the interpreter supplies and no property below depends on: the
    digits [str] prints for a float. *)
Class PyRuntime : Type := { float_repr : float -> string }.

(** The built-in [str(value)]. *)
Definition py_str `{PyRuntime} (v : pyval) : result string :=
  match v with
  | VNone => Ok "None"
  | VNA => Ok "<NA>"
  | VNaT => Ok "NaT"
  | VBool b => Ok (if b then "True" else "False")
  | VInt z => Ok (str_of_int z)
  | VFloat f => Ok (float_repr f)
  | VStr s => Ok s
  | VDate d => Ok (date_isoformat d)
  | VDatetime t => Ok (datetime_isoformat " " t)
  | VObject o => obj_str o
  end.

(** [isinstance(value, datetime)]: the timestamp of a datetime. *)
Definition as_datetime (v : pyval) : option timestamp :=
  match v with
  | VDatetime t => Some t
  | _ => None
  end.

(** [value.isoformat()] when [hasattr(value, "isoformat")]. *)
Definition isoformat_of (v : pyval) : option (result string) :=
  match v with
  | VDate d => Some (Ok (date_isoformat d))
  | VDatetime t => Some (Ok (datetime_isoformat "T" t))
  | VNaT => Some (Ok "NaT"%string)
  | VObject o => obj_isoformat o
  | _ => None
  end.

Definition _format_date `{PyRuntime} (value : pyval) : result string :=
  if is_None value then Ok ""%string
  else
    isna <- pd_isna value ;;
    if isna then Ok ""%string
    else
      match as_datetime value with
      | Some t => Ok (date_isoformat (ts_day t))
      | None =>
          match isoformat_of value with
          | Some iso => iso
          | None => py_str value
          end
      end.

(** ** The fire aggregator *)

(** One row of [firms_client._data]. A missing float is NaN and a missing
    date is NaT ([None] here). *)
Module Detection.
Record t : Set := mk {
  latitude : float;
  longitude : float;
  acq_date : option timestamp;
  brightness : float;
  frp : float;
  confidence : pyval
}.
End Detection.

(** One exported fire event. *)
Module Fire.
Record t : Set := mk {
  lat : float;
  lon : float;
  date : string;
  date_first : string;
  brightness : float;
  brightness_avg : float;
  frp : option float;
  count : Z;
  confidence : string
}.
End Fire.

Definition valid_ordinal (d : Z) : bool := (1 <=? d) && (d <=? 3652059).

(** [t - timedelta(days=days)] *)
Definition minus_days (t : timestamp) (days : Z) : result timestamp :=
  if 999999999 <? Z.abs days then Raise OverflowError
  else
    let d := ts_day t - days in
    if valid_ordinal d then Ok {| ts_day := d; ts_nanos := ts_nanos t |}
    else Raise OverflowError.

(** [acq_date.dt.date >= cutoff_date] on one row of a column that holds a
    date: NaT compares false. *)
Definition on_or_after (cutoff_date : Z) (d : Detection.t) : bool :=
  match Detection.acq_date d with
  | Some t => cutoff_date <=? ts_day t
  | None => false
  end.

Definition undated (d : Detection.t) : bool :=
  match Detection.acq_date d with
  | Some _ => false
  | None => true
  end.

(** Lines 100-103, on a table that is not empty (line 95).  When no row has
    a date, [acq_date.dt.date] is a column of NaT, which pandas holds as a
    datetime64 column and refuses to compare with a [date]. *)
Definition recent_fires (now : timestamp) (days : Z) (data : list Detection.t)
  : result (list Detection.t) :=
  cutoff <- minus_days now days ;;
  match data with
  | [] => Ok []
  | _ =>
      if forallb undated data then Raise TypeError
      else Ok (List.filter (on_or_after (ts_day cutoff)) data)
  end.

(** [(x * 10).round() / 10] *)
Definition snap (x : float) : float := f_div (np_round (f_mul x (Z2F 10))) (Z2F 10).

(** A row of [recent_fires] with the three columns added on lines 111-114. *)
Record grid_row : Set := {
  det : Detection.t;
  grid_lat : float;
  grid_lon : float;
  confidence_rank : Z
}.

Definition add_columns (d : Detection.t) : result grid_row :=
  rank <- _confidence_rank (Detection.confidence d) ;;
  Ok {| det := d;
        grid_lat := snap (Detection.latitude d);
        grid_lon := snap (Detection.longitude d);
        confidence_rank := rank |}.

(** *** [groupby(['grid_lat', 'grid_lon'])]

    Rows with a NaN key are dropped, rows with equal keys are collected in the
    order of the table, and the groups come out sorted by key. *)

Definition key : Set := float * float.

Definition row_key (r : grid_row) : key := (grid_lat r, grid_lon r).

Definition key_isna (k : key) : bool := is_nan (fst k) || is_nan (snd k).

Definition key_eqb (a b : key) : bool :=
  f_eqb (fst a) (fst b) && f_eqb (snd a) (snd b).

Definition key_ltb (a b : key) : bool :=
  f_ltb (fst a) (fst b) || (f_eqb (fst a) (fst b) && f_ltb (snd a) (snd b)).

Definition group : Set := key * list grid_row.

Fixpoint group_insert (r : grid_row) (gs : list group) : list group :=
  match gs with
  | [] => [(row_key r, [r])]
  | (k, members) :: gs' =>
      if key_eqb k (row_key r) then (k, members ++ [r]) :: gs'
      else (k, members) :: group_insert r gs'
  end.

Definition group_rows (rows : list grid_row) : list group :=
  fold_left (fun gs r => group_insert r gs) rows [].

Fixpoint sorted_insert (g : group) (gs : list group) : list group :=
  match gs with
  | [] => [g]
  | g' :: gs' =>
      if key_ltb (fst g) (fst g') then g :: g' :: gs'
      else g' :: sorted_insert g gs'
  end.

Definition sort_groups (gs : list group) : list group :=
  fold_right sorted_insert [] gs.

Definition groupby (rows : list grid_row) : list group :=
  sort_groups (group_rows (List.filter (fun r => negb (key_isna (row_key r))) rows)).

(** *** The reductions of [agg] *)

Definition notna (x : float) : bool := negb (is_nan x).

(** ['max'] on a float column: NaN is skipped; NaN when nothing is left. *)
Definition agg_max (vals : list float) : float :=
  match List.filter notna vals with
  | [] => S754_nan
  | vs => fold_left (keep_first f_gtb) vs (S754_infinity true)
  end.

(** ['count']: the number of non-null values. *)
Definition agg_count (vals : list float) : Z :=
  Z.of_nat (length (List.filter notna vals)).

(** ['mean']: pandas sums with Kahan compensation, then divides by the
    number of non-null values. *)
Definition kahan_step (st : float * float) (val : float) : float * float :=
  let '(sumx, compensation) := st in
  let y := f_sub val compensation in
  let t := f_add sumx y in
  let c := f_sub (f_sub t sumx) y in
  (t, if is_nan c then S754_zero false else c).

Definition agg_mean (vals : list float) : float :=
  match List.filter notna vals with
  | [] => S754_nan
  | vs =>
      f_div (fst (fold_left kahan_step vs (S754_zero false, S754_zero false)))
            (Z2F (Z.of_nat (length vs)))
  end.

Definition ts_ltb (a b : timestamp) : bool :=
  (ts_day a <? ts_day b) || ((ts_day a =? ts_day b) && (ts_nanos a <? ts_nanos b)).

Fixpoint somes {A} (l : list (option A)) : list A :=
  match l with
  | [] => []
  | Some x :: l' => x :: somes l'
  | None :: l' => somes l'
  end.

Definition ts_gtb (a b : timestamp) : bool := ts_ltb b a.

(** ['min'] and ['max'] on a datetime column: NaT is skipped. *)
Definition agg_min_ts (vals : list (option timestamp)) : option timestamp :=
  match somes vals with
  | [] => None
  | t :: ts => Some (fold_left (keep_first ts_ltb) ts t)
  end.

Definition agg_max_ts (vals : list (option timestamp)) : option timestamp :=
  match somes vals with
  | [] => None
  | t :: ts => Some (fold_left (keep_first ts_gtb) ts t)
  end.

(** ['max'] on the integer rank column of a group, which is never empty. *)
Definition agg_max_rank (vals : list Z) : Z :=
  match vals with
  | [] => 0
  | v :: vs => fold_left Z.max vs v
  end.

(** One row of [aggregated], under the column names of lines 125-127. *)
Module Cell.
Record t : Set := mk {
  lat : float;
  lon : float;
  brightness_max : float;
  brightness_avg : float;
  count : Z;
  frp_max : float;
  date_first : option timestamp;
  date_last : option timestamp;
  confidence_rank : Z;
  confidence : pyval
}.
End Cell.

(** [Series.map(CONFIDENCE_LABELS)]: a rank outside the table maps to NaN. *)
Definition map_label (rank : Z) : pyval :=
  match CONFIDENCE_LABELS !! rank with
  | Some label => VStr label
  | None => VFloat S754_nan
  end.

Definition aggregate (g : group) : Cell.t :=
  let members := map det (snd g) in
  let rank := agg_max_rank (map confidence_rank (snd g)) in
  {| Cell.lat := fst (fst g);
     Cell.lon := snd (fst g);
     Cell.brightness_max := agg_max (map Detection.brightness members);
     Cell.brightness_avg := agg_mean (map Detection.brightness members);
     Cell.count := agg_count (map Detection.brightness members);
     Cell.frp_max := agg_max (map Detection.frp members);
     Cell.date_first := agg_min_ts (map Detection.acq_date members);
     Cell.date_last := agg_max_ts (map Detection.acq_date members);
     Cell.confidence_rank := rank;
     Cell.confidence := map_label rank |}.

(** A cell of a datetime column as a Python value. *)
Definition ts_value (t : option timestamp) : pyval :=
  match t with
  | Some t => VDatetime t
  | None => VNaT
  end.

(** Lines 134-144: the dictionary built from one row of [aggregated]. *)
Definition fire_of_row `{PyRuntime} (row : Cell.t) : result Fire.t :=
  date <- _format_date (ts_value (Cell.date_last row)) ;;
  date_first <- _format_date (ts_value (Cell.date_first row)) ;;
  has_frp <- pd_notna (VFloat (Cell.frp_max row)) ;;
  confidence <- py_str (Cell.confidence row) ;;
  Ok {| Fire.lat := py_round (Cell.lat row) 1;
        Fire.lon := py_round (Cell.lon row) 1;
        Fire.date := date;
        Fire.date_first := date_first;
        Fire.brightness := py_round (Cell.brightness_max row) 1;
        Fire.brightness_avg := py_round (Cell.brightness_avg row) 1;
        Fire.frp :=
          if has_frp then Some (py_round (Cell.frp_max row) 1) else None;
        Fire.count := Cell.count row;
        Fire.confidence := confidence |}.

(** [export_fire_events(firms_client, days)], with the clock reading [now] of
    [datetime.utcnow()] and the table [firms_client._data] as arguments. *)
Definition export_fire_events `{PyRuntime}
    (now : timestamp) (_data : option (list Detection.t)) (days : Z)
  : result (list Fire.t) :=
  match _data with
  | None | Some [] => Ok []
  | Some data =>
      recent <- recent_fires now days data ;;
      match recent with
      | [] => Ok []
      | _ =>
          rows <- rmap add_columns recent ;;
          let aggregated := map aggregate (groupby rows) in
          rmap fire_of_row aggregated
      end
  end.

(** ** The earthquake normalizer *)

(** One exported earthquake. *)
Module Quake.
Record t : Set := mk {
  lat : float;
  lon : float;
  date : pyval;
  magnitude : float;
  depth : float;
  place : pyval;
  type : pyval
}.
End Quake.

(** [quake.get(k, default)] *)
Definition dict_get (quake : gmap string pyval) (k : string) (default_value : pyval) : pyval :=
  default default_value (quake !! k).

(** Lines 183-191: the dictionary built from one raw record. *)
Definition quake_of_raw (quake : gmap string pyval) : result Quake.t :=
  lat <- py_float (dict_get quake "latitude" (VInt 0)) ;;
  lon <- py_float (dict_get quake "longitude" (VInt 0)) ;;
  mag <- py_float (dict_get quake "mag" (VInt 0)) ;;
  depth <- py_float (dict_get quake "depth_km" (VInt 0)) ;;
  Ok {| Quake.lat := py_round lat 4;
        Quake.lon := py_round lon 4;
        Quake.date := dict_get quake "time" (VStr "");
        Quake.magnitude := py_round mag 1;
        Quake.depth := py_round depth 1;
        Quake.place := dict_get quake "place" (VStr "Unknown");
        Quake.type := dict_get quake "type" (VStr "earthquake") |}.

(** [usgs_client.get_global_earthquakes]: a query by start date, end date and
    minimum magnitude, which answers a list of raw records (or [None]). *)
Definition usgs_query : Type :=
  Z -> Z -> float -> result (option (list (gmap string pyval))).

(** [export_earthquake_events(usgs_client, days, min_magnitude)], with the
    clock reading [now] as an argument. *)
Definition export_earthquake_events
    (now : timestamp) (get_global_earthquakes : usgs_query) (days : Z) (min_magnitude : float)
  : result (list Quake.t) :=
  let end_date := now in
  start_date <- minus_days end_date days ;;
  quakes_raw <- get_global_earthquakes (ts_day start_date) (ts_day end_date) min_magnitude ;;
  match quakes_raw with
  | None | Some [] => Ok []
  | Some quakes => rmap quake_of_raw quakes
  end.

(** ** The export document *)

Module Range.
Record t : Set := mk { min : pyval; max : pyval }.
End Range.

Module Statistics.
Record t : Set := mk {
  total_fires : Z;
  total_earthquakes : Z;
  fire_brightness_range : Range.t;
  earthquake_magnitude_range : Range.t
}.
End Statistics.

(** The built-ins [min(values, default=d)] and [max(values, default=d)] on
    floats: the first value is kept until a later one compares below (above)
    it. *)
Definition py_min (vals : list float) (default_value : pyval) : pyval :=
  match vals with
  | [] => default_value
  | v :: vs => VFloat (fold_left (keep_first f_ltb) vs v)
  end.

Definition py_max (vals : list float) (default_value : pyval) : pyval :=
  match vals with
  | [] => default_value
  | v :: vs => VFloat (fold_left (keep_first f_gtb) vs v)
  end.

(** Lines 241-252. *)
Definition statistics_of (fires : list Fire.t) (earthquakes : list Quake.t) : Statistics.t :=
  {| Statistics.total_fires := Z.of_nat (length fires);
     Statistics.total_earthquakes := Z.of_nat (length earthquakes);
     Statistics.fire_brightness_range :=
       match fires with
       | [] => {| Range.min := VInt 0; Range.max := VInt 0 |}
       | _ => {| Range.min := py_min (map Fire.brightness fires) (VInt 0);
                 Range.max := py_max (map Fire.brightness fires) (VInt 0) |}
       end;
     Statistics.earthquake_magnitude_range :=
       match earthquakes with
       | [] => {| Range.min := VInt 0; Range.max := VInt 0 |}
       | _ => {| Range.min := py_min (map Quake.magnitude earthquakes) (VInt 0);
                 Range.max := py_max (map Quake.magnitude earthquakes) (VInt 0) |}
       end |}.

(** The settings [main] reads from [Config]. *)
Module Config.
Record t : Set := mk {
  EVENT_HISTORY_DAYS : Z;
  MIN_EARTHQUAKE_MAGNITUDE_EXPORT : float
}.
End Config.

(** The dictionary [output] of [main]. The two dates of [data_range] and the
    generation time are kept as they are before they are printed. *)
Module Output.
Record t : Set := mk {
  generated_at : timestamp;
  data_range_start : Z;
  data_range_end : Z;
  data_range_days : Z;
  statistics : Statistics.t;
  fires : list Fire.t;
  earthquakes : list Quake.t
}.
End Output.

(** Lines 211-255 of [main]: [firms_data] is the table of the FIRMS client and
    the four timestamps are the successive readings of the clock. *)
Definition main `{PyRuntime}
    (cfg : Config.t) (firms_data : option (list Detection.t))
    (get_global_earthquakes : usgs_query)
    (t_fires t_quakes t_range t_stamp : timestamp)
  : result Output.t :=
  fires <- export_fire_events t_fires firms_data (Config.EVENT_HISTORY_DAYS cfg) ;;
  earthquakes <-
    export_earthquake_events t_quakes get_global_earthquakes
      (Config.EVENT_HISTORY_DAYS cfg) (Config.MIN_EARTHQUAKE_MAGNITUDE_EXPORT cfg) ;;
  let end_date := t_range in
  start_date <- minus_days end_date (Config.EVENT_HISTORY_DAYS cfg) ;;
  Ok {| Output.generated_at := t_stamp;
        Output.data_range_start := ts_day start_date;
        Output.data_range_end := ts_day end_date;
        Output.data_range_days := Config.EVENT_HISTORY_DAYS cfg;
        Output.statistics := statistics_of fires earthquakes;
        Output.fires := fires;
        Output.earthquakes := earthquakes |}.

(** ** Notions used to state the properties *)

(** A float that is not NaN sits on a line of integer triples compared
    lexicographically; the two zeros share a place. *)
Definition ord_code (x : float) : option (Z * Z * Z) :=
  match x with
  | S754_nan => None
  | S754_infinity s => Some (if s then -2 else 2, 0, 0)
  | S754_zero _ => Some (0, 0, 0)
  | S754_finite s m e => Some (if s then (-1, - e, Zneg m) else (1, e, Zpos m))
  end.

Definition code_lt (a b : Z * Z * Z) : Prop :=
  let '(a1, a2, a3) := a in
  let '(b1, b2, b3) := b in
  a1 < b1 \/ (a1 = b1 /\ (a2 < b2 \/ (a2 = b2 /\ a3 < b3))).

(** The numeric rule of the specification. *)
Definition threshold_rank (score : float) : Z :=
  if float_ge_int score 80 then 2 else if float_ge_int score 30 then 1 else 0.

(** The categorical rule of the specification. *)
Definition label_rank (word : string) : option Z :=
  if String.eqb word "high" || String.eqb word "h" then Some 2
  else if String.eqb word "nominal" || String.eqb word "n" then Some 1
  else if String.eqb word "low" || String.eqb word "l" then Some 0
  else None.

(** The resolver as the specification words it: a string is matched against
    the labels regardless of case and is otherwise read as a number. *)
Definition claimed_rank (value : pyval) : Z :=
  match value with
  | VStr s =>
      match label_rank (str_lower s) with
      | Some rank => rank
      | None =>
          match parse_float s with
          | Some score => threshold_rank score
          | None => 0
          end
      end
  | VFloat score => threshold_rank score
  | VInt z => if 80 <=? z then 2 else if 30 <=? z then 1 else 0
  | VObject o =>
      match obj_isna o, obj_float o with
      | Ok false, Ok score => threshold_rank score
      | _, _ => 0
      end
  | _ => 0
  end.

(** The resolver as the code has it: the surrounding white space of a string
    is dropped before it is matched. *)
Definition rank_rule (value : pyval) : Z :=
  match value with
  | VStr s => claimed_rank (VStr (str_strip s))
  | _ => claimed_rank value
  end.

(** An [int] that no float can hold. *)
Definition int_too_large (value : pyval) : bool :=
  match value with
  | VInt z => match Z2F z with S754_infinity _ => true | _ => false end
  | _ => false
  end.

(** A value the resolver can rank: not an integer that no float can hold,
    and not an object whose [isna] has no truth value or whose [float()]
    raises anything but [TypeError] or [ValueError]. *)
Definition resolvable (value : pyval) : bool :=
  match value with
  | VInt _ => negb (int_too_large value)
  | VObject o =>
      match obj_isna o with
      | Ok true => true
      | Ok false =>
          match obj_float o with
          | Ok _ | Raise TypeError | Raise ValueError => true
          | Raise _ => false
          end
      | Raise _ => false
      end
  | _ => true
  end.

(** A calendar date that [datetime] can hold. *)
Definition valid_date (d : Z) : Prop := 1 <= d <= 3652059.

(** *** Calendar dates as text *)

(** A string of [w] decimal digits. *)
Definition is_digits (w : nat) (s : string) : bool :=
  Nat.eqb (String.length s) w && forallb is_digit (list_ascii_of_string s).

(** A string of the form [YYYY-MM-DD]. *)
Definition is_iso_date (s : string) : bool :=
  match list_ascii_of_string s with
  | [y1; y2; y3; y4; s1; m1; m2; s2; d1; d2] =>
      forallb is_digit [y1; y2; y3; y4; m1; m2; d1; d2]
      && Ascii.eqb s1 "-" && Ascii.eqb s2 "-"
  | _ => false
  end.

(** A null: [None], NaN, NaT, NA, or an object that [pandas.isna] takes for
    one. *)
Definition is_null (value : pyval) : bool :=
  match value with
  | VNone | VNA | VNaT => true
  | VFloat f => is_nan f
  | VObject o => match obj_isna o with Ok true => true | _ => false end
  | _ => false
  end.

(** A value the date formatter can render: [pandas.isna] has a truth value
    on it and, when it is no null, the conversion that applies to it (its
    [isoformat()] if it has one, its [str()] otherwise) returns. *)
Definition formattable (value : pyval) : bool :=
  match value with
  | VObject o =>
      match obj_isna o with
      | Ok true => true
      | Ok false =>
          match obj_isoformat o with
          | Some (Ok _) => true
          | Some (Raise _) => false
          | None => match obj_str o with Ok _ => true | Raise _ => false end
          end
      | Raise _ => false
      end
  | _ => true
  end.

(** The rendering the specification asks of the date formatter: nothing for
    a null; of a timestamp its calendar date, [YYYY-MM-DD], which is how its
    full ISO form begins; the ISO form of any other value that has one; and
    the string cast otherwise. *)
Definition date_rule `{PyRuntime} (value : pyval) (out : string) : Prop :=
  if is_null value then out = ""%string
  else
    match value with
    | VDatetime t =>
        out = date_isoformat (ts_day t)
        /\ datetime_isoformat "T" t = out +:+ "T" +:+ clock_isoformat (ts_nanos t)
        /\ (valid_date (ts_day t) -> is_iso_date out = true)
    | VDate d => out = date_isoformat d
    | VObject o =>
        match obj_isoformat o with
        | Some iso => iso = Ok out
        | None => obj_str o = Ok out
        end
    | _ => py_str value = Ok out
    end.

(** *** Rounding *)

(** [k] is an integer nearest to [num / den] ([den > 0]), the even one when
    two are as near. *)
Definition nearest_to (num den k : Z) : Prop :=
  Z.abs (2 * num - 2 * k * den) <= den
  /\ (Z.abs (2 * num - 2 * k * den) = den -> Z.even k = true).

(** [out] is [x] rounded to [ndigits] decimals: the float of the decimal
    [k / 10^ndigits] that is nearest to the exact value of [x]; an infinity
    or a NaN is left as it is. *)
Definition rounds_to (ndigits : Z) (x out : float) : Prop :=
  match x with
  | S754_finite s m e =>
      exists k,
        match e with
        | Zneg p => nearest_to (Zpos m * 10 ^ ndigits) (2 ^ Zpos p) k
        | _ => k = Zpos m * 2 ^ e * 10 ^ ndigits
        end
        /\ out = float_of_decimal s k (- ndigits)
  | S754_zero s => out = S754_zero s
  | _ => out = x
  end.



(** What the specification asks of one normalized earthquake field: a missing
    number is [0.0] and a present one is rounded; any other missing field
    takes its default and a present one passes through. *)
Definition rounded_field (field : option pyval) (ndigits : Z) (out : float) : Prop :=
  match field with
  | None => out = S754_zero false
  | Some v => exists x, py_float v = Ok x /\ rounds_to ndigits x out
  end.

Definition defaulted_field (field : option pyval) (default_value out : pyval) : Prop :=
  match field with
  | None => out = default_value
  | Some v => out = v
  end.

Definition normalizes (quake : gmap string pyval) (r : Quake.t) : Prop :=
  rounded_field (quake !! "latitude"%string) 4 (Quake.lat r)
  /\ rounded_field (quake !! "longitude"%string) 4 (Quake.lon r)
  /\ rounded_field (quake !! "mag"%string) 1 (Quake.magnitude r)
  /\ rounded_field (quake !! "depth_km"%string) 1 (Quake.depth r)
  /\ defaulted_field (quake !! "time"%string) (VStr "") (Quake.date r)
  /\ defaulted_field (quake !! "place"%string) (VStr "Unknown") (Quake.place r)
  /\ defaulted_field (quake !! "type"%string) (VStr "earthquake") (Quake.type r).

(** A raw record is well formed when each number it carries is one that
    [float()] accepts. *)
Definition numeric_keys : list string :=
  ["latitude"; "longitude"; "mag"; "depth_km"]%string.

Definition well_formed (quake : gmap string pyval) : Prop :=
  forall k v, In k numeric_keys -> quake !! k = Some v -> exists x, py_float v = Ok x.

(** The least and the greatest of a list of floats. *)
Definition least_of (vals : list float) (m : pyval) : Prop :=
  exists x, m = VFloat x /\ In x vals /\ forall y, In y vals -> f_ltb y x = false.

Definition greatest_of (vals : list float) (m : pyval) : Prop :=
  exists x, m = VFloat x /\ In x vals /\ forall y, In y vals -> f_ltb x y = false.

(** What the specification asks of a range of the statistics. *)
Definition range_of (vals : list float) (r : Range.t) : Prop :=
  match vals with
  | [] => r = {| Range.min := VInt 0; Range.max := VInt 0 |}
  | _ => least_of vals (Range.min r) /\ greatest_of vals (Range.max r)
  end.

(** ** Sample inputs *)

(** The list [[1, 2]]: [pandas.isna] of it is an array of two booleans,
    which has no truth value, and [float()] does not take a list. *)
Definition sample_list : pyobject :=
  {| obj_isna := Raise ValueError;
     obj_float := Raise TypeError;
     obj_isoformat := None;
     obj_str := Ok "[1, 2]"%string |}.

(** [Decimal('85')] *)
Definition sample_decimal : pyobject :=
  {| obj_isna := Ok false;
     obj_float := Ok (Z2F 85);
     obj_isoformat := None;
     obj_str := Ok "85"%string |}.

(** 2026-01-25, 23:00 UTC. *)
Definition sample_now : timestamp := {| ts_day := 739641; ts_nanos := 82800000000000 |}.

(** A detection of 2025-10-27, ninety days before [sample_now]. *)
Definition sample_detection : Detection.t :=
  {| Detection.latitude := float_of_decimal false 1234 (-2);
     Detection.longitude := float_of_decimal false 5678 (-2);
     Detection.acq_date := Some {| ts_day := 739551; ts_nanos := 0 |};
     Detection.brightness := float_of_decimal false 30026 (-2);
     Detection.frp := S754_nan;
     Detection.confidence := VStr "n" |}.

(** [sample_detection] without its brightness. *)
Definition sample_dark : Detection.t :=
  {| Detection.latitude := float_of_decimal false 1234 (-2);
     Detection.longitude := float_of_decimal false 5678 (-2);
     Detection.acq_date := Some {| ts_day := 739551; ts_nanos := 0 |};
     Detection.brightness := S754_nan;
     Detection.frp := S754_nan;
     Detection.confidence := VStr "n" |}.

Definition sample_quake (mag : pyval) : gmap string pyval :=
  {[ "latitude"%string := VFloat (float_of_decimal false 35123456 (-6));
     "longitude"%string := VInt (-118);
     "time"%string := VStr "2026-01-20T10:00:00Z";
     "mag"%string := mag ]}.

Definition sample_query (quakes : list (gmap string pyval)) : usgs_query :=
  fun _ _ _ => Ok (Some quakes).

Definition sample_config : Config.t :=
  {| Config.EVENT_HISTORY_DAYS := 90;
     Config.MIN_EARTHQUAKE_MAGNITUDE_EXPORT := float_of_decimal false 25 (-1) |}.

Definition sample_quakes : usgs_query :=
  sample_query [sample_quake (VFloat (float_of_decimal false 31 (-1)));
                sample_quake (VFloat (float_of_decimal false 58 (-1)))].

(** The document of two earthquakes of magnitudes 3.1 and 5.8 and no fire. *)
Definition sample_document : Output.t :=
  let quake mag :=
    {| Quake.lat := float_of_decimal false 351235 (-4);
       Quake.lon := Z2F (-118);
       Quake.date := VStr "2026-01-20T10:00:00Z";
       Quake.magnitude := mag;
       Quake.depth := S754_zero false;
       Quake.place := VStr "Unknown";
       Quake.type := VStr "earthquake" |} in
  {| Output.generated_at := sample_now;
     Output.data_range_start := 739551;
     Output.data_range_end := 739641;
     Output.data_range_days := 90;
     Output.statistics :=
       {| Statistics.total_fires := 0;
          Statistics.total_earthquakes := 2;
          Statistics.fire_brightness_range :=
            {| Range.min := VInt 0; Range.max := VInt 0 |};
          Statistics.earthquake_magnitude_range :=
            {| Range.min := VFloat (float_of_decimal false 31 (-1));
               Range.max := VFloat (float_of_decimal false 58 (-1)) |} |};
     Output.fires := [];
     Output.earthquakes :=
       [quake (float_of_decimal false 31 (-1)); quake (float_of_decimal false 58 (-1))] |}.

(** A runtime for the sample runs, none of which prints a float. *)
#[local] Instance sample_runtime : PyRuntime := {| float_repr := fun _ => ""%string |}.

(** ** Grid cells *)

(** The cell a detection falls in. *)
Definition cell_of (d : Detection.t) : key :=
  (snap (Detection.latitude d), snap (Detection.longitude d)).

(** The detections of a table that fall in a cell, in the order of the table. *)
Definition members_of (cell : key) (table : list Detection.t) : list Detection.t :=
  List.filter (fun d => key_eqb cell (cell_of d)) table.

(** No two keys of a list are equal. *)
Fixpoint distinct_keys (ks : list key) : Prop :=
  match ks with
  | [] => True
  | k :: ks' => Forall (fun k' => key_eqb k k' = false) ks' /\ distinct_keys ks'
  end.

(** What holds of the groups built from the rows read so far: a group holds
    exactly the rows of its key, none is empty, no two share a key, and every
    row has its group. *)
Record grouped (gs : list group) (rows : list grid_row) : Prop := {
  grouped_members :
    forall g, In g gs -> snd g = List.filter (fun r => key_eqb (fst g) (row_key r)) rows;
  grouped_nonempty : forall g, In g gs -> snd g <> [];
  grouped_distinct : distinct_keys (map fst gs);
  grouped_cover :
    forall r, In r rows -> exists g, In g gs /\ key_eqb (fst g) (row_key r) = true
}.

Definition total_members (gs : list group) : nat :=
  fold_right (fun g n => (length (snd g) + n)%nat) 0%nat gs.

Definition sum_counts (fires : list Fire.t) : Z :=
  fold_right (fun f n => Fire.count f + n) 0 fires.

(** The record of a group: what [fire_of_row] makes of its row of
    [aggregated], where the dates are timestamps or NaT, the frp is a float
    and the confidence is the label of a rank, so that nothing raises. *)
Definition fire_of_group `{PyRuntime} (g : group) : Fire.t :=
  let row := aggregate g in
  let date_of t :=
    match t with
    | Some t => date_isoformat (ts_day t)
    | None => ""%string
    end in
  {| Fire.lat := py_round (Cell.lat row) 1;
     Fire.lon := py_round (Cell.lon row) 1;
     Fire.date := date_of (Cell.date_last row);
     Fire.date_first := date_of (Cell.date_first row);
     Fire.brightness := py_round (Cell.brightness_max row) 1;
     Fire.brightness_avg := py_round (Cell.brightness_avg row) 1;
     Fire.frp :=
       if is_nan (Cell.frp_max row) then None else Some (py_round (Cell.frp_max row) 1);
     Fire.count := Cell.count row;
     Fire.confidence :=
       match CONFIDENCE_LABELS !! Cell.confidence_rank row with
       | Some label => label
       | None => float_repr S754_nan
       end |}.

(** A detection is complete when its coordinates and its brightness are
    numbers. *)
Definition complete (d : Detection.t) : Prop :=
  is_nan (Detection.latitude d) = false
  /\ is_nan (Detection.longitude d) = false
  /\ is_nan (Detection.brightness d) = false.



(** A detection is ranked when its confidence is a value the resolver can
    rank. *)
Definition ranked (d : Detection.t) : Prop :=
  resolvable (Detection.confidence d) = true.

(** *** What a fire record says of the detections of its cell

    The numbers are carried at the precision of the record, one decimal. *)

(** The greatest value of a column, nulls aside; nothing when all are null. *)
Definition greatest_rounded (vals : list float) (out : option float) : Prop :=
  match out with
  | None => Forall (fun v => is_nan v = true) vals
  | Some v =>
      exists x, is_nan x = false /\ greatest_of vals (VFloat x) /\ rounds_to 1 x v
  end.

(** A float as a number, if it is one. *)
Definition number (x : float) : option float :=
  if is_nan x then None else Some x.

(** The integers [zs] add up in floats without rounding when no term and no
    running sum, from [acc] on, needs more than 53 bits. *)
Fixpoint sums_fit (acc : Z) (zs : list Z) : Prop :=
  match zs with
  | [] => True
  | z :: zs' => Z.abs z < 2 ^ 53 /\ Z.abs (acc + z) < 2 ^ 53 /\ sums_fit (acc + z) zs'
  end.

Definition sum_Z (zs : list Z) : Z := fold_right Z.add 0 zs.

(** The mean of a column, nulls aside: null when all are null; otherwise
    what pandas' compensated sum divided by the count rounds to, which for
    whole numbers that add up without rounding is the float quotient of
    their sum by their count. *)
Definition mean_rounded (vals : list float) (out : float) : Prop :=
  match List.filter notna vals with
  | [] => out = S754_nan
  | vs =>
      rounds_to 1 (agg_mean vals) out
      /\ forall zs, vs = map Z2F zs -> sums_fit 0 zs ->
           agg_mean vals = f_div (Z2F (sum_Z zs)) (Z2F (Z.of_nat (length zs)))
  end.

(** The calendar date of the earliest (latest) acquisition. *)
Definition earliest_date (members : list Detection.t) (out : string) : Prop :=
  exists t,
    (exists m, In m members /\ Detection.acq_date m = Some t)
    /\ (forall m t', In m members -> Detection.acq_date m = Some t' -> ts_day t <= ts_day t')
    /\ out = date_isoformat (ts_day t).

Definition latest_date (members : list Detection.t) (out : string) : Prop :=
  exists t,
    (exists m, In m members /\ Detection.acq_date m = Some t)
    /\ (forall m t', In m members -> Detection.acq_date m = Some t' -> ts_day t' <= ts_day t)
    /\ out = date_isoformat (ts_day t).

(** The label of the greatest confidence rank. *)
Definition best_confidence (members : list Detection.t) (out : string) : Prop :=
  exists rank,
    (exists m, In m members /\ _confidence_rank (Detection.confidence m) = Ok rank)
    /\ (forall m rank', In m members ->
          _confidence_rank (Detection.confidence m) = Ok rank' -> rank' <= rank)
    /\ CONFIDENCE_LABELS !! rank = Some out.

Record summarizes (members : list Detection.t) (r : Fire.t) : Prop := {
  sum_count :
    Fire.count r
    = Z.of_nat (length (List.filter (fun d => notna (Detection.brightness d)) members));
  sum_brightness :
    greatest_rounded (map Detection.brightness members) (number (Fire.brightness r));
  sum_brightness_avg :
    mean_rounded (map Detection.brightness members) (Fire.brightness_avg r);
  sum_frp : greatest_rounded (map Detection.frp members) (Fire.frp r);
  sum_date_first : earliest_date members (Fire.date_first r);
  sum_date : latest_date members (Fire.date r);
  sum_confidence : best_confidence members (Fire.confidence r)
}.

(** Three detections within 0.05 degree of each other, of brightness 10, 20
    and 30 and of confidence 20, 50 and 90, acquired 5, 40 and 90 days before
    [sample_now]. *)
Definition sample_cell : list Detection.t :=
  [ {| Detection.latitude := float_of_decimal false 1231 (-2);
       Detection.longitude := float_of_decimal false 5678 (-2);
       Detection.acq_date := Some {| ts_day := 739636; ts_nanos := 0 |};
       Detection.brightness := Z2F 10;
       Detection.frp := S754_nan;
       Detection.confidence := VInt 20 |};
    {| Detection.latitude := float_of_decimal false 1233 (-2);
       Detection.longitude := float_of_decimal false 5676 (-2);
       Detection.acq_date := Some {| ts_day := 739601; ts_nanos := 43200000000000 |};
       Detection.brightness := Z2F 20;
       Detection.frp := float_of_decimal false 1526 (-2);
       Detection.confidence := VInt 50 |};
    {| Detection.latitude := float_of_decimal false 1234 (-2);
       Detection.longitude := float_of_decimal false 5681 (-2);
       Detection.acq_date := Some {| ts_day := 739551; ts_nanos := 82800000000000 |};
       Detection.brightness := Z2F 30;
       Detection.frp := S754_nan;
       Detection.confidence := VInt 90 |} ].

(** The record of [sample_cell]. *)
Definition sample_fire : Fire.t :=
  {| Fire.lat := float_of_decimal false 123 (-1);
     Fire.lon := float_of_decimal false 568 (-1);
     Fire.date := "2026-01-20";
     Fire.date_first := "2025-10-27";
     Fire.brightness := Z2F 30;
     Fire.brightness_avg := Z2F 20;
     Fire.frp := Some (float_of_decimal false 153 (-1));
     Fire.count := 3;
     Fire.confidence := "high" |}.

(** The document of [sample_cell] and of the two earthquakes of
    [sample_quakes]. *)
Definition sample_fire_document : Output.t :=
  {| Output.generated_at := sample_now;
     Output.data_range_start := 739551;
     Output.data_range_end := 739641;
     Output.data_range_days := 90;
     Output.statistics :=
       {| Statistics.total_fires := 1;
          Statistics.total_earthquakes := 2;
          Statistics.fire_brightness_range :=
            {| Range.min := VFloat (Z2F 30); Range.max := VFloat (Z2F 30) |};
          Statistics.earthquake_magnitude_range :=
            Statistics.earthquake_magnitude_range (Output.statistics sample_document) |};
     Output.fires := [sample_fire];
     Output.earthquakes := Output.earthquakes sample_document |}.

(** *** Coordinates on the globe *)

(** The integer a float rounds to, for a float that has one. *)
Definition rint_index (y : float) : option Z :=
  match y with
  | S754_zero _ => Some 0
  | S754_finite s m e => Some (cond_Zopp s (scaled_magnitude m e 0))
  | _ => None
  end.

(** The index of the cell of a coordinate: its tenths, rounded. *)
Definition cell_index (x : float) : option Z := rint_index (f_mul x (Z2F 10)).

(** The comparison [x <= n] of a float with an integer, on the exact values. *)
Definition float_le_int (x : float) (n : Z) : bool :=
  match x with
  | S754_nan => false
  | S754_infinity s => s
  | S754_zero _ => 0 <=? n
  | S754_finite s m e =>
      match e with
      | Zneg p => cond_Zopp s (Zpos m) <=? n * 2 ^ Zpos p
      | _ => cond_Zopp s (Zpos m) * 2 ^ e <=? n
      end
  end.

(** [-bound <= x <= bound] *)
Definition within (bound : Z) (x : float) : bool :=
  float_ge_int x (- bound) && float_le_int x bound.

(** A detection on the globe: its latitude is between -90 and 90 degrees and
    its longitude between -180 and 180. *)
Definition located (d : Detection.t) : Prop :=
  within 90 (Detection.latitude d) = true /\ within 180 (Detection.longitude d) = true.

(** The same float, bit for bit. *)
Definition float_same (a b : float) : bool :=
  match a, b with
  | S754_zero s, S754_zero s' => Bool.eqb s s'
  | S754_infinity s, S754_infinity s' => Bool.eqb s s'
  | S754_nan, S754_nan => true
  | S754_finite s m e, S754_finite s' m' e' => Bool.eqb s s' && Pos.eqb m m' && Z.eqb e e'
  | _, _ => false
  end.



(** The rows of [sample_cell] with their grid columns. *)
Definition sample_rows : list grid_row :=
  match rmap add_columns sample_cell with
  | Ok rows => rows
  | Raise _ => []
  end.

(** ** Notions used to state further properties *)

(** *** The records of the fire exporter *)

(** The coordinates of a record, as a key. *)
Definition fire_key (r : Fire.t) : key := (Fire.lat r, Fire.lon r).

(** A record comes before another when its latitude is lower or, under equal
    latitudes, its longitude is lower. *)
Definition fire_before (a b : Fire.t) : Prop := key_ltb (fire_key a) (fire_key b) = true.

Definition group_before (a b : group) : Prop := key_ltb (fst a) (fst b) = true.

(** [P] holds of the [n] integers from [lo] on. *)
Fixpoint all_from (P : Z -> bool) (lo : Z) (n : positive) : bool :=
  match n with
  | xH => P lo
  | xO n' => all_from P lo n' && all_from P (lo + Zpos n') n'
  | xI n' => P lo && all_from P (lo + 1) n' && all_from P (lo + 1 + Zpos n') n'
  end.

(** What is checked of the tenth [n / 10]: rounding it to one decimal gives
    it back, it is within 180 degrees, and within 90 degrees when [n] is
    within 900. *)
Definition tenth_checked (n : Z) : bool :=
  let q := f_div (Z2F n) (Z2F 10) in
  float_same (py_round q 1) q && within 180 q
  && implb (Z.abs n <=? 900) (within 90 q).

(** The detections of [sample_cell], a detection near Sydney of the day
    before [sample_now] and one of 141 days before, without brightness. *)
Definition sample_table : list Detection.t :=
  sample_cell ++
  [ {| Detection.latitude := float_of_decimal true 3387 (-2);
       Detection.longitude := float_of_decimal false 15121 (-2);
       Detection.acq_date := Some {| ts_day := 739640; ts_nanos := 3600000000000 |};
       Detection.brightness := float_of_decimal false 3255 (-1);
       Detection.frp := Z2F 12;
       Detection.confidence := VStr "h" |};
    {| Detection.latitude := float_of_decimal true 3391 (-2);
       Detection.longitude := float_of_decimal false 15118 (-2);
       Detection.acq_date := Some {| ts_day := 739500; ts_nanos := 0 |};
       Detection.brightness := S754_nan;
       Detection.frp := S754_nan;
       Detection.confidence := VStr " Low " |} ].

(** The record of the cell near Sydney, with the date of its first
    acquisition left open. *)
Definition sample_sydney (date_first : string) : Fire.t :=
  {| Fire.lat := float_of_decimal true 339 (-1);
     Fire.lon := float_of_decimal false 1512 (-1);
     Fire.date := "2026-01-24";
     Fire.date_first := date_first;
     Fire.brightness := float_of_decimal false 3255 (-1);
     Fire.brightness_avg := float_of_decimal false 3255 (-1);
     Fire.frp := Some (Z2F 12);
     Fire.count := 1;
     Fire.confidence := "high" |}.

(** A detection is counted when its two coordinates and its brightness are
    numbers. *)
Definition counted (d : Detection.t) : bool :=
  notna (Detection.latitude d) && notna (Detection.longitude d)
  && notna (Detection.brightness d).

(** A row with a brightness. *)
Definition bright (r : grid_row) : bool := notna (Detection.brightness (det r)).

(** The number of rows with a brightness in a list of groups. *)
Definition total_bright (gs : list group) : nat :=
  fold_right (fun g n => (length (List.filter bright (snd g)) + n)%nat) 0%nat gs.

(** The comparison [x <= y] of two floats. *)
Definition f_leb (x y : float) : bool := f_ltb x y || f_eqb x y.

(** A range whose two ends are values of the list and enclose all of them. *)
Definition encloses (vals : list float) (r : Range.t) : Prop :=
  exists lo hi,
    Range.min r = VFloat lo /\ Range.max r = VFloat hi
    /\ In lo vals /\ In hi vals
    /\ forall y, In y vals -> f_leb lo y = true /\ f_leb y hi = true.

(** *** Integers and floats *)

Definition is_infinity (x : float) : bool :=
  match x with
  | S754_infinity _ => true
  | _ => false
  end.

(** The least magnitude of an integer that [float()] refuses: half way
    between the largest float and [2^1024]. *)
Definition float_int_limit : Z := 2 ^ 1024 - 2 ^ 970.

(** The keys the earthquake normalizer reads. *)
Definition quake_keys : list string :=
  ["latitude"; "longitude"; "time"; "mag"; "depth_km"; "place"; "type"]%string.

(** [-x] *)
Definition f_opp : float -> float := SFopp.

(** A float in the binary64 format. *)
Definition is_binary64 (x : float) : bool := valid_binary prec emax x.

(** The exact value of a finite binary64 float in units of [2^-1074]. *)
Definition ulps (x : float) : Z :=
  match x with
  | S754_finite s m e => cond_Zopp s (Zpos m * 2 ^ (e + 1074))
  | _ => 0
  end.

(** What two records of the same detections agree on, whatever the order of
    the detections: everything but the mean brightness, whose rounding
    follows the order of the sum, and the brightness and frp maxima, which
    agree as numbers. *)
Definition same_summary (r r' : Fire.t) : Prop :=
  key_eqb (fire_key r') (fire_key r) = true
  /\ Fire.count r' = Fire.count r
  /\ Fire.date_first r' = Fire.date_first r
  /\ Fire.date r' = Fire.date r
  /\ Fire.confidence r' = Fire.confidence r.

(** [sample_table] from its last row to its first. *)
Definition sample_table_reversed : list Detection.t := rev sample_table.

(** *** Calendar dates *)

(** Whether the day [n] of a year (from 0) falls on a month from 1 to 12 and
    a day from 1 to 31, by the steps of [ord2ymd]. *)
Definition month_day_ok (leap : bool) (n : Z) : bool :=
  let month := Z.shiftr (n + 50) 5 in
  let preceding := days_before_month leap month in
  let '(m, d) :=
    if n <? preceding
    then (month - 1, n - (preceding - days_in_month leap (month - 1)) + 1)
    else (month, n - preceding + 1) in
  (1 <=? m) && (m <=? 12) && (1 <=? d) && (d <=? 31).

(** * Properties *)

(** ** The order of floats *)

Lemma f_ltb_code x y :
  f_ltb x y = true <->
  exists a b, ord_code x = Some a /\ ord_code y = Some b /\ code_lt a b.
Proof.
  unfold f_ltb, SFltb, SFcompare.
  destruct x as [sx | sx | | sx mx ex], y as [sy | sy | | sy my ey];
    try destruct sx; try destruct sy; simpl;
    try change (Pos.compare_cont Eq mx my) with (Pos.compare mx my);
    try (destruct (Z.compare_spec ex ey), (Pos.compare_spec mx my); simpl).
  all: split.
  all: try discriminate.
  all: try (intros _; eexists; eexists;
            split; [reflexivity | split; [reflexivity | simpl; lia]]).
  all: try reflexivity.
  all: intros (a & b & Ha & Hb & Hlt); try discriminate;
       injection Ha as <-; injection Hb as <-; simpl in Hlt; lia.
Qed.

Lemma f_eqb_code x y :
  f_eqb x y = true <-> exists a, ord_code x = Some a /\ ord_code y = Some a.
Proof.
  unfold f_eqb, SFeqb, SFcompare.
  destruct x as [sx | sx | | sx mx ex], y as [sy | sy | | sy my ey];
    try destruct sx; try destruct sy; simpl;
    try change (Pos.compare_cont Eq mx my) with (Pos.compare mx my);
    try (destruct (Z.compare_spec ex ey), (Pos.compare_spec mx my); simpl).
  all: split.
  all: try discriminate.
  all: try (intros _; eexists; split; [reflexivity | repeat f_equal; lia]).
  all: try reflexivity.
  all: intros (a & Ha & Hb); try discriminate;
       injection Ha as <-; injection Hb as Hb; try discriminate; try lia.
Qed.

Lemma ord_code_notna x : is_nan x = false <-> exists a, ord_code x = Some a.
Proof.
  destruct x; simpl; split; intros H; try discriminate; try reflexivity; eauto.
  destruct H as [a H]; discriminate.
Qed.

Lemma code_lt_irrefl a : ~ code_lt a a.
Proof. destruct a as [[a1 a2] a3]; simpl; lia. Qed.

Lemma code_lt_trans a b c : code_lt a b -> code_lt b c -> code_lt a c.
Proof. destruct a as [[a1 a2] a3], b as [[b1 b2] b3], c as [[c1 c2] c3]; simpl; lia. Qed.

Lemma code_lt_total a b : code_lt a b \/ a = b \/ code_lt b a.
Proof.
  destruct a as [[a1 a2] a3], b as [[b1 b2] b3]; simpl.
  destruct (Z.lt_total a1 b1) as [?|[?|?]], (Z.lt_total a2 b2) as [?|[?|?]],
    (Z.lt_total a3 b3) as [?|[?|?]]; subst; auto; lia.
Qed.

Lemma f_ltb_irrefl x : f_ltb x x = false.
Proof.
  destruct (f_ltb x x) eqn:E; [|reflexivity].
  apply f_ltb_code in E as (a & b & Ha & Hb & Hlt).
  rewrite Ha in Hb; injection Hb as <-. now apply code_lt_irrefl in Hlt.
Qed.

Lemma f_ltb_trans x y z : f_ltb x y = true -> f_ltb y z = true -> f_ltb x z = true.
Proof.
  intros (a & b & Ha & Hb & Hab)%f_ltb_code (b' & c & Hb' & Hc & Hbc)%f_ltb_code.
  rewrite Hb in Hb'; injection Hb' as <-.
  apply f_ltb_code. exists a, c. eauto using code_lt_trans.
Qed.

Lemma f_eqb_refl x : is_nan x = false -> f_eqb x x = true.
Proof. intros [a Ha]%ord_code_notna. apply f_eqb_code. eauto. Qed.

Lemma f_eqb_sym x y : f_eqb x y = f_eqb y x.
Proof.
  destruct (f_eqb x y) eqn:E1, (f_eqb y x) eqn:E2; try reflexivity.
  - apply f_eqb_code in E1 as (a & ? & ?).
    assert (f_eqb y x = true) by (apply f_eqb_code; eauto). congruence.
  - apply f_eqb_code in E2 as (a & ? & ?).
    assert (f_eqb x y = true) by (apply f_eqb_code; eauto). congruence.
Qed.

Lemma f_eqb_trans x y z : f_eqb x y = true -> f_eqb y z = true -> f_eqb x z = true.
Proof.
  intros (a & Ha & Hb)%f_eqb_code (b & Hb' & Hc)%f_eqb_code.
  rewrite Hb in Hb'; injection Hb' as <-. apply f_eqb_code; eauto.
Qed.

Lemma f_eqb_notna x y : f_eqb x y = true -> is_nan x = false /\ is_nan y = false.
Proof.
  intros (a & Ha & Hb)%f_eqb_code. split; apply ord_code_notna; eauto.
Qed.

(** Floats that are not NaN are totally ordered. *)
Lemma f_order_total x y :
  is_nan x = false -> is_nan y = false ->
  f_ltb x y = true \/ f_eqb x y = true \/ f_ltb y x = true.
Proof.
  intros [a Ha]%ord_code_notna [b Hb]%ord_code_notna.
  destruct (code_lt_total a b) as [H | [-> | H]].
  - left. apply f_ltb_code; eauto.
  - right; left. apply f_eqb_code; eauto.
  - right; right. apply f_ltb_code. exists b, a. eauto.
Qed.

(** ** Converting integers to floats *)

Lemma digits2_pos_size p : digits2_pos p = Pos.size p.
Proof. induction p; simpl; congruence. Qed.

Lemma digits2_bounds p :
  2 ^ (Zpos (digits2_pos p) - 1) <= Zpos p < 2 ^ Zpos (digits2_pos p).
Proof.
  rewrite digits2_pos_size.
  pose proof (Pos.size_gt p) as Hgt. pose proof (Pos.size_le p) as Hle.
  assert (E : forall n, Zpos (2 ^ n) = 2 ^ Zpos n) by (intros; now rewrite Pos2Z.inj_pow).
  split.
  - apply Pos2Z.pos_le_pos in Hle. rewrite Pos2Z.inj_xO, E in Hle.
    replace (Zpos (Pos.size p)) with (Zpos (Pos.size p) - 1 + 1) in Hle by lia.
    rewrite Z.pow_add_r in Hle by lia. lia.
  - apply Pos2Z.pos_lt_pos in Hgt. now rewrite E in Hgt.
Qed.

Lemma iter_xO_mul m d : Zpos (Pos.iter xO m d) = Zpos m * 2 ^ Zpos d.
Proof.
  revert m. induction d using Pos.peano_ind; intros m.
  - simpl. lia.
  - rewrite Pos.iter_succ, Pos2Z.inj_xO, IHd, Pos2Z.inj_succ, Z.pow_succ_r by lia. lia.
Qed.

Lemma shr_1_m mrs : 0 <= shr_m mrs -> shr_m (shr_1 mrs) = shr_m mrs / 2.
Proof.
  destruct mrs as [m r s]; simpl. intros Hm.
  destruct m as [|[p|p|]|p]; simpl; try lia; try reflexivity.
  - apply Z.div_unique with 1; lia.
  - apply Z.div_unique with 0; lia.
Qed.

Lemma pow2_xO n : 2 ^ Zpos n~0 = 2 ^ Zpos n * 2 ^ Zpos n.
Proof. replace (Zpos n~0) with (Zpos n + Zpos n) by lia. apply Z.pow_add_r; lia. Qed.

Lemma pow2_xI n : 2 ^ Zpos n~1 = 2 * (2 ^ Zpos n * 2 ^ Zpos n).
Proof.
  replace (Zpos n~1) with (1 + (Zpos n + Zpos n)) by lia.
  rewrite Z.pow_add_r, Z.pow_add_r by lia. reflexivity.
Qed.

Lemma iter_shr_1_m n : forall mrs,
  0 <= shr_m mrs -> shr_m (SpecFloat.iter_pos shr_1 n mrs) = shr_m mrs / 2 ^ Zpos n.
Proof.
  assert (Hp : forall k, 0 < 2 ^ Zpos k) by (intros; apply Z.pow_pos_nonneg; lia).
  induction n as [n IH | n IH |]; intros mrs Hm; simpl SpecFloat.iter_pos.
  - assert (H1 : 0 <= shr_m (shr_1 mrs)) by (rewrite shr_1_m by lia; apply Z.div_pos; lia).
    assert (H2 : 0 <= shr_m (SpecFloat.iter_pos shr_1 n (shr_1 mrs)))
      by (rewrite IH by lia; apply Z.div_pos; [lia | apply Hp]).
    rewrite IH, IH, shr_1_m by lia.
    pose proof (Hp n).
    rewrite !Z.div_div by lia. now rewrite pow2_xI.
  - assert (H2 : 0 <= shr_m (SpecFloat.iter_pos shr_1 n mrs))
      by (rewrite IH by lia; apply Z.div_pos; [lia | apply Hp]).
    rewrite IH, IH by lia. pose proof (Hp n).
    rewrite Z.div_div by lia. now rewrite pow2_xO.
  - rewrite shr_1_m by lia. reflexivity.
Qed.

Lemma digits2_iter_xO p k :
  Zpos (digits2_pos (Pos.iter xO p k)) = Zpos (digits2_pos p) + Zpos k.
Proof.
  induction k using Pos.peano_ind.
  - simpl. lia.
  - rewrite Pos.iter_succ. simpl digits2_pos. lia.
Qed.

Lemma fexp_eq e : fexp prec emax e = Z.max (e - 53) (-1074).
Proof. reflexivity. Qed.

(** A mantissa of exactly 53 bits is left as it is. *)
Lemma binary_round_aux_canonical s m e :
  Zpos (digits2_pos m) = 53 -> -1074 <= e <= 971 ->
  binary_round_aux prec emax s (Zpos m) e loc_Exact = S754_finite s m e.
Proof.
  intros Hd He.
  assert (Hs : shr_fexp prec emax (Zpos m) e loc_Exact
               = ({| shr_m := Zpos m; shr_r := false; shr_s := false |}, e)).
  { unfold shr_fexp. rewrite fexp_eq. simpl Zdigits2. rewrite Hd.
    replace (Z.max (53 + e - 53) (-1074) - e) with 0 by lia. reflexivity. }
  unfold binary_round_aux. rewrite Hs. simpl. rewrite Hs. simpl.
  destruct (e <=? emax - prec) eqn:E; [reflexivity|].
  apply Z.leb_gt in E. unfold emax, prec in E. lia.
Qed.

(** Integers of at most 53 bits convert exactly. *)
Lemma Z2F_exact s p :
  Zpos (digits2_pos p) <= 53 ->
  exists m k, binary_round prec emax s p 0 = S754_finite s m (- k)
              /\ 0 <= k /\ Zpos m = Zpos p * 2 ^ k.
Proof.
  intros Hd. unfold binary_round. rewrite fexp_eq.
  pose proof (Pos2Z.is_pos (digits2_pos p)).
  replace (Z.max (Zpos (digits2_pos p) + 0 - 53) (-1074)) with (Zpos (digits2_pos p) - 53) by lia.
  unfold shl_align.
  destruct (Zpos (digits2_pos p) - 53 - 0) as [|q|q] eqn:E; try lia.
  - exists p, 0. rewrite binary_round_aux_canonical by lia.
    repeat split; [lia | simpl; lia].
  - exists (Pos.iter xO p q), (Zpos q).
    rewrite binary_round_aux_canonical.
    + replace (- Zpos q) with (Zpos (digits2_pos p) - 53) by lia.
      repeat split; [lia | apply iter_xO_mul].
    + rewrite digits2_iter_xO. lia.
    + lia.
Qed.

(** A mantissa of 53 bits or more keeps at least 53 bits when it is shifted
    into place. *)
Lemma shr_fexp_large m e l :
  2 ^ 52 <= m -> 0 <= e ->
  2 ^ 52 <= shr_m (fst (shr_fexp prec emax m e l))
  /\ e <= snd (shr_fexp prec emax m e l)
  /\ (2 ^ 53 <= m -> e < snd (shr_fexp prec emax m e l)).
Proof.
  intros Hm He.
  destruct m as [|q|q]; try (exfalso; lia).
  pose proof (digits2_bounds q) as [Hlo Hhi].
  set (dg := Zpos (digits2_pos q)) in *.
  assert (Hdg : 53 <= dg).
  { destruct (Z.lt_ge_cases dg 53) as [Hlt|]; [|assumption].
    assert (2 ^ dg <= 2 ^ 52) by (apply Z.pow_le_mono_r; lia). lia. }
  assert (Hm0 : shr_m (shr_record_of_loc (Zpos q) l) = Zpos q)
    by (destruct l as [|[]]; reflexivity).
  unfold shr_fexp. rewrite fexp_eq. simpl Zdigits2. fold dg.
  replace (Z.max (dg + e - 53) (-1074) - e) with (dg - 53) by lia.
  unfold shr. destruct (dg - 53) as [|k|k] eqn:Ek; try lia; simpl fst; simpl snd.
  - rewrite Hm0. repeat split; try lia. intros H53.
    assert (dg = 53) by lia.
    assert (2 ^ dg = 2 ^ 53) by (f_equal; assumption). lia.
  - rewrite iter_shr_1_m by (rewrite Hm0; lia). rewrite Hm0.
    repeat split; try lia.
    apply Z.div_le_lower_bound; [apply Z.pow_pos_nonneg; lia|].
    rewrite <- Z.pow_add_r by lia.
    replace (Zpos k + 52) with (dg - 1) by lia. exact Hlo.
Qed.

Lemma round_nearest_even_ge m l : m <= round_nearest_even m l.
Proof. destruct l as [|[]]; simpl; try lia. destruct (Z.even m); lia. Qed.

(** The conversion of an integer of more than 53 bits is at least [2^53]. *)
Lemma Z2F_large p :
  53 < Zpos (digits2_pos p) ->
  binary_round prec emax false p 0 = S754_infinity false
  \/ exists m e, binary_round prec emax false p 0 = S754_finite false m (Zpos e)
                 /\ 2 ^ 52 <= Zpos m.
Proof.
  intros Hd. unfold binary_round. rewrite fexp_eq.
  replace (Z.max (Zpos (digits2_pos p) + 0 - 53) (-1074)) with (Zpos (digits2_pos p) - 53) by lia.
  unfold shl_align.
  destruct (Zpos (digits2_pos p) - 53 - 0) as [|q|q] eqn:E; try lia.
  pose proof (digits2_bounds p) as [Hlo _].
  assert (H53 : 2 ^ 53 <= Zpos p).
  { assert (2 ^ 53 <= 2 ^ (Zpos (digits2_pos p) - 1)) by (apply Z.pow_le_mono_r; lia). lia. }
  unfold binary_round_aux.
  pose proof (shr_fexp_large (Zpos p) 0 loc_Exact ltac:(lia) ltac:(lia)) as (H1 & H2 & H3).
  specialize (H3 H53).
  destruct (shr_fexp prec emax (Zpos p) 0 loc_Exact) as [mrs' e']. simpl in H1, H2, H3.
  pose proof (round_nearest_even_ge (shr_m mrs') (loc_of_shr_record mrs')) as Hr.
  set (m1 := round_nearest_even (shr_m mrs') (loc_of_shr_record mrs')) in *.
  pose proof (shr_fexp_large m1 e' loc_Exact ltac:(lia) ltac:(lia)) as (H4 & H5 & _).
  destruct (shr_fexp prec emax m1 e' loc_Exact) as [mrs'' e'']. simpl in H4, H5.
  destruct (shr_m mrs'') as [|m|m]; try (exfalso; lia).
  destruct (e'' <=? emax - prec); [right | left; reflexivity].
  destruct e'' as [|e|e]; try lia.
  exists m, e. split; [reflexivity | lia].
Qed.

Lemma binary_round_aux_sign s m e l :
  match binary_round_aux prec emax s m e l with
  | S754_zero s' | S754_infinity s' | S754_finite s' _ _ => s' = s
  | S754_nan => True
  end.
Proof.
  unfold binary_round_aux.
  destruct (shr_fexp prec emax m e l) as [mrs' e'].
  destruct (shr_fexp prec emax _ e' loc_Exact) as [mrs'' e''].
  destruct (shr_m mrs''); try reflexivity.
  destruct (e'' <=? emax - prec); reflexivity.
Qed.

(** Comparing the float of an integer with a threshold of at most 53 bits is
    comparing the integer. *)
Lemma float_ge_int_Z2F z n :
  0 < n <= 2 ^ 53 -> float_ge_int (Z2F z) n = (n <=? z).
Proof.
  intros Hn. destruct z as [|p|p]; unfold Z2F, binary_normalize.
  - simpl. destruct (n <=? 0) eqn:E; [apply Z.leb_le in E; lia | reflexivity].
  - destruct (Z.le_gt_cases (Zpos (digits2_pos p)) 53) as [Hd|Hd].
    + destruct (Z2F_exact false p Hd) as (m & k & -> & Hk & Hm).
      unfold float_ge_int.
      assert (Hp : 0 < 2 ^ k) by (apply Z.pow_pos_nonneg; lia).
      destruct k as [|k|k]; try lia; cbn [cond_Zopp].
      * change (- 0) with 0. cbn iota. rewrite Z.pow_0_r, Z.mul_1_r in *. now rewrite Hm.
      * change (- Zpos k) with (Zneg k). cbn iota. rewrite Hm. apply eq_iff_eq_true. rewrite !Z.leb_le.
        split; intros H; [apply Z.mul_le_mono_pos_r in H | apply Z.mul_le_mono_pos_r]; lia.
    + pose proof (digits2_bounds p) as [Hlo _].
      assert (H53 : 2 ^ 53 <= Zpos p).
      { assert (2 ^ 53 <= 2 ^ (Zpos (digits2_pos p) - 1)) by (apply Z.pow_le_mono_r; lia). lia. }
      replace (n <=? Zpos p) with true by (symmetry; apply Z.leb_le; lia).
      destruct (Z2F_large p Hd) as [-> | (m & e & -> & Hm)]; [reflexivity |].
      unfold float_ge_int. cbn [cond_Zopp]. apply Z.leb_le.
      assert (2 <= 2 ^ Zpos e).
      { change 2 with (2 ^ 1) at 1. apply Z.pow_le_mono_r; lia. }
      change (2 ^ 53) with (2 ^ 52 * 2) in Hn. nia.
  - replace (n <=? Zneg p) with false by (symmetry; apply Z.leb_gt; lia).
    unfold binary_round. destruct (shl_align p 0 _) as [mz ez].
    pose proof (binary_round_aux_sign true (Zpos mz) ez loc_Exact) as Hs.
    destruct (binary_round_aux prec emax true (Zpos mz) ez loc_Exact) as [s'|s'| |s' m e];
      try subst s'; try reflexivity.
    + simpl. apply Z.leb_gt. lia.
    + unfold float_ge_int. cbn [cond_Zopp].
      destruct e as [|e|e]; apply Z.leb_gt.
      * lia.
      * assert (0 < 2 ^ Zpos e) by (apply Z.pow_pos_nonneg; lia). nia.
      * assert (0 < 2 ^ Zpos e) by (apply Z.pow_pos_nonneg; lia). nia.
Qed.

(** ** Lower-casing and the float parser *)

Lemma lower_char_facts c :
  lower_char (lower_char c) = lower_char c
  /\ is_digit (lower_char c) = is_digit c
  /\ (is_digit c = true -> lower_char c = c)
  /\ is_float_space (lower_char c) = is_float_space c
  /\ Ascii.eqb (lower_char c) "_" = Ascii.eqb c "_"
  /\ Ascii.eqb (lower_char c) "." = Ascii.eqb c "."
  /\ Ascii.eqb (lower_char c) "+" = Ascii.eqb c "+"
  /\ Ascii.eqb (lower_char c) "-" = Ascii.eqb c "-".
Proof.
  destruct c as [[] [] [] [] [] [] [] []]; vm_compute; repeat split; intros; congruence.
Qed.

Lemma str_lower_list s :
  list_ascii_of_string (str_lower s) = map lower_char (list_ascii_of_string s).
Proof. induction s; simpl; congruence. Qed.

Lemma str_lower_of_list l :
  string_of_list_ascii (map lower_char l) = str_lower (string_of_list_ascii l).
Proof. induction l; simpl; congruence. Qed.

Lemma str_lower_idem s : str_lower (str_lower s) = str_lower s.
Proof.
  induction s as [|c s IH]; simpl; [reflexivity|].
  rewrite IH. now destruct (lower_char_facts c) as (-> & _).
Qed.

Lemma underscores_ok_lower l : forall b,
  underscores_ok b (map lower_char l) = underscores_ok b l.
Proof.
  induction l as [|c l IH]; intros b; simpl; [reflexivity|].
  destruct (lower_char_facts c) as (_ & Hd & _ & _ & -> & _).
  rewrite !IH, Hd. destruct (Ascii.eqb c "_"); [|reflexivity].
  destruct l as [|d l]; simpl; [reflexivity|].
  now destruct (lower_char_facts d) as (_ & -> & _).
Qed.

Lemma drop_underscores_lower l :
  drop_underscores (map lower_char l) = map lower_char (drop_underscores l).
Proof.
  unfold drop_underscores. induction l as [|c l IH]; simpl; [reflexivity|].
  destruct (lower_char_facts c) as (_ & _ & _ & _ & -> & _).
  destruct (Ascii.eqb c "_"); simpl; congruence.
Qed.

Lemma lstrip_lower s :
  lstrip_by is_float_space (str_lower s) = str_lower (lstrip_by is_float_space s).
Proof.
  induction s as [|c s IH]; simpl; [reflexivity|].
  destruct (lower_char_facts c) as (_ & _ & _ & -> & _).
  destruct (is_float_space c); [assumption | reflexivity].
Qed.

Lemma rstrip_lower s :
  rstrip_by is_float_space (str_lower s) = str_lower (rstrip_by is_float_space s).
Proof.
  induction s as [|c s IH]; simpl; [reflexivity|].
  rewrite IH. destruct (lower_char_facts c) as (_ & _ & _ & -> & _).
  destruct (rstrip_by is_float_space s); simpl; [|reflexivity].
  destruct (is_float_space c); reflexivity.
Qed.

Lemma take_sign_lower l :
  take_sign (map lower_char l) = (fst (take_sign l), map lower_char (snd (take_sign l))).
Proof.
  destruct l as [|c l]; simpl; [reflexivity|].
  destruct (lower_char_facts c) as (_ & _ & _ & _ & _ & _ & -> & ->).
  destruct (Ascii.eqb c "-"); [reflexivity|].
  destruct (Ascii.eqb c "+"); reflexivity.
Qed.

Lemma span_digits_lower l :
  span_digits (map lower_char l)
  = (fst (span_digits l), map lower_char (snd (span_digits l))).
Proof.
  induction l as [|c l IH]; simpl; [reflexivity|].
  destruct (lower_char_facts c) as (_ & -> & Hfix & _).
  destruct (is_digit c) eqn:E; [|reflexivity].
  rewrite IH, Hfix by reflexivity. destruct (span_digits l); reflexivity.
Qed.

Lemma parse_exponent_lower l : parse_exponent (map lower_char l) = parse_exponent l.
Proof.
  destruct l as [|c l]; simpl; [reflexivity|].
  destruct (lower_char_facts c) as (-> & _).
  destruct (Ascii.eqb (lower_char c) "e"); [|reflexivity].
  rewrite take_sign_lower. destruct (take_sign l) as [s r]; simpl.
  rewrite span_digits_lower. destruct (span_digits r) as [ds r']; simpl.
  destruct ds; [reflexivity|]. destruct r'; reflexivity.
Qed.

Lemma parse_decimal_lower s l : parse_decimal s (map lower_char l) = parse_decimal s l.
Proof.
  unfold parse_decimal. rewrite span_digits_lower.
  destruct (span_digits l) as [ip r1]; simpl.
  destruct r1 as [|c r1]; simpl.
  - reflexivity.
  - destruct (lower_char_facts c) as (_ & _ & _ & _ & _ & -> & _).
    destruct (Ascii.eqb c ".").
    + rewrite span_digits_lower. destruct (span_digits r1) as [fp r2]; simpl.
      destruct (ip ++ fp); [reflexivity|]. now rewrite parse_exponent_lower.
    + destruct (ip ++ []); [reflexivity|].
      change (lower_char c :: map lower_char r1) with (map lower_char (c :: r1)).
      now rewrite parse_exponent_lower.
Qed.

(** [float()] reads a string regardless of case. *)
Lemma parse_float_lower s : parse_float (str_lower s) = parse_float s.
Proof.
  unfold parse_float.
  rewrite str_lower_list, underscores_ok_lower.
  destruct (underscores_ok false (list_ascii_of_string s)); [|reflexivity].
  rewrite drop_underscores_lower, str_lower_of_list, lstrip_lower, rstrip_lower,
    str_lower_list, take_sign_lower.
  destruct (take_sign _) as [sg r]; simpl fst; simpl snd.
  rewrite str_lower_of_list, str_lower_idem, parse_decimal_lower. reflexivity.
Qed.

(** ** C1: the confidence rank *)

Lemma threshold_high : CONFIDENCE_THRESHOLDS !!! "high"%string = 80.
Proof. reflexivity. Qed.

Lemma threshold_nominal : CONFIDENCE_THRESHOLDS !!! "nominal"%string = 30.
Proof. reflexivity. Qed.

Lemma score_rank_float f : score_rank (VFloat f) = Ok (threshold_rank f).
Proof.
  unfold score_rank, threshold_rank. simpl py_float.
  rewrite threshold_high, threshold_nominal.
  destruct (float_ge_int f 80); [reflexivity|].
  destruct (float_ge_int f 30); reflexivity.
Qed.

Lemma threshold_rank_range f :
  threshold_rank f = 0 \/ threshold_rank f = 1 \/ threshold_rank f = 2.
Proof.
  unfold threshold_rank.
  destruct (float_ge_int f 80); [auto|]. destruct (float_ge_int f 30); auto.
Qed.

Lemma threshold_rank_int z :
  threshold_rank (Z2F z) = if 80 <=? z then 2 else if 30 <=? z then 1 else 0.
Proof.
  unfold threshold_rank.
  rewrite !float_ge_int_Z2F by (split; [lia | now apply Z.leb_le]).
  reflexivity.
Qed.

Lemma claimed_rank_range value :
  claimed_rank value = 0 \/ claimed_rank value = 1 \/ claimed_rank value = 2.
Proof.
  destruct value as [ | | | b | z | f | s | d | t | o]; simpl;
    auto using threshold_rank_range.
  - destruct (80 <=? z); [auto|]. destruct (30 <=? z); auto.
  - unfold label_rank.
    destruct (_ || _); [auto|]. destruct (_ || _); [auto|]. destruct (_ || _); [auto|].
    destruct (parse_float s); auto using threshold_rank_range.
  - destruct (obj_isna o) as [[]|]; auto.
    destruct (obj_float o); auto using threshold_rank_range.
Qed.

Lemma rank_rule_range value :
  rank_rule value = 0 \/ rank_rule value = 1 \/ rank_rule value = 2.
Proof. destruct value; apply claimed_rank_range. Qed.

Lemma score_rank_range value rank :
  score_rank value = Ok rank -> 0 <= rank <= 2.
Proof.
  unfold score_rank. destruct (py_float value) as [score|[]]; try discriminate.
  - destruct (float_ge_int _ _); [intros [= <-]; lia|].
    destruct (float_ge_int _ _); intros [= <-]; lia.
  - intros [= <-]; lia.
  - intros [= <-]; lia.
Qed.

(** Whenever the resolver returns, it returns 0, 1 or 2. *)
Lemma confidence_rank_range value rank :
  _confidence_rank value = Ok rank -> 0 <= rank <= 2.
Proof.
  unfold _confidence_rank. destruct (is_None value); [intros [= <-]; lia|].
  destruct (pd_isna value) as [[]|]; cbn [rbind]; try discriminate.
  - intros [= <-]; lia.
  - destruct value; try apply score_rank_range.
    destruct (str_in _ _); [intros [= <-]; lia|].
    destruct (str_in _ _); [intros [= <-]; lia|].
    destruct (str_in _ _); [intros [= <-]; lia|].
    destruct (float_of_str _) as [f|[]]; try discriminate.
    + apply score_rank_range.
    + intros [= <-]; lia.
Qed.

(** The numeric rule raises what [float()] raises, short of [TypeError] and
    [ValueError]. *)
Lemma score_rank_raise value e :
  score_rank value = Raise e <->
  py_float value = Raise e /\ e <> TypeError /\ e <> ValueError.
Proof.
  unfold score_rank. destruct (py_float value) as [score|[]].
  - split; [|intros [[=] _]].
    destruct (float_ge_int _ _); [discriminate|]. destruct (float_ge_int _ _); discriminate.
  - split; [discriminate|]. intros ([= <-] & Hne & _). now destruct Hne.
  - split; [discriminate|]. intros ([= <-] & _ & Hne). now destruct Hne.
  - split; [intros [= <-] | intros ([= <-] & _)]; repeat split; discriminate.
  - split; [intros [= <-] | intros ([= <-] & _)]; repeat split; discriminate.
Qed.

Lemma score_rank_returns value :
  (forall e, py_float value = Raise e -> e = TypeError \/ e = ValueError) ->
  exists rank, score_rank value = Ok rank.
Proof.
  intros Hf. destruct (score_rank value) as [rank|e] eqn:E; [eauto|].
  apply score_rank_raise in E as (Hr & Ht & Hv).
  destruct (Hf e Hr); contradiction.
Qed.

Lemma float_of_int_fits z : int_too_large (VInt z) = false -> float_of_int z = Ok (Z2F z).
Proof. unfold float_of_int. simpl. destruct (Z2F z); (reflexivity || discriminate). Qed.

(** The resolver returns on every value it can rank. *)
Lemma confidence_rank_returns value :
  resolvable value = true -> exists rank, _confidence_rank value = Ok rank.
Proof.
  intros Hres. unfold _confidence_rank.
  destruct value as [ | | | b | z | f | s | d | t | o]; cbn [is_None pd_isna rbind];
    try solve [eauto];
    try solve [apply score_rank_returns; simpl; intros e [= <-]; auto].
  - apply score_rank_returns. simpl in *. apply negb_true_iff in Hres.
    rewrite (float_of_int_fits z Hres). discriminate.
  - destruct (is_nan f); [eauto|]. apply score_rank_returns. discriminate.
  - destruct (str_in _ _); [eauto|].
    destruct (str_in _ _); [eauto|].
    destruct (str_in _ _); [eauto|].
    unfold float_of_str. destruct (parse_float _); [|eauto].
    apply score_rank_returns. discriminate.
  - simpl in Hres. destruct (obj_isna o) as [[]|]; cbn [rbind]; try discriminate; [eauto|].
    apply score_rank_returns. simpl. intros e He. rewrite He in Hres.
    destruct e; auto; discriminate.
Qed.

(** C1 (as amended). Whatever the value, short of an integer that no float
    can hold and of an object whose [isna] has no truth value or whose
    [float()] raises something else than [TypeError] or [ValueError],
    [_confidence_rank] returns without raising, and what it returns is the
    rank of the rule: 0 for an absent or NaN value; for a string, once its
    surrounding white space is dropped, 2, 1 or 0 when it reads "high" or "h",
    "nominal" or "n", "low" or "l" in any case, and otherwise the rank of the
    number it spells (0 when it spells none); for a number, or an object that
    [float()] converts, 2 from 80 up, 1 from 30 up, and 0 below; 0 for
    anything [float()] refuses.  The rank is 0, 1 or 2. *)
Theorem confidence_rank_rule (value : pyval) :
  resolvable value = true ->
  _confidence_rank value = Ok (rank_rule value)
  /\ (rank_rule value = 0 \/ rank_rule value = 1 \/ rank_rule value = 2).
Proof.
  intros Hfit. split; [|apply rank_rule_range].
  destruct value as [ | | | b | z | f | s | d | t | o]; try reflexivity.
  - destruct b; reflexivity.
  - unfold _confidence_rank, score_rank. cbn [is_None pd_isna rbind py_float].
    simpl in Hfit. apply negb_true_iff in Hfit.
    rewrite (float_of_int_fits z Hfit), threshold_high, threshold_nominal.
    change (rank_rule (VInt z)) with (if 80 <=? z then 2 else if 30 <=? z then 1 else 0).
    rewrite <- threshold_rank_int. unfold threshold_rank.
    destruct (float_ge_int _ 80); [reflexivity|].
    destruct (float_ge_int _ 30); reflexivity.
  - unfold _confidence_rank. cbn [is_None pd_isna rbind].
    destruct (is_nan f) eqn:E.
    + destruct f; try discriminate. reflexivity.
    + apply score_rank_float.
  - unfold _confidence_rank. cbn [is_None pd_isna rbind].
    unfold rank_rule, claimed_rank, label_rank, str_in, float_of_str. cbn [existsb].
    rewrite !orb_false_r, parse_float_lower.
    set (word := str_lower (str_strip s)).
    destruct (_ || _); [reflexivity|]. destruct (_ || _); [reflexivity|].
    destruct (_ || _); [reflexivity|].
    destruct (parse_float (str_strip s)); [apply score_rank_float | reflexivity].
  - unfold _confidence_rank, rank_rule, claimed_rank. cbn [is_None pd_isna rbind].
    simpl in Hfit. destruct (obj_isna o) as [[]|]; cbn [rbind]; try discriminate;
      [reflexivity|].
    unfold score_rank. cbn [py_float]. rewrite threshold_high, threshold_nominal.
    unfold threshold_rank.
    destruct (obj_float o) as [score|[]]; try discriminate; try reflexivity.
    destruct (float_ge_int _ 80); [reflexivity|].
    destruct (float_ge_int _ 30); reflexivity.
Qed.

(** The rule is met on an object: [Decimal('85')], which is no null and
    which [float()] converts to 85.0, is of rank 2. *)
Lemma confidence_rank_rule_witness :
  resolvable (VObject sample_decimal) = true
  /\ _confidence_rank (VObject sample_decimal) = Ok 2.
Proof.
  split; [reflexivity|].
  exact (proj1 (confidence_rank_rule (VObject sample_decimal) eq_refl)).
Defined.

(** C1 as it is stated fails: a label inside white space is ranked as the
    label and not as an unreadable number; an integer too large for a float
    raises, and so does a list. *)
Lemma confidence_rank_claim_fails :
  _confidence_rank (VStr " H ") = Ok 2
  /\ claimed_rank (VStr " H ") = 0
  /\ _confidence_rank (VInt (10 ^ 400)) = Raise OverflowError
  /\ _confidence_rank (VObject sample_list) = Raise ValueError.
Proof. repeat split; vm_compute; reflexivity. Qed.

Example confidence_rank_H : _confidence_rank (VStr "H") = Ok 2.
Proof. reflexivity. Qed.

Example confidence_rank_45 : _confidence_rank (VInt 45) = Ok 1.
Proof. reflexivity. Qed.

Example confidence_rank_None : _confidence_rank VNone = Ok 0.
Proof. reflexivity. Qed.

(** ** Calendar dates as text *)

Lemma all_from_spec P n : forall lo z,
  all_from P lo n = true -> lo <= z < lo + Zpos n -> P z = true.
Proof.
  induction n as [n IH | n IH |]; intros lo z; simpl.
  - intros [[Hlo H1]%andb_prop H2]%andb_prop Hz.
    destruct (Z.eq_dec z lo) as [-> | Hne]; [assumption|].
    destruct (Z.lt_ge_cases z (lo + 1 + Zpos n)).
    + apply (IH (lo + 1)); [assumption | lia].
    + apply (IH (lo + 1 + Zpos n)); [assumption | lia].
  - intros [H1 H2]%andb_prop Hz.
    destruct (Z.lt_ge_cases z (lo + Zpos n)).
    + apply (IH lo); [assumption | lia].
    + apply (IH (lo + Zpos n)); [assumption | lia].
  - intros Hlo Hz. now replace z with lo by lia.
Qed.

Lemma padded_digits :
  all_from (fun y => is_digits 4 (zero_pad 4 y)) 1 9999
  && all_from (fun d => is_digits 2 (zero_pad 2 d)) 1 31 = true.
Proof. vm_compute. reflexivity. Qed.

Lemma zero_pad_year y : 1 <= y <= 9999 -> is_digits 4 (zero_pad 4 y) = true.
Proof.
  intros Hy. pose proof padded_digits as [Hall _]%andb_prop.
  apply (all_from_spec _ _ _ y Hall). lia.
Qed.

Lemma zero_pad_day d : 1 <= d <= 31 -> is_digits 2 (zero_pad 2 d) = true.
Proof.
  intros Hd. pose proof padded_digits as [_ Hall]%andb_prop.
  apply (all_from_spec _ _ _ d Hall). lia.
Qed.

Lemma is_iso_date_parts y m d :
  is_digits 4 y = true -> is_digits 2 m = true -> is_digits 2 d = true ->
  is_iso_date (y +:+ "-" +:+ m +:+ "-" +:+ d) = true.
Proof.
  unfold is_digits, is_iso_date. generalize is_digit. intros digit.
  destruct y as [|y1 [|y2 [|y3 [|y4 [|]]]]]; try discriminate.
  destruct m as [|m1 [|m2 [|]]]; try discriminate.
  destruct d as [|d1 [|d2 [|]]]; try discriminate.
  simpl. intros Hy Hm Hd.
  repeat match goal with
         | H : _ && _ = true |- _ => apply andb_prop in H as [? ?]
         end.
  repeat match goal with
         | H : digit _ = true |- _ => rewrite H; clear H
         end.
  reflexivity.
Qed.

Lemma months_days :
  all_from (month_day_ok true) 0 365 && all_from (month_day_ok false) 0 365 = true.
Proof. vm_compute. reflexivity. Qed.

Lemma month_day_bounds leap n : 0 <= n < 365 -> month_day_ok leap n = true.
Proof.
  intros Hn. pose proof months_days as [Ht Hf]%andb_prop.
  destruct leap; [apply (all_from_spec _ _ _ n Ht) | apply (all_from_spec _ _ _ n Hf)]; lia.
Qed.

(** The year, the month and the day of a date of the calendar. *)
Lemma ord2ymd_bounds ordinal :
  valid_date ordinal ->
  let '(y, m, d) := ord2ymd ordinal in
  1 <= y <= 9999 /\ 1 <= m <= 12 /\ 1 <= d <= 31.
Proof.
  unfold valid_date. intros Hd. unfold ord2ymd.
  set (n := ordinal - 1).
  assert (Hn : 0 <= n <= 3652058) by (unfold n; lia).
  pose proof (Z.div_mod n 146097 ltac:(lia)) as E400.
  pose proof (Z.mod_pos_bound n 146097 ltac:(lia)) as B400.
  set (n400 := n / 146097) in *. set (r400 := n mod 146097) in *.
  pose proof (Z.div_mod r400 36524 ltac:(lia)) as E100.
  pose proof (Z.mod_pos_bound r400 36524 ltac:(lia)) as B100.
  set (n100 := r400 / 36524) in *. set (r100 := r400 mod 36524) in *.
  pose proof (Z.div_mod r100 1461 ltac:(lia)) as E4.
  pose proof (Z.mod_pos_bound r100 1461 ltac:(lia)) as B4.
  set (n4 := r100 / 1461) in *. set (r4 := r100 mod 1461) in *.
  pose proof (Z.div_mod r4 365 ltac:(lia)) as E1.
  pose proof (Z.mod_pos_bound r4 365 ltac:(lia)) as B1.
  set (n1 := r4 / 365) in *. set (r1 := r4 mod 365) in *.
  assert (H400 : 0 <= n400 <= 24) by lia.
  assert (H100 : 0 <= n100 <= 4) by lia.
  assert (H4 : 0 <= n4 <= 24) by lia.
  assert (H1 : 0 <= n1 <= 4) by lia.
  destruct ((n1 =? 4) || (n100 =? 4)) eqn:Elast.
  - split; [|lia].
    apply orb_true_iff in Elast as [E%Z.eqb_eq | E%Z.eqb_eq]; lia.
  - apply orb_false_iff in Elast as [E1'%Z.eqb_neq E100'%Z.eqb_neq].
    set (leap := (n1 =? 3) && (negb (n4 =? 24) || (n100 =? 3))).
    pose proof (month_day_bounds leap r1 B1) as Hmd. unfold month_day_ok in Hmd.
    destruct (r1 <? days_before_month leap (Z.shiftr (r1 + 50) 5));
      repeat match type of Hmd with
             | _ && _ = true => apply andb_prop in Hmd as [Hmd ?]
             end;
      rewrite ?Z.leb_le in *; repeat split; try lia.
Qed.

(** A date of the calendar is written [YYYY-MM-DD]. *)
Lemma date_isoformat_iso day : valid_date day -> is_iso_date (date_isoformat day) = true.
Proof.
  intros Hday. unfold date_isoformat.
  pose proof (ord2ymd_bounds day Hday) as Hb.
  destruct (ord2ymd day) as [[y m] d]. destruct Hb as (Hy & Hm & Hd).
  apply is_iso_date_parts.
  - now apply zero_pad_year.
  - apply zero_pad_day. lia.
  - now apply zero_pad_day.
Qed.

(** ** C9: the date formatter *)

(** C9 (as amended). Whatever the value, as long as [pandas.isna] has a truth
    value on it and the conversion that applies to it returns,
    [_format_date] returns a string: the empty string for a null (None, NaN,
    NaT, NA); for a timestamp its calendar date alone, whatever its time of
    day, which is how its full ISO form begins and reads [YYYY-MM-DD]; the
    ISO form of any other value that has one; and the string cast of the
    value otherwise. *)
Theorem format_date_rule `{PyRuntime} (value : pyval) :
  formattable value = true ->
  exists out, _format_date value = Ok out /\ date_rule value out.
Proof.
  intros Hfmt. unfold _format_date, date_rule.
  destruct value as [ | | | b | z | f | s | d | t | o];
    cbn [is_None is_null pd_isna rbind as_datetime isoformat_of py_str];
    try solve [eexists; split; reflexivity].
  - destruct (is_nan f); eexists; split; reflexivity.
  - eexists. split; [reflexivity|]. split; [reflexivity|]. split; [reflexivity|].
    apply date_isoformat_iso.
  - simpl in Hfmt. destruct (obj_isna o) as [[]|]; cbn [rbind]; try discriminate.
    + eexists; split; reflexivity.
    + destruct (obj_isoformat o) as [[iso|]|]; try discriminate.
      * eexists; split; reflexivity.
      * destruct (obj_str o) as [str|]; try discriminate. eexists; split; reflexivity.
Qed.

(** The timestamp [sample_now], of 23:00, is written 2026-01-25. *)
Lemma format_date_rule_witness :
  formattable (VDatetime sample_now) = true
  /\ exists out,
       _format_date (VDatetime sample_now) = Ok out
       /\ date_rule (VDatetime sample_now) out.
Proof.
  split; [reflexivity|].
  exact (format_date_rule (VDatetime sample_now) eq_refl).
Defined.

(** C9 as it is stated fails: on a list, [pandas.isna] answers an array,
    whose truth value raises. *)
Lemma format_date_claim_fails :
  _format_date (VObject sample_list) = Raise ValueError.
Proof. reflexivity. Qed.

Example format_date_nat : _format_date VNaT = Ok ""%string.
Proof. reflexivity. Qed.

(** ** C4: the recency filter *)

Lemma minus_days_ok now days :
  valid_date (ts_day now) -> valid_date (ts_day now - days) ->
  minus_days now days = Ok {| ts_day := ts_day now - days; ts_nanos := ts_nanos now |}.
Proof.
  unfold valid_date, minus_days, valid_ordinal. intros Hn Hc.
  destruct (999999999 <? Z.abs days) eqn:E; [apply Z.ltb_lt in E; lia|].
  destruct (1 <=? ts_day now - days) eqn:E1; [|apply Z.leb_gt in E1; lia].
  destruct (ts_day now - days <=? 3652059) eqn:E2; [|apply Z.leb_gt in E2; lia].
  reflexivity.
Qed.

Lemma minus_days_day now days t :
  minus_days now days = Ok t -> ts_day t = ts_day now - days.
Proof.
  unfold minus_days. destruct (_ <? _); [discriminate|].
  destruct (valid_ordinal _); [|discriminate]. now intros [= <-].
Qed.

Lemma recent_fires_spec now days data recent :
  recent_fires now days data = Ok recent ->
  recent = List.filter (on_or_after (ts_day now - days)) data.
Proof.
  unfold recent_fires. destruct (minus_days now days) as [cutoff|] eqn:E; [|discriminate].
  cbn [rbind]. apply minus_days_day in E. rewrite E.
  destruct data as [|d data]; [now intros [= <-]|].
  destruct (forallb undated (d :: data)); [discriminate|]. now intros [= <-].
Qed.

(** The filter returns when the window can be computed and a row has a
    date. *)
Lemma recent_fires_dated now days data cutoff d t :
  minus_days now days = Ok cutoff ->
  In d data -> Detection.acq_date d = Some t ->
  recent_fires now days data = Ok (List.filter (on_or_after (ts_day cutoff)) data).
Proof.
  intros Hcut Hin Hdate. unfold recent_fires. rewrite Hcut. cbn [rbind].
  destruct data as [|d0 data]; [destruct Hin|].
  destruct (forallb undated (d0 :: data)) eqn:E; [|reflexivity].
  rewrite forallb_forall in E. specialize (E d Hin).
  unfold undated in E. now rewrite Hdate in E.
Qed.

(** C4. The recency filter looks at calendar dates only.  A detection dated
    exactly [days] days before the current UTC date is kept, one dated a day
    earlier is not, and the time of day of the clock plays no part. *)
Theorem recency_boundary (now : timestamp) (days : Z) (data : list Detection.t)
    (d : Detection.t) (t : timestamp) :
  valid_date (ts_day now) -> valid_date (ts_day t) ->
  In d data -> Detection.acq_date d = Some t ->
  (ts_day t = ts_day now - days ->
     exists recent, recent_fires now days data = Ok recent /\ In d recent)
  /\ (ts_day t = ts_day now - days - 1 ->
        forall recent, recent_fires now days data = Ok recent -> ~ In d recent)
  /\ (forall nanos,
        recent_fires {| ts_day := ts_day now; ts_nanos := nanos |} days data
        = recent_fires now days data).
Proof.
  intros Hnow Ht Hin Hdate. split; [|split].
  - intros Heq.
    eexists; split.
    + eapply recent_fires_dated; [|exact Hin|exact Hdate].
      apply minus_days_ok; [|rewrite <- Heq]; assumption.
    + apply List.filter_In. split; [assumption|].
      unfold on_or_after. rewrite Hdate. apply Z.leb_le. simpl. lia.
  - intros Heq recent Hrecent Hkept.
    apply recent_fires_spec in Hrecent. subst recent.
    apply List.filter_In in Hkept as [_ Hkept].
    unfold on_or_after in Hkept. rewrite Hdate in Hkept. apply Z.leb_le in Hkept. lia.
  - intros nanos. unfold recent_fires, minus_days. simpl.
    destruct (_ <? _); [reflexivity|]. destruct (valid_ordinal _); reflexivity.
Qed.

(** On the boundary: a detection of 2025-10-27 under a clock reading of
    2026-01-25, 23:00, and a window of 90 days. *)
Lemma recency_boundary_witness :
  valid_date (ts_day sample_now)
  /\ valid_date 739551
  /\ In sample_detection [sample_detection]
  /\ exists recent,
       recent_fires sample_now 90 [sample_detection] = Ok recent
       /\ In sample_detection recent.
Proof.
  assert (H1 : valid_date (ts_day sample_now)) by (unfold valid_date; simpl; lia).
  assert (H2 : valid_date 739551) by (unfold valid_date; lia).
  assert (H3 : In sample_detection [sample_detection]) by (left; reflexivity).
  repeat (split; [assumption|]).
  exact (proj1 (recency_boundary sample_now 90 [sample_detection] sample_detection
                  {| ts_day := 739551; ts_nanos := 0 |} H1 H2 H3 eq_refl) eq_refl).
Defined.

(** ** C7: nothing to export *)

(** C7. No input is not an error.  The fire exporter returns the empty list
    when the source has no table or an empty one, and when no detection is
    left by the recency filter; the earthquake exporter returns the empty list
    when the source answers no record. *)
Theorem nothing_to_export `{PyRuntime} (now : timestamp) (days : Z) :
  export_fire_events now None days = Ok []
  /\ export_fire_events now (Some []) days = Ok []
  /\ (forall data,
        recent_fires now days data = Ok [] ->
        export_fire_events now (Some data) days = Ok [])
  /\ (forall start query min_magnitude,
        minus_days now days = Ok start ->
        query (ts_day start) (ts_day now) min_magnitude = Ok (Some [])
        \/ query (ts_day start) (ts_day now) min_magnitude = Ok None ->
        export_earthquake_events now query days min_magnitude = Ok []).
Proof.
  repeat split.
  - intros data Hrecent. unfold export_fire_events.
    destruct data; [reflexivity|]. now rewrite Hrecent.
  - intros start query min_magnitude Hstart Hquery.
    unfold export_earthquake_events. rewrite Hstart. simpl.
    destruct Hquery as [-> | ->]; reflexivity.
Qed.

(** A detection too old for the window and a source without earthquakes. *)
Lemma nothing_to_export_witness :
  recent_fires sample_now 30 [sample_detection] = Ok []
  /\ export_fire_events sample_now (Some [sample_detection]) 30 = Ok []
  /\ minus_days sample_now 30 = Ok {| ts_day := 739611; ts_nanos := 82800000000000 |}
  /\ export_earthquake_events sample_now (sample_query []) 30 (Z2F 3) = Ok [].
Proof.
  pose proof (nothing_to_export sample_now 30) as (_ & _ & Hfire & Hquake).
  assert (H1 : recent_fires sample_now 30 [sample_detection] = Ok []) by reflexivity.
  assert (H2 : minus_days sample_now 30
               = Ok {| ts_day := 739611; ts_nanos := 82800000000000 |}) by reflexivity.
  split; [exact H1|]. split; [exact (Hfire _ H1)|]. split; [exact H2|].
  exact (Hquake _ (sample_query []) (Z2F 3) H2 (or_introl eq_refl)).
Defined.

(** ** Running extrema *)

Section RunningExtremum.
Context {A : Type} (before : A -> A -> bool).
Hypothesis before_irrefl : forall x, before x x = false.
Hypothesis before_trans :
  forall x y z, before x y = true -> before y z = true -> before x z = true.

(** The outcome of a scan is the start or an item, nothing scanned comes
    before it, and nothing that did not come before the start does. *)
Lemma fold_keep_first (vs : list A) : forall acc,
  let r := fold_left (keep_first before) vs acc in
  (r = acc \/ In r vs)
  /\ (forall y, before y acc = false -> before y r = false)
  /\ (forall y, In y vs -> before y r = false).
Proof.
  induction vs as [|item vs IH]; intros acc; simpl.
  - repeat split; auto. intros y [].
  - destruct (IH (keep_first before acc item)) as (Hin & Hle & Hall).
    assert (Hstep : forall y, before y acc = false ->
                              before y (keep_first before acc item) = false).
    { intros y Hy. unfold keep_first. destruct (before item acc) eqn:E; [|assumption].
      destruct (before y item) eqn:E'; [|reflexivity].
      rewrite (before_trans _ _ _ E' E) in Hy. discriminate. }
    assert (Hitem : before item (keep_first before acc item) = false).
    { unfold keep_first. destruct (before item acc) eqn:E; [apply before_irrefl | exact E]. }
    repeat split.
    + destruct Hin as [-> | Hin]; [|auto].
      unfold keep_first. destruct (before item acc); auto.
    + auto.
    + intros y [<- | Hy]; auto.
Qed.

(** Scanning a list from its head yields a member that nothing in the list
    comes before. *)
Lemma fold_keep_first_head (v : A) (vs : list A) :
  let r := fold_left (keep_first before) vs v in
  In r (v :: vs) /\ forall y, In y (v :: vs) -> before y r = false.
Proof.
  destruct (fold_keep_first vs v) as (Hin & Hle & Hall). simpl. split.
  - destruct Hin as [-> | Hin]; auto.
  - intros y [<- | Hy]; auto.
Qed.
End RunningExtremum.

Lemma f_gtb_irrefl x : f_gtb x x = false.
Proof. apply f_ltb_irrefl. Qed.

Lemma f_gtb_trans x y z : f_gtb x y = true -> f_gtb y z = true -> f_gtb x z = true.
Proof. unfold f_gtb. eauto using f_ltb_trans. Qed.

Lemma py_min_least v vs d : least_of (v :: vs) (py_min (v :: vs) d).
Proof.
  destruct (fold_keep_first_head f_ltb f_ltb_irrefl f_ltb_trans v vs) as [Hin Hall].
  eexists; split; [reflexivity|]. split; assumption.
Qed.

Lemma py_max_greatest v vs d : greatest_of (v :: vs) (py_max (v :: vs) d).
Proof.
  destruct (fold_keep_first_head f_gtb f_gtb_irrefl f_gtb_trans v vs) as [Hin Hall].
  eexists; split; [reflexivity|]. split; [assumption|]. exact Hall.
Qed.

(** ** Rounding to decimals *)

Lemma round_half_even_nearest n d : 0 < d -> nearest_to n d (round_half_even n d).
Proof.
  intros Hd. unfold nearest_to, round_half_even.
  pose proof (Z.div_mod n d ltac:(lia)) as Hdm.
  pose proof (Z.mod_pos_bound n d Hd) as Hr.
  set (q := n / d) in *. set (r := n mod d) in *.
  destruct (Z.compare_spec (2 * r) d) as [E|E|E].
  - destruct (Z.even q) eqn:Eq.
    + split; [lia|intros _; exact Eq].
    + split; [lia|intros _]. rewrite Z.even_add, Eq. reflexivity.
  - split; [lia|intros; lia].
  - split; [lia|intros; lia].
Qed.

(** [round(x, ndigits)] is the float of the decimal of [ndigits] places
    nearest to [x]. *)
Lemma py_round_rounds x ndigits : rounds_to ndigits x (py_round x ndigits).
Proof.
  destruct x as [s|s| |s m e]; simpl; try reflexivity.
  exists (scaled_magnitude m e ndigits). split; [|reflexivity].
  destruct e as [|e|p]; simpl; try reflexivity.
  apply round_half_even_nearest. apply Z.pow_pos_nonneg; lia.
Qed.

(** ** C5: the earthquake normalizer *)

Lemma rounded_field_get quake k ndigits :
  In k numeric_keys -> well_formed quake ->
  exists x, py_float (dict_get quake k (VInt 0)) = Ok x
            /\ rounded_field (quake !! k) ndigits (py_round x ndigits).
Proof.
  intros Hk Hwf. unfold dict_get, rounded_field.
  destruct (quake !! k) as [v|] eqn:E; simpl.
  - destruct (Hwf k v Hk E) as [x Hx]. eauto using py_round_rounds.
  - exists (Z2F 0). split; reflexivity.
Qed.

Lemma defaulted_field_get quake k d : defaulted_field (quake !! k) d (dict_get quake k d).
Proof. unfold dict_get, defaulted_field. destruct (quake !! k); reflexivity. Qed.

Lemma quake_of_raw_normalizes quake :
  well_formed quake -> exists r, quake_of_raw quake = Ok r /\ normalizes quake r.
Proof.
  intros Hwf. unfold quake_of_raw.
  destruct (rounded_field_get quake "latitude" 4) as (lat & -> & Hlat); [simpl; tauto | assumption|].
  destruct (rounded_field_get quake "longitude" 4) as (lon & -> & Hlon); [simpl; tauto | assumption|].
  destruct (rounded_field_get quake "mag" 1) as (mag & -> & Hmag); [simpl; tauto | assumption|].
  destruct (rounded_field_get quake "depth_km" 1) as (dep & -> & Hdep); [simpl; tauto | assumption|].
  simpl. eexists; split; [reflexivity|].
  unfold normalizes; simpl. repeat split; auto using defaulted_field_get.
Qed.

Lemma rmap_quakes quakes :
  Forall well_formed quakes ->
  exists records, rmap quake_of_raw quakes = Ok records /\ Forall2 normalizes quakes records.
Proof.
  induction 1 as [|quake quakes Hwf _ (records & Hrs & Hall)]; simpl.
  - exists []. split; [reflexivity | constructor].
  - destruct (quake_of_raw_normalizes quake Hwf) as (r & -> & Hr). simpl.
    rewrite Hrs. simpl. exists (r :: records). split; [reflexivity | now constructor].
Qed.

(** C5 (as amended). Whatever the raw records the source answers, none
    included, as long as each latitude, longitude, magnitude and depth they
    carry is a value [float()] accepts, the normalizer returns one record per
    raw record, in the same order: an absent latitude or longitude is 0.0 and
    a present one is rounded to 4 decimals, an absent magnitude or depth is
    0.0 and a present one is rounded to 1 decimal (each to the nearest
    decimal, the even one of two); an absent place is "Unknown", an absent
    type is "earthquake", an absent time is the empty string, and a place, a
    type or a time that is present passes through as it is, null included. *)
Theorem earthquakes_normalized (now start : timestamp) (days : Z) (query : usgs_query)
    (min_magnitude : float) (quakes : list (gmap string pyval)) :
  minus_days now days = Ok start ->
  query (ts_day start) (ts_day now) min_magnitude = Ok (Some quakes) ->
  Forall well_formed quakes ->
  exists records,
    export_earthquake_events now query days min_magnitude = Ok records
    /\ Forall2 normalizes quakes records.
Proof.
  intros Hstart Hquery Hwf. unfold export_earthquake_events.
  rewrite Hstart. simpl. rewrite Hquery. simpl.
  destruct quakes as [|quake quakes].
  - exists []. split; [reflexivity | constructor].
  - now apply rmap_quakes.
Qed.

Lemma sample_quake_well_formed : well_formed (sample_quake (VStr "3.1")).
Proof.
  intros k v Hk Hv. unfold sample_quake in Hv.
  simpl in Hk. destruct Hk as [<- | [<- | [<- | [<- | []]]]];
    vm_compute in Hv; try discriminate; injection Hv as <-; eexists; vm_compute; reflexivity.
Qed.

(** One raw record without depth, place or type, whose magnitude is spelled
    as a string. *)
Lemma earthquakes_normalized_witness :
  minus_days sample_now 90 = Ok {| ts_day := 739551; ts_nanos := 82800000000000 |}
  /\ Forall well_formed [sample_quake (VStr "3.1")]
  /\ exists records,
       export_earthquake_events sample_now (sample_query [sample_quake (VStr "3.1")])
         90 (Z2F 3) = Ok records
       /\ Forall2 normalizes [sample_quake (VStr "3.1")] records.
Proof.
  assert (H1 : minus_days sample_now 90
               = Ok {| ts_day := 739551; ts_nanos := 82800000000000 |}) by reflexivity.
  assert (H2 : Forall well_formed [sample_quake (VStr "3.1")])
    by (repeat constructor; apply sample_quake_well_formed).
  split; [exact H1|]. split; [exact H2|].
  exact (earthquakes_normalized sample_now _ 90 (sample_query [sample_quake (VStr "3.1")])
           (Z2F 3) _ H1 eq_refl H2).
Defined.

(** C5 as it is stated fails: a place that is present and null passes
    through as it is and is not replaced by "Unknown"; and a raw record whose
    magnitude is present and null gets no record at all. *)
Lemma earthquake_claim_fails :
  (exists r,
      quake_of_raw (<["place"%string := VNone]> (sample_quake (VInt 3))) = Ok r
      /\ Quake.place r = VNone)
  /\ export_earthquake_events sample_now (sample_query [sample_quake VNone]) 90 (Z2F 3)
     = Raise TypeError.
Proof.
  split; [eexists; split; [vm_compute; reflexivity | reflexivity] | vm_compute; reflexivity].
Qed.

Example earthquake_defaults :
  export_earthquake_events sample_now (sample_query [sample_quake (VStr "3.1")]) 90 (Z2F 3)
  = Ok [ {| Quake.lat := float_of_decimal false 351235 (-4);
            Quake.lon := Z2F (-118);
            Quake.date := VStr "2026-01-20T10:00:00Z";
            Quake.magnitude := float_of_decimal false 31 (-1);
            Quake.depth := S754_zero false;
            Quake.place := VStr "Unknown";
            Quake.type := VStr "earthquake" |} ].
Proof. vm_compute. reflexivity. Qed.

(** ** C8: malformed fields *)

(** C8 does not hold of the code.  A raw earthquake whose magnitude is null,
    or is a string that spells no number, makes the normalizer raise instead
    of taking the default; and a detection whose confidence is an integer too
    large for a float makes the fire exporter raise. *)
Theorem malformed_field_aborts :
  export_earthquake_events sample_now (sample_query [sample_quake VNone]) 90 (Z2F 3)
  = Raise TypeError
  /\ export_earthquake_events sample_now (sample_query [sample_quake (VStr "n/a")]) 90 (Z2F 3)
     = Raise ValueError
  /\ export_fire_events sample_now
       (Some [ {| Detection.latitude := Detection.latitude sample_detection;
                  Detection.longitude := Detection.longitude sample_detection;
                  Detection.acq_date := Detection.acq_date sample_detection;
                  Detection.brightness := Detection.brightness sample_detection;
                  Detection.frp := Detection.frp sample_detection;
                  Detection.confidence := VInt (10 ^ 400) |} ]) 90
     = Raise OverflowError.
Proof. repeat split; vm_compute; reflexivity. Qed.

(** ** C6: the statistics of the document *)

Lemma statistics_fire_range fires earthquakes :
  range_of (map Fire.brightness fires)
    (Statistics.fire_brightness_range (statistics_of fires earthquakes)).
Proof.
  destruct fires as [|f fires]; simpl; [reflexivity|].
  split; [apply (py_min_least _ _ (VInt 0)) | apply (py_max_greatest _ _ (VInt 0))].
Qed.

Lemma statistics_magnitude_range fires earthquakes :
  range_of (map Quake.magnitude earthquakes)
    (Statistics.earthquake_magnitude_range (statistics_of fires earthquakes)).
Proof.
  destruct earthquakes as [|q earthquakes]; simpl; [reflexivity|].
  split; [apply (py_min_least _ _ (VInt 0)) | apply (py_max_greatest _ _ (VInt 0))].
Qed.

Lemma main_statistics `{PyRuntime} cfg firms_data query t_fires t_quakes t_range t_stamp doc :
  main cfg firms_data query t_fires t_quakes t_range t_stamp = Ok doc ->
  Output.statistics doc = statistics_of (Output.fires doc) (Output.earthquakes doc).
Proof.
  unfold main.
  destruct (export_fire_events _ _ _) as [fires|]; [|discriminate]. simpl.
  destruct (export_earthquake_events _ _ _ _) as [earthquakes|]; [|discriminate]. simpl.
  destruct (minus_days _ _) as [start|]; [|discriminate]. simpl.
  now intros [= <-].
Qed.

(** C6. In every document [main] assembles, each range of the statistics is
    taken over the records of that same document: the brightness range over
    its fire records and the magnitude range over its earthquake records.  The
    minimum and the maximum are members of the list that no member compares
    below, respectively above; without records the range is {min: 0, max: 0}. *)
Theorem statistics_cover_the_document `{PyRuntime}
    (cfg : Config.t) (firms_data : option (list Detection.t)) (query : usgs_query)
    (t_fires t_quakes t_range t_stamp : timestamp) (doc : Output.t) :
  main cfg firms_data query t_fires t_quakes t_range t_stamp = Ok doc ->
  range_of (map Fire.brightness (Output.fires doc))
    (Statistics.fire_brightness_range (Output.statistics doc))
  /\ range_of (map Quake.magnitude (Output.earthquakes doc))
       (Statistics.earthquake_magnitude_range (Output.statistics doc)).
Proof.
  intros Hdoc. rewrite (main_statistics _ _ _ _ _ _ _ _ Hdoc).
  split; [apply statistics_fire_range | apply statistics_magnitude_range].
Qed.

(** Two earthquakes of magnitudes 3.1 and 5.8, and no fire. *)
Lemma statistics_cover_the_document_witness :
  main sample_config None sample_quakes sample_now sample_now sample_now sample_now
  = Ok sample_document
  /\ range_of [] {| Range.min := VInt 0; Range.max := VInt 0 |}
  /\ range_of [float_of_decimal false 31 (-1); float_of_decimal false 58 (-1)]
       {| Range.min := VFloat (float_of_decimal false 31 (-1));
          Range.max := VFloat (float_of_decimal false 58 (-1)) |}.
Proof.
  assert (Hrun : main sample_config None sample_quakes
                   sample_now sample_now sample_now sample_now = Ok sample_document)
    by (vm_compute; reflexivity).
  split; [exact Hrun|].
  exact (statistics_cover_the_document _ _ _ _ _ _ _ _ Hrun).
Defined.

(** ** Cell keys *)

Lemma key_eqb_sym a b : key_eqb a b = key_eqb b a.
Proof. unfold key_eqb. now rewrite (f_eqb_sym (fst a)), (f_eqb_sym (snd a)). Qed.

Lemma key_eqb_trans a b c : key_eqb a b = true -> key_eqb b c = true -> key_eqb a c = true.
Proof.
  unfold key_eqb. intros [H1 H2]%andb_prop [H3 H4]%andb_prop.
  apply andb_true_intro; split; eauto using f_eqb_trans.
Qed.

Lemma key_eqb_refl a : key_isna a = false -> key_eqb a a = true.
Proof.
  unfold key_isna, key_eqb. intros [H1 H2]%orb_false_elim.
  now rewrite !f_eqb_refl.
Qed.

Lemma key_eqb_notna a b : key_eqb a b = true -> key_isna a = false /\ key_isna b = false.
Proof.
  unfold key_eqb, key_isna. intros [H1 H2]%andb_prop.
  apply f_eqb_notna in H1 as [-> ->], H2 as [-> ->]. split; reflexivity.
Qed.

(** Equal keys select the same rows. *)
Lemma key_eqb_same a b c : key_eqb a b = true -> key_eqb a c = key_eqb b c.
Proof.
  intros Hab. destruct (key_eqb b c) eqn:E.
  - eauto using key_eqb_trans.
  - destruct (key_eqb a c) eqn:E'; [|reflexivity].
    rewrite key_eqb_sym in Hab. rewrite (key_eqb_trans _ _ _ Hab E') in E. discriminate.
Qed.

(** ** Grouping *)

Lemma distinct_keys_snoc ks k :
  distinct_keys ks -> Forall (fun k' => key_eqb k' k = false) ks -> distinct_keys (ks ++ [k]).
Proof.
  induction ks as [|k0 ks IH]; simpl.
  - intros _ _. split; [constructor | exact I].
  - intros [Hk0 Hks] Hall. inversion Hall as [|? ? Hk Hall']; subst. split.
    + apply Forall_app. split; [assumption | now constructor].
    + now apply IH.
Qed.

Lemma distinct_keys_same (gs : list group) g g' :
  distinct_keys (map fst gs) -> In g gs -> In g' gs ->
  key_eqb (fst g) (fst g') = true -> g = g'.
Proof.
  induction gs as [|g0 gs IH]; simpl; [intros _ []|].
  intros [Hg0 Hgs] [<- | Hg] [<- | Hg'] Heq; auto.
  - rewrite List.Forall_forall in Hg0.
    rewrite (Hg0 (fst g') (in_map fst _ _ Hg')) in Heq. discriminate.
  - rewrite List.Forall_forall in Hg0. rewrite key_eqb_sym in Heq.
    rewrite (Hg0 (fst g) (in_map fst _ _ Hg)) in Heq. discriminate.
Qed.

(** Where a row lands: in the first group of its key, or in a new last group
    when no group has its key. *)
Lemma group_insert_cases r gs :
  (exists gs1 k ms gs2,
      gs = gs1 ++ (k, ms) :: gs2
      /\ key_eqb k (row_key r) = true
      /\ Forall (fun g => key_eqb (fst g) (row_key r) = false) gs1
      /\ group_insert r gs = gs1 ++ (k, ms ++ [r]) :: gs2)
  \/ (Forall (fun g => key_eqb (fst g) (row_key r) = false) gs
      /\ group_insert r gs = gs ++ [(row_key r, [r])]).
Proof.
  induction gs as [|[k ms] gs IH]; simpl.
  - right. split; [constructor | reflexivity].
  - destruct (key_eqb k (row_key r)) eqn:E.
    + left. exists [], k, ms, gs. repeat split; auto.
    + destruct IH as [(gs1 & k' & ms' & gs2 & -> & Hk & Hgs1 & ->) | [Hall ->]].
      * left. exists ((k, ms) :: gs1), k', ms', gs2. repeat split; auto.
      * right. split; [now constructor | reflexivity].
Qed.

Lemma filter_snoc {A} (p : A -> bool) l x :
  List.filter p (l ++ [x]) = List.filter p l ++ (if p x then [x] else []).
Proof. rewrite List.filter_app. reflexivity. Qed.

Lemma group_insert_grouped r gs rows :
  key_isna (row_key r) = false ->
  grouped gs rows -> grouped (group_insert r gs) (rows ++ [r]).
Proof.
  intros Hr [Hmem Hne Hdist Hcov].
  destruct (group_insert_cases r gs)
    as [(gs1 & k & ms & gs2 & -> & Hk & Hgs1 & ->) | [Hall ->]].
  - assert (Hother : forall g, In g gs1 \/ In g gs2 -> key_eqb (fst g) (row_key r) = false).
    { intros g [Hg | Hg].
      - rewrite List.Forall_forall in Hgs1. auto.
      - destruct (key_eqb (fst g) (row_key r)) eqn:E; [|reflexivity].
        assert (g = (k, ms)) as ->.
        { apply (distinct_keys_same _ _ _ Hdist).
          - apply in_or_app. right. now right.
          - apply in_or_app. right. now left.
          - simpl. rewrite key_eqb_sym in Hk. eauto using key_eqb_trans. }
        exfalso. clear - Hdist Hg Hk.
        rewrite map_app in Hdist. simpl in Hdist.
        induction gs1 as [|g1 gs1 IH]; simpl in Hdist.
        + destruct Hdist as [Hk' _]. rewrite List.Forall_forall in Hk'.
          specialize (Hk' k (in_map fst _ _ Hg)). simpl in Hk'.
          apply key_eqb_notna in Hk as [Hk _]. rewrite key_eqb_refl in Hk'; congruence.
        + apply IH. tauto. }
    constructor.
    + intros g Hg. rewrite filter_snoc.
      apply in_app_or in Hg as [Hg | [<- | Hg]].
      * rewrite (Hother g) by auto. rewrite app_nil_r.
        apply Hmem, in_or_app. now left.
      * simpl. rewrite Hk.
        rewrite (Hmem (k, ms)) at 1 by (apply in_or_app; right; now left). reflexivity.
      * rewrite (Hother g) by auto. rewrite app_nil_r.
        apply Hmem, in_or_app. right. now right.
    + intros g Hg. apply in_app_or in Hg as [Hg | [<- | Hg]].
      * apply Hne, in_or_app. now left.
      * simpl. now destruct ms.
      * apply Hne, in_or_app. right. now right.
    + rewrite map_app in *. exact Hdist.
    + intros r' Hr'. apply in_app_or in Hr' as [Hr' | [<- | []]].
      * destruct (Hcov r' Hr') as (g & Hg & Hkg).
        apply in_app_or in Hg as [Hg | [<- | Hg]].
        -- exists g. split; [apply in_or_app; now left | assumption].
        -- exists (k, ms ++ [r]). split; [apply in_or_app; right; now left | assumption].
        -- exists g. split; [apply in_or_app; right; now right | assumption].
      * exists (k, ms ++ [r]). split; [apply in_or_app; right; now left | assumption].
  - rewrite List.Forall_forall in Hall. constructor.
    + intros g Hg. rewrite filter_snoc.
      apply in_app_or in Hg as [Hg | [<- | []]].
      * rewrite (Hall g Hg), app_nil_r. now apply Hmem.
      * simpl. rewrite key_eqb_refl by assumption.
        replace (List.filter _ rows) with (@nil grid_row); [reflexivity|].
        symmetry. clear - Hcov Hall Hr. induction rows as [|r' rows IH]; [reflexivity|].
        simpl. destruct (Hcov r' (or_introl eq_refl)) as (g & Hg & Hkg).
        destruct (key_eqb (row_key r) (row_key r')) eqn:E.
        -- rewrite key_eqb_sym in E. pose proof (Hall g Hg) as Hf.
           rewrite (key_eqb_trans _ _ _ Hkg E) in Hf. discriminate.
        -- apply IH. intros r'' Hr''. apply Hcov. now right.
    + intros g Hg. apply in_app_or in Hg as [Hg | [<- | []]]; [auto | discriminate].
    + rewrite map_app. simpl. apply distinct_keys_snoc; [assumption|].
      apply List.Forall_forall. intros k' (g & <- & Hg)%in_map_iff. auto.
    + intros r' Hr'. apply in_app_or in Hr' as [Hr' | [<- | []]].
      * destruct (Hcov r' Hr') as (g & Hg & Hkg).
        exists g. split; [apply in_or_app; now left | assumption].
      * exists (row_key r, [r]). split; [apply in_or_app; right; now left|].
        simpl. now apply key_eqb_refl.
Qed.

Lemma grouped_nil : grouped [] [].
Proof. constructor; simpl; tauto. Qed.

Lemma fold_group_insert_grouped rows : forall gs seen,
  Forall (fun r => key_isna (row_key r) = false) rows ->
  grouped gs seen ->
  grouped (fold_left (fun gs r => group_insert r gs) rows gs) (seen ++ rows).
Proof.
  induction rows as [|r rows IH]; intros gs seen Hrows Hgs; simpl.
  - now rewrite app_nil_r.
  - inversion Hrows as [|? ? Hr Hrows']; subst.
    replace (seen ++ r :: rows) with ((seen ++ [r]) ++ rows)
      by (rewrite <- app_assoc; reflexivity).
    apply IH; [assumption|]. now apply group_insert_grouped.
Qed.

Lemma group_rows_grouped rows :
  Forall (fun r => key_isna (row_key r) = false) rows -> grouped (group_rows rows) rows.
Proof. intros Hrows. apply (fold_group_insert_grouped rows [] [] Hrows grouped_nil). Qed.

Lemma total_group_insert r gs : total_members (group_insert r gs) = S (total_members gs).
Proof.
  induction gs as [|[k ms] gs IH]; simpl; [reflexivity|].
  destruct (key_eqb k (row_key r)); simpl.
  - rewrite length_app. simpl. lia.
  - rewrite IH. lia.
Qed.

Lemma total_group_rows rows : total_members (group_rows rows) = length rows.
Proof.
  unfold group_rows.
  assert (H : forall gs, total_members (fold_left (fun gs r => group_insert r gs) rows gs)
                         = (total_members gs + length rows)%nat).
  { induction rows as [|r rows IH]; intros gs; simpl; [lia|].
    rewrite IH, total_group_insert. lia. }
  apply H.
Qed.

Lemma In_sorted_insert g gs x : In x (sorted_insert g gs) <-> x = g \/ In x gs.
Proof.
  induction gs as [|g' gs IH]; simpl; [intuition congruence|].
  destruct (key_ltb (fst g) (fst g')); simpl; [intuition congruence|].
  rewrite IH. intuition congruence.
Qed.

Lemma In_sort_groups gs x : In x (sort_groups gs) <-> In x gs.
Proof.
  induction gs as [|g gs IH]; simpl; [tauto|].
  rewrite In_sorted_insert, IH. intuition congruence.
Qed.

Lemma total_sorted_insert g gs :
  total_members (sorted_insert g gs) = (length (snd g) + total_members gs)%nat.
Proof.
  induction gs as [|g' gs IH]; simpl; [reflexivity|].
  destruct (key_ltb (fst g) (fst g')); simpl; [reflexivity|]. rewrite IH. lia.
Qed.

Lemma total_sort_groups gs : total_members (sort_groups gs) = total_members gs.
Proof.
  induction gs as [|g gs IH]; simpl; [reflexivity|].
  now rewrite total_sorted_insert, IH.
Qed.

(** *** What [groupby] returns *)

Lemma Forall_filter_keyed rows :
  Forall (fun r => key_isna (row_key r) = false)
    (List.filter (fun r => negb (key_isna (row_key r))) rows).
Proof.
  apply List.Forall_forall. intros r [_ Hr]%List.filter_In.
  now apply negb_true_iff in Hr.
Qed.

Lemma filter_filter_keyed k rows :
  List.filter (fun r => key_eqb k (row_key r))
    (List.filter (fun r => negb (key_isna (row_key r))) rows)
  = List.filter (fun r => key_eqb k (row_key r)) rows.
Proof.
  induction rows as [|r rows IH]; simpl; [reflexivity|].
  destruct (key_isna (row_key r)) eqn:E; simpl.
  - destruct (key_eqb k (row_key r)) eqn:E'; [|assumption].
    apply key_eqb_notna in E' as [_ E']. congruence.
  - now rewrite IH.
Qed.

(** A group of [groupby] is not empty and holds exactly the rows of its key. *)
Lemma groupby_members rows g :
  In g (groupby rows) ->
  snd g <> [] /\ snd g = List.filter (fun r => key_eqb (fst g) (row_key r)) rows.
Proof.
  unfold groupby. rewrite In_sort_groups. intros Hg.
  destruct (group_rows_grouped _ (Forall_filter_keyed rows)) as [Hmem Hne _ _].
  split; [auto|]. rewrite (Hmem g Hg). apply filter_filter_keyed.
Qed.

(** Every row with a key has its group. *)
Lemma groupby_cover rows r :
  In r rows -> key_isna (row_key r) = false ->
  exists g, In g (groupby rows) /\ key_eqb (fst g) (row_key r) = true /\ In r (snd g).
Proof.
  intros Hr Hkey.
  destruct (group_rows_grouped _ (Forall_filter_keyed rows)) as [_ _ _ Hcov].
  destruct (Hcov r) as (g & Hg & Hk).
  { apply List.filter_In. split; [assumption | now rewrite Hkey]. }
  assert (Hg' : In g (groupby rows)) by (unfold groupby; now apply In_sort_groups).
  exists g. repeat split; try assumption.
  destruct (groupby_members rows g Hg') as [_ ->].
  apply List.filter_In. auto.
Qed.

(** Two groups that share a row are one group. *)
Lemma groupby_unique rows g g' r :
  In g (groupby rows) -> In g' (groupby rows) ->
  In r (snd g) -> In r (snd g') -> g = g'.
Proof.
  intros Hg Hg' Hr Hr'.
  destruct (groupby_members rows g Hg) as [_ Hm].
  destruct (groupby_members rows g' Hg') as [_ Hm'].
  rewrite Hm in Hr. rewrite Hm' in Hr'.
  apply List.filter_In in Hr as [_ Hk], Hr' as [_ Hk'].
  destruct (group_rows_grouped _ (Forall_filter_keyed rows)) as [_ _ Hdist _].
  unfold groupby in Hg, Hg'. rewrite In_sort_groups in Hg, Hg'.
  apply (distinct_keys_same _ _ _ Hdist Hg Hg').
  rewrite key_eqb_sym in Hk'. eauto using key_eqb_trans.
Qed.

Lemma groupby_total rows :
  total_members (groupby rows)
  = length (List.filter (fun r => negb (key_isna (row_key r))) rows).
Proof. unfold groupby. now rewrite total_sort_groups, total_group_rows. Qed.

(** ** The grid snap never invents a NaN *)

Lemma shr_m_nonneg mrs e n : 0 <= shr_m mrs -> 0 <= shr_m (fst (shr mrs e n)).
Proof.
  intros Hm. unfold shr. destruct n as [|p|p]; simpl; try assumption.
  rewrite iter_shr_1_m by assumption. apply Z.div_pos; [assumption|].
  apply Z.pow_pos_nonneg; lia.
Qed.

Lemma shr_fexp_nonneg m e l : 0 <= m -> 0 <= shr_m (fst (shr_fexp prec emax m e l)).
Proof.
  intros Hm. unfold shr_fexp. apply shr_m_nonneg. destruct l as [|[]]; assumption.
Qed.

Lemma binary_round_aux_notna s m e l :
  0 <= m -> is_nan (binary_round_aux prec emax s m e l) = false.
Proof.
  intros Hm. unfold binary_round_aux.
  pose proof (shr_fexp_nonneg m e l Hm) as H1.
  destruct (shr_fexp prec emax m e l) as [mrs' e']. simpl in H1.
  pose proof (round_nearest_even_ge (shr_m mrs') (loc_of_shr_record mrs')) as Hr.
  pose proof (shr_fexp_nonneg (round_nearest_even (shr_m mrs') (loc_of_shr_record mrs'))
                e' loc_Exact ltac:(lia)) as H2.
  destruct (shr_fexp prec emax _ e' loc_Exact) as [mrs'' e'']. simpl in H2.
  destruct (shr_m mrs''); try reflexivity; [|lia].
  destruct (e'' <=? emax - prec); reflexivity.
Qed.

Lemma binary_normalize_notna m e s : is_nan (binary_normalize prec emax m e s) = false.
Proof.
  destruct m; simpl; [reflexivity | |];
    unfold binary_round; destruct (shl_align _ _ _); apply binary_round_aux_notna; lia.
Qed.

Lemma f_mul_ten_notna x : is_nan (f_mul x (Z2F 10)) = is_nan x.
Proof.
  destruct x as [s|s| |s m e]; try reflexivity.
  change (Z2F 10) with (S754_finite false 5629499534213120 (-49)).
  unfold f_mul, SFmul. apply binary_round_aux_notna. lia.
Qed.

Lemma np_round_notna x : is_nan (np_round x) = is_nan x.
Proof.
  destruct x as [s|s| |s m e]; try reflexivity.
  unfold np_round. destruct (scaled_magnitude m e 0); simpl is_nan at 2;
    [reflexivity | |]; apply binary_normalize_notna.
Qed.

Lemma f_div_ten_notna x : is_nan (f_div x (Z2F 10)) = is_nan x.
Proof.
  destruct x as [s|s| |s m e]; try reflexivity.
  change (Z2F 10) with (S754_finite false 5629499534213120 (-49)).
  unfold f_div, SFdiv.
  destruct (SFdiv_core_binary _ _ _ _ _ _) as [[mz ez] lz] eqn:E.
  apply binary_round_aux_notna.
  unfold SFdiv_core_binary in E.
  set (m' := match _ with Z0 => _ | Zpos _ => _ | Zneg _ => _ end) in E.
  assert (Hm' : 0 <= m').
  { subst m'. destruct (_ - _ - _); try lia. apply Z.shiftl_nonneg. lia. }
  pose proof (Z_div_mod m' 5629499534213120 ltac:(lia)) as Hdm.
  destruct (Z.div_eucl m' 5629499534213120) as [q r]. injection E as <- _ _. nia.
Qed.

(** The snapped coordinate is null exactly when the coordinate is. *)
Lemma snap_notna x : is_nan (snap x) = is_nan x.
Proof. unfold snap. now rewrite f_div_ten_notna, np_round_notna, f_mul_ten_notna. Qed.

(** ** The steps of the fire exporter *)

Lemma rmap_Forall2 {A B} (f : A -> result B) l l' :
  rmap f l = Ok l' -> Forall2 (fun x y => f x = Ok y) l l'.
Proof.
  revert l'. induction l as [|x l IH]; simpl; intros l'.
  - intros [= <-]. constructor.
  - destruct (f x) as [y|] eqn:E; [|discriminate]. simpl.
    destruct (rmap f l) as [ys|]; [|discriminate]. simpl.
    intros [= <-]. constructor; auto.
Qed.

Lemma add_columns_spec d r :
  add_columns d = Ok r ->
  det r = d /\ row_key r = cell_of d
  /\ _confidence_rank (Detection.confidence d) = Ok (confidence_rank r).
Proof.
  unfold add_columns.
  destruct (_confidence_rank _) as [rank|]; [|discriminate]. simpl.
  intros [= <-]. repeat split.
Qed.

Lemma rows_spec recent rows :
  rmap add_columns recent = Ok rows ->
  map det rows = recent
  /\ forall r, In r rows ->
       In (det r) recent /\ row_key r = cell_of (det r)
       /\ _confidence_rank (Detection.confidence (det r)) = Ok (confidence_rank r).
Proof.
  intros H%rmap_Forall2. induction H as [|d r recent rows Hr _ [IH1 IH2]]; simpl.
  - split; [reflexivity | intros r []].
  - apply add_columns_spec in Hr as (Hd & Hk & Hc). split; [congruence|].
    intros r' [<- | Hr'].
    + rewrite Hd. auto.
    + destruct (IH2 r' Hr') as (? & ? & ?). auto.
Qed.

(** The grid columns are computed for every table of ranked detections. *)
Lemma rows_exist recent :
  Forall ranked recent -> exists rows, rmap add_columns recent = Ok rows.
Proof.
  induction 1 as [|d recent Hd _ [rows IH]]; simpl; [eauto|].
  destruct (confidence_rank_returns _ Hd) as [rank Hrank].
  unfold add_columns at 1. rewrite Hrank, IH. simpl. eauto.
Qed.

(** Nothing raises when a row of [aggregated] is made into a record. *)
Lemma fire_of_row_group `{PyRuntime} (g : group) :
  fire_of_row (aggregate g) = Ok (fire_of_group g).
Proof.
  unfold fire_of_row, fire_of_group.
  set (row := aggregate g).
  assert (Hdate : forall t,
            _format_date (ts_value t)
            = Ok match t with
                 | Some t => date_isoformat (ts_day t)
                 | None => ""%string
                 end) by (intros [t|]; reflexivity).
  rewrite !Hdate. cbn [rbind pd_notna pd_isna].
  assert (Hlabel : py_str (Cell.confidence row)
                   = Ok match CONFIDENCE_LABELS !! Cell.confidence_rank row with
                        | Some label => label
                        | None => float_repr S754_nan
                        end).
  { unfold row, aggregate. cbn [Cell.confidence Cell.confidence_rank]. unfold map_label.
    destruct (CONFIDENCE_LABELS !! _); reflexivity. }
  rewrite Hlabel. cbn [rbind].
  destruct (is_nan (Cell.frp_max row)); reflexivity.
Qed.

Lemma rmap_fire_of_row `{PyRuntime} (gs : list group) :
  rmap fire_of_row (map aggregate gs) = Ok (map fire_of_group gs).
Proof.
  induction gs as [|g gs IH]; [reflexivity|].
  cbn [map rmap]. rewrite fire_of_row_group, IH. reflexivity.
Qed.

(** What the fire exporter returns is the rendering of the aggregated
    groups of the rows that pass the recency filter. *)
Lemma export_fire_events_steps `{PyRuntime} now days data recent rows :
  recent_fires now days data = Ok recent ->
  rmap add_columns recent = Ok rows ->
  export_fire_events now (Some data) days
  = Ok (map fire_of_group (groupby rows)).
Proof.
  intros Hrecent Hrows. unfold export_fire_events. destruct data as [|d data].
  - unfold recent_fires in Hrecent.
    destruct (minus_days now days); [|discriminate]. simpl in Hrecent.
    injection Hrecent as <-. simpl in Hrows. now injection Hrows as <-.
  - rewrite Hrecent. cbn [rbind]. destruct recent as [|d' recent].
    + simpl in Hrows. now injection Hrows as <-.
    + rewrite Hrows. cbn [rbind]. apply rmap_fire_of_row.
Qed.

(** ** C10: the cells and the counts *)

Lemma filter_all {A} (p : A -> bool) l :
  Forall (fun x => p x = true) l -> List.filter p l = l.
Proof. induction 1 as [|x l Hx _ IH]; simpl; [reflexivity|]. now rewrite Hx, IH. Qed.

Lemma filter_filter {A} (p q : A -> bool) l :
  List.filter p (List.filter q l) = List.filter (fun x => q x && p x) l.
Proof.
  induction l as [|x l IH]; simpl; [reflexivity|].
  destruct (q x); simpl; [destruct (p x)|]; now rewrite IH.
Qed.

Lemma length_filter_map {A B} (f : A -> B) (p : B -> bool) l :
  length (List.filter p (map f l)) = length (List.filter (fun x => p (f x)) l).
Proof.
  induction l as [|x l IH]; simpl; [reflexivity|].
  destruct (p (f x)); simpl; now rewrite IH.
Qed.

Lemma filter_ext_in' {A} (p q : A -> bool) l :
  (forall x, In x l -> p x = q x) -> List.filter p l = List.filter q l.
Proof.
  induction l as [|x l IH]; simpl; intros Hpq; [reflexivity|].
  rewrite (Hpq x) by now left. rewrite IH by (intros; apply Hpq; now right). reflexivity.
Qed.

Lemma length_filter_le {A} (p : A -> bool) l : (length (List.filter p l) <= length l)%nat.
Proof. induction l as [|x l IH]; simpl; [lia|]. destruct (p x); simpl; lia. Qed.

Lemma cell_of_notna d :
  is_nan (Detection.latitude d) = false -> is_nan (Detection.longitude d) = false ->
  key_isna (cell_of d) = false.
Proof. intros Hlat Hlon. unfold key_isna, cell_of. simpl. now rewrite !snap_notna, Hlat, Hlon. Qed.

Lemma total_bright_insert r gs :
  total_bright (group_insert r gs)
  = ((if bright r then 1 else 0) + total_bright gs)%nat.
Proof.
  induction gs as [|[k ms] gs IH]; simpl.
  - destruct (bright r); reflexivity.
  - destruct (key_eqb k (row_key r)); simpl.
    + rewrite List.filter_app, length_app. simpl. destruct (bright r); simpl; lia.
    + rewrite IH. lia.
Qed.

Lemma total_bright_rows rows :
  total_bright (group_rows rows) = length (List.filter bright rows).
Proof.
  unfold group_rows.
  assert (H : forall gs, total_bright (fold_left (fun gs r => group_insert r gs) rows gs)
                         = (total_bright gs + length (List.filter bright rows))%nat).
  { induction rows as [|r rows IH]; intros gs; simpl; [lia|].
    rewrite IH, total_bright_insert. destruct (bright r); simpl; lia. }
  apply H.
Qed.

Lemma total_bright_sorted_insert g gs :
  total_bright (sorted_insert g gs)
  = (length (List.filter bright (snd g)) + total_bright gs)%nat.
Proof.
  induction gs as [|g' gs IH]; simpl; [reflexivity|].
  destruct (key_ltb (fst g) (fst g')); simpl; [reflexivity|]. rewrite IH. lia.
Qed.

Lemma total_bright_sort gs : total_bright (sort_groups gs) = total_bright gs.
Proof.
  induction gs as [|g gs IH]; simpl; [reflexivity|].
  now rewrite total_bright_sorted_insert, IH.
Qed.

(** The count of a record is the number of rows of its group that have a
    brightness. *)
Lemma count_of_any_group `{PyRuntime} (g : group) :
  Fire.count (fire_of_group g) = Z.of_nat (length (List.filter bright (snd g))).
Proof.
  simpl. unfold agg_count. f_equal. rewrite map_map.
  induction (snd g) as [|r rs IH]; simpl; [reflexivity|].
  unfold bright at 1. destruct (notna (Detection.brightness (det r))); simpl; now rewrite IH.
Qed.

Lemma sum_counts_any `{PyRuntime} (gs : list group) :
  sum_counts (map fire_of_group gs) = Z.of_nat (total_bright gs).
Proof.
  induction gs as [|g gs IH]; [reflexivity|].
  change (sum_counts (map fire_of_group (g :: gs)))
    with (Fire.count (fire_of_group g)
          + sum_counts (map fire_of_group gs)).
  rewrite IH, count_of_any_group. simpl. lia.
Qed.

Lemma complete_counted d : complete d -> counted d = true.
Proof. intros (Hlat & Hlon & Hb). unfold counted, notna. now rewrite Hlat, Hlon, Hb. Qed.

(** C10 (as amended). Whatever the ranked detections that pass the recency
    filter, the exporter returns and the counts of its records add up to the
    number of these detections that have both coordinates and a brightness: a
    detection without a coordinate is in no cell, and one without brightness
    is not counted in its cell.  No count is negative.  When every such
    detection has its coordinates and its brightness, the counts add up to
    the number of these detections and every count is at least 1. *)
Theorem counts_partition `{PyRuntime} (now : timestamp) (days : Z)
    (data recent : list Detection.t) :
  recent_fires now days data = Ok recent ->
  Forall ranked recent ->
  exists out,
    export_fire_events now (Some data) days = Ok out
    /\ sum_counts out = Z.of_nat (length (List.filter counted recent))
    /\ Forall (fun r => 0 <= Fire.count r) out
    /\ (Forall complete recent ->
          sum_counts out = Z.of_nat (length recent)
          /\ Forall (fun r => 1 <= Fire.count r) out).
Proof.
  intros Hrecent Hranked.
  destruct (rows_exist _ Hranked) as [rows Hrows].
  eexists. split; [exact (export_fire_events_steps _ _ _ _ _ Hrecent Hrows)|].
  destruct (rows_spec _ _ Hrows) as [Hdet Hrow].
  assert (Hsum : sum_counts (map fire_of_group (groupby rows))
                 = Z.of_nat (length (List.filter counted recent))).
  { rewrite sum_counts_any. f_equal. unfold groupby.
    rewrite total_bright_sort, total_bright_rows, filter_filter.
    rewrite <- Hdet, length_filter_map. f_equal.
    apply filter_ext_in'. intros r Hr.
    destruct (Hrow r Hr) as (_ & -> & _).
    unfold counted, bright, key_isna, cell_of, notna. simpl.
    rewrite !snap_notna. now rewrite negb_orb. }
  split; [exact Hsum|]. split.
  - apply List.Forall_forall. intros f Hf.
    apply in_map_iff in Hf as (g & <- & Hg).
    rewrite count_of_any_group. lia.
  - intros Hcomplete. split.
    + rewrite Hsum, filter_all; [reflexivity|].
      eapply List.Forall_impl; [|exact Hcomplete]. intros d. apply complete_counted.
    + apply List.Forall_forall. intros f Hf.
      apply in_map_iff in Hf as (g & <- & Hg).
      rewrite count_of_any_group.
      destruct (groupby_members rows g Hg) as [Hne Hsnd].
      rewrite filter_all.
      * destruct (snd g); [contradiction | simpl; lia].
      * apply List.Forall_forall. intros r Hr. rewrite Hsnd in Hr.
        apply List.filter_In in Hr as [Hr _].
        destruct (Hrow r Hr) as (Hin & _).
        rewrite List.Forall_forall in Hcomplete.
        destruct (Hcomplete _ Hin) as (_ & _ & Hb).
        unfold bright, notna. now rewrite Hb.
Qed.

(** Of the five detections of [sample_table], the four with a brightness are
    counted. *)
Lemma counts_partition_witness :
  recent_fires sample_now 180 sample_table = Ok sample_table
  /\ Forall ranked sample_table
  /\ exists out,
       export_fire_events sample_now (Some sample_table) 180 = Ok out
       /\ sum_counts out = 4
       /\ Forall (fun r => 0 <= Fire.count r) out
       /\ (Forall complete sample_table ->
             sum_counts out = 5 /\ Forall (fun r => 1 <= Fire.count r) out).
Proof.
  assert (Hrecent : recent_fires sample_now 180 sample_table = Ok sample_table)
    by (vm_compute; reflexivity).
  assert (Hranked : Forall ranked sample_table) by (repeat constructor).
  split; [exact Hrecent|].
  split; [exact Hranked|].
  exact (counts_partition sample_now 180 sample_table sample_table
           Hrecent Hranked).
Defined.

(** C10 as it is stated fails: a detection without brightness passes the
    recency filter and makes a record, whose count is 0. *)
Lemma counts_claim_fails :
  recent_fires sample_now 90 [sample_dark] = Ok [sample_dark]
  /\ exists r,
       export_fire_events sample_now (Some [sample_dark]) 90 = Ok [r]
       /\ sum_counts [r] <> Z.of_nat (length [sample_dark])
       /\ ~ 1 <= Fire.count r.
Proof.
  split; [vm_compute; reflexivity|].
  eexists. split; [vm_compute; reflexivity|]. split; simpl; lia.
Qed.

(** The record that the exporter makes of [sample_cell]. *)
Example sample_cell_exported :
  export_fire_events sample_now (Some sample_cell) 90 = Ok [sample_fire]
  /\ sum_counts [sample_fire] = 3.
Proof. split; vm_compute; reflexivity. Qed.

(** ** The reductions of a group *)

Lemma f_ltb_nan_r x y : is_nan y = true -> f_ltb x y = false.
Proof. destruct y; try discriminate. now destruct x. Qed.

Lemma f_ltb_neg_infinity y :
  is_nan y = false -> f_ltb (S754_infinity true) y = false -> y = S754_infinity true.
Proof. destruct y as [s|[]| |[] m e]; simpl; intros; try discriminate; reflexivity. Qed.

Lemma filter_notna_nil vals :
  List.filter notna vals = [] -> Forall (fun v => is_nan v = true) vals.
Proof.
  induction vals as [|v vals IH]; simpl; [constructor|].
  unfold notna at 1. destruct (is_nan v) eqn:E; simpl; [|discriminate].
  intros H. constructor; auto.
Qed.

(** ['max'] over a float column is null when every value is, and is otherwise
    a value of the column, not null, that no value exceeds. *)
Lemma agg_max_spec vals :
  (Forall (fun v => is_nan v = true) vals /\ agg_max vals = S754_nan)
  \/ (is_nan (agg_max vals) = false /\ greatest_of vals (VFloat (agg_max vals))).
Proof.
  unfold agg_max. destruct (List.filter notna vals) as [|v vs] eqn:E.
  - left. split; [now apply filter_notna_nil | reflexivity].
  - right.
    assert (Hvs : forall y, In y (v :: vs) -> In y vals /\ is_nan y = false).
    { intros y Hy. rewrite <- E in Hy. apply List.filter_In in Hy as [? Hn].
      split; [assumption | now apply negb_true_iff in Hn]. }
    destruct (fold_keep_first f_gtb f_gtb_irrefl f_gtb_trans (v :: vs) (S754_infinity true))
      as (Hin & _ & Hall).
    set (r := fold_left (keep_first f_gtb) (v :: vs) (S754_infinity true)) in *.
    assert (Hr : In r (v :: vs)).
    { destruct Hin as [Hr | Hr]; [|assumption].
      left. rewrite Hr. apply f_ltb_neg_infinity.
      - apply Hvs. now left.
      - rewrite <- Hr. apply (Hall v). now left. }
    split; [apply Hvs, Hr|].
    exists r. split; [reflexivity|]. split; [apply Hvs, Hr|].
    intros y Hy. destruct (is_nan y) eqn:Ey.
    + now apply f_ltb_nan_r.
    + apply (Hall y). rewrite <- E. apply List.filter_In. split; [assumption|].
      unfold notna. now rewrite Ey.
Qed.

Lemma SFdiv_core_nonneg m1 e1 m2 e2 :
  0 <= fst (fst (SFdiv_core_binary prec emax (Zpos m1) e1 (Zpos m2) e2)).
Proof.
  destruct (SFdiv_core_binary _ _ _ _ _ _) as [[mz ez] lz] eqn:E.
  unfold SFdiv_core_binary in E.
  set (m' := match _ with Z0 => _ | Zpos _ => _ | Zneg _ => _ end) in E.
  assert (Hm' : 0 <= m').
  { subst m'. destruct (_ - _ - _); try lia. apply Z.shiftl_nonneg. lia. }
  pose proof (Z_div_mod m' (Zpos m2) ltac:(lia)) as Hdm.
  destruct (Z.div_eucl m' (Zpos m2)) as [q r]. injection E as <- _ _. simpl. nia.
Qed.

Lemma float_of_decimal_notna s m e : is_nan (float_of_decimal s m e) = false.
Proof.
  unfold float_of_decimal. destruct m as [|p|p]; try reflexivity.
  destruct e as [|e|k]; try apply binary_normalize_notna.
  unfold float_of_ratio.
  pose proof (SFdiv_core_nonneg p 0 (10 ^ k) 0) as Hm.
  destruct (SFdiv_core_binary _ _ _ _ _ _) as [[mz ez] lz].
  now apply binary_round_aux_notna.
Qed.

(** Rounding makes no null and loses none. *)
Lemma py_round_notna x ndigits : is_nan (py_round x ndigits) = is_nan x.
Proof. destruct x; try reflexivity. apply float_of_decimal_notna. Qed.

Lemma greatest_rounded_frp vals :
  greatest_rounded vals
    (if is_nan (agg_max vals) then None else Some (py_round (agg_max vals) 1)).
Proof.
  destruct (agg_max_spec vals) as [[Hall ->] | [Hn Hg]].
  - exact Hall.
  - rewrite Hn. exists (agg_max vals). auto using py_round_rounds.
Qed.

Lemma greatest_rounded_brightness vals :
  greatest_rounded vals (number (py_round (agg_max vals) 1)).
Proof.
  unfold number. rewrite py_round_notna. apply greatest_rounded_frp.
Qed.

Lemma ts_ltb_irrefl t : ts_ltb t t = false.
Proof.
  unfold ts_ltb. rewrite !Z.ltb_irrefl, andb_false_r. reflexivity.
Qed.

Lemma ts_ltb_lt a b :
  ts_ltb a b = true <->
  ts_day a < ts_day b \/ (ts_day a = ts_day b /\ ts_nanos a < ts_nanos b).
Proof.
  unfold ts_ltb. rewrite orb_true_iff, andb_true_iff, !Z.ltb_lt, Z.eqb_eq. reflexivity.
Qed.

Lemma ts_ltb_trans a b c : ts_ltb a b = true -> ts_ltb b c = true -> ts_ltb a c = true.
Proof. rewrite !ts_ltb_lt. lia. Qed.

Lemma ts_gtb_irrefl t : ts_gtb t t = false.
Proof. apply ts_ltb_irrefl. Qed.

Lemma ts_gtb_trans a b c : ts_gtb a b = true -> ts_gtb b c = true -> ts_gtb a c = true.
Proof. unfold ts_gtb. eauto using ts_ltb_trans. Qed.

Lemma ts_ltb_false_day a b : ts_ltb a b = false -> ts_day b <= ts_day a.
Proof.
  intros H. destruct (Z.le_gt_cases (ts_day b) (ts_day a)) as [|Hlt]; [assumption|].
  assert (ts_ltb a b = true) by (apply ts_ltb_lt; lia). congruence.
Qed.

Lemma In_somes {A} (l : list (option A)) x : In x (somes l) <-> In (Some x) l.
Proof.
  induction l as [|[y|] l IH]; simpl; [tauto | |].
  - rewrite IH. intuition congruence.
  - rewrite IH. intuition congruence.
Qed.

Lemma agg_min_ts_spec vals t0 :
  In (Some t0) vals ->
  exists t, agg_min_ts vals = Some t /\ In (Some t) vals
            /\ forall t', In (Some t') vals -> ts_day t <= ts_day t'.
Proof.
  intros H0. apply In_somes in H0. unfold agg_min_ts.
  destruct (somes vals) as [|t ts] eqn:E; [contradiction|].
  destruct (fold_keep_first_head ts_ltb ts_ltb_irrefl ts_ltb_trans t ts) as [Hin Hall].
  eexists. split; [reflexivity|]. split.
  - apply In_somes. now rewrite E.
  - intros t' Ht'. apply In_somes in Ht'. rewrite E in Ht'.
    apply ts_ltb_false_day. now apply Hall.
Qed.

Lemma agg_max_ts_spec vals t0 :
  In (Some t0) vals ->
  exists t, agg_max_ts vals = Some t /\ In (Some t) vals
            /\ forall t', In (Some t') vals -> ts_day t' <= ts_day t.
Proof.
  intros H0. apply In_somes in H0. unfold agg_max_ts.
  destruct (somes vals) as [|t ts] eqn:E; [contradiction|].
  destruct (fold_keep_first_head ts_gtb ts_gtb_irrefl ts_gtb_trans t ts) as [Hin Hall].
  eexists. split; [reflexivity|]. split.
  - apply In_somes. now rewrite E.
  - intros t' Ht'. apply In_somes in Ht'. rewrite E in Ht'.
    apply ts_ltb_false_day. apply (Hall t' Ht').
Qed.

Lemma fold_max_spec vs : forall v,
  let r := fold_left Z.max vs v in
  In r (v :: vs) /\ forall y, In y (v :: vs) -> y <= r.
Proof.
  induction vs as [|x vs IH]; intros v; simpl.
  - split; [auto | intros y [<- | []]; lia].
  - destruct (IH (Z.max v x)) as [Hin Hall]. split.
    + destruct Hin as [Hr | Hr]; [|auto]. rewrite <- Hr.
      destruct (Z.max_spec v x) as [[_ ->] | [_ ->]]; auto.
    + intros y [Hy | [Hy | Hy]].
      * specialize (Hall (Z.max v x) (or_introl eq_refl)). lia.
      * specialize (Hall (Z.max v x) (or_introl eq_refl)). lia.
      * apply Hall. now right.
Qed.

Lemma agg_max_rank_spec vals :
  vals <> [] -> In (agg_max_rank vals) vals /\ forall y, In y vals -> y <= agg_max_rank vals.
Proof. destruct vals as [|v vs]; [contradiction|]. intros _. apply fold_max_spec. Qed.

Lemma map_label_spec rank :
  0 <= rank <= 2 ->
  exists label, CONFIDENCE_LABELS !! rank = Some label /\ map_label rank = VStr label.
Proof.
  intros Hr. assert (rank = 0 \/ rank = 1 \/ rank = 2) as [-> | [-> | ->]] by lia;
    eexists; split; reflexivity.
Qed.

(** ** C2: what a fire record says of its cell *)

Lemma map_det_filter k rows :
  (forall r, In r rows -> row_key r = cell_of (det r)) ->
  map det (List.filter (fun r => key_eqb k (row_key r)) rows)
  = members_of k (map det rows).
Proof.
  unfold members_of. induction rows as [|r rows IH]; intros Hrows; simpl; [reflexivity|].
  rewrite (Hrows r) by now left.
  destruct (key_eqb k (cell_of (det r))); simpl; rewrite IH; auto;
    intros r' Hr'; apply Hrows; now right.
Qed.

Lemma group_members_of recent rows g :
  rmap add_columns recent = Ok rows -> In g (groupby rows) ->
  map det (snd g) = members_of (fst g) recent.
Proof.
  intros Hrows Hg. destruct (rows_spec _ _ Hrows) as [Hdet Hrow].
  destruct (groupby_members rows g Hg) as [_ ->].
  rewrite map_det_filter, Hdet; [reflexivity|]. intros r Hr. now apply Hrow.
Qed.

Lemma members_of_same k k' table :
  key_eqb k k' = true -> members_of k table = members_of k' table.
Proof.
  intros Hk. unfold members_of. induction table as [|d table IH]; simpl; [reflexivity|].
  now rewrite (key_eqb_same k k' _ Hk), IH.
Qed.

Lemma recent_dated now days data recent d :
  recent_fires now days data = Ok recent -> In d recent ->
  exists t, Detection.acq_date d = Some t.
Proof.
  intros Hrecent%recent_fires_spec Hd. subst recent.
  apply List.filter_In in Hd as [_ Hd]. unfold on_or_after in Hd.
  destruct (Detection.acq_date d); [eauto | discriminate].
Qed.

(** ** Sums without rounding *)

(** Shifting out zeros is exact. *)
Lemma shr_1_exact m :
  shr_1 {| shr_m := 2 * m; shr_r := false; shr_s := false |}
  = {| shr_m := m; shr_r := false; shr_s := false |}.
Proof. destruct m as [|p|p]; reflexivity. Qed.

Lemma iter_shr_1_exact n : forall m,
  SpecFloat.iter_pos shr_1 n {| shr_m := m * 2 ^ Zpos n; shr_r := false; shr_s := false |}
  = {| shr_m := m; shr_r := false; shr_s := false |}.
Proof.
  induction n as [n IH | n IH |]; intros m; cbn [SpecFloat.iter_pos].
  - rewrite pow2_xI.
    replace (m * (2 * (2 ^ Zpos n * 2 ^ Zpos n))) with (2 * (m * 2 ^ Zpos n * 2 ^ Zpos n))
      by ring.
    now rewrite shr_1_exact, !IH.
  - rewrite pow2_xO, Z.mul_assoc. now rewrite !IH.
  - replace (m * 2 ^ 1) with (2 * m) by lia. apply shr_1_exact.
Qed.

(** A value that fits a mantissa of 53 bits rounds to itself, however it is
    written. *)
Lemma binary_round_exact s m e c ec :
  Zpos (digits2_pos c) = 53 -> -1074 <= ec <= 971 ->
  (ec <= e /\ Zpos c = Zpos m * 2 ^ (e - ec)) \/ (e < ec /\ Zpos m = Zpos c * 2 ^ (ec - e)) ->
  binary_round prec emax s m e = S754_finite s c ec.
Proof.
  intros Hc Hec Hval.
  assert (Hd : Zpos (digits2_pos m) + e = 53 + ec).
  { destruct Hval as [[Hle Hv] | [Hlt Hv]].
    - destruct (e - ec) as [|q|q] eqn:E; try lia.
      + rewrite Z.pow_0_r, Z.mul_1_r in Hv. injection Hv as Hv. subst c. lia.
      + rewrite <- iter_xO_mul in Hv. injection Hv as Hv. subst c.
        rewrite digits2_iter_xO in Hc. lia.
    - destruct (ec - e) as [|q|q] eqn:E; try lia.
      rewrite <- iter_xO_mul in Hv. injection Hv as Hv. subst m.
      rewrite digits2_iter_xO. lia. }
  unfold binary_round. rewrite fexp_eq, Hd.
  replace (Z.max (53 + ec - 53) (-1074)) with ec by lia.
  unfold shl_align. destruct (ec - e) as [|q|q] eqn:E.
  - destruct Hval as [[_ Hv] | [? _]]; [|lia].
    replace (e - ec) with 0 in Hv by lia. rewrite Z.pow_0_r, Z.mul_1_r in Hv.
    injection Hv as Hv. subst c. replace e with ec by lia.
    now apply binary_round_aux_canonical.
  - destruct Hval as [[? _] | [_ Hv]]; [lia|].
    unfold binary_round_aux.
    assert (Hs : shr_fexp prec emax (Zpos m) e loc_Exact
                 = ({| shr_m := Zpos c; shr_r := false; shr_s := false |}, ec)).
    { unfold shr_fexp. rewrite fexp_eq. simpl Zdigits2. rewrite Hd.
      replace (Z.max (53 + ec - 53) (-1074) - e) with (Zpos q) by lia.
      unfold shr. simpl shr_record_of_loc. rewrite Hv, iter_shr_1_exact. f_equal. lia. }
    rewrite Hs. simpl loc_of_shr_record. simpl round_nearest_even.
    assert (Hs' : shr_fexp prec emax (Zpos c) ec loc_Exact
                  = ({| shr_m := Zpos c; shr_r := false; shr_s := false |}, ec)).
    { unfold shr_fexp. rewrite fexp_eq. simpl Zdigits2. rewrite Hc.
      replace (Z.max (53 + ec - 53) (-1074) - ec) with 0 by lia. reflexivity. }
    simpl shr_m. rewrite Hs'. simpl shr_m.
    destruct (ec <=? emax - prec) eqn:El; [reflexivity|].
    apply Z.leb_gt in El. unfold emax, prec in El. lia.
  - destruct Hval as [[_ Hv] | [? _]]; [|lia].
    replace (e - ec) with (Zpos q) in Hv by lia. rewrite <- iter_xO_mul in Hv.
    injection Hv as Hv. subst c. now apply binary_round_aux_canonical.
Qed.
Lemma digits2_le_53 p : Zpos p < 2 ^ 53 -> Zpos (digits2_pos p) <= 53.
Proof.
  intros Hp. pose proof (digits2_bounds p) as [Hlo _].
  destruct (Z.le_gt_cases (Zpos (digits2_pos p)) 53) as [|Hgt]; [assumption|].
  assert (2 ^ 53 <= 2 ^ (Zpos (digits2_pos p) - 1)) by (apply Z.pow_le_mono_r; lia).
  lia.
Qed.

(** The float of a whole number of at most 53 bits, as it is stored. *)
Lemma Z2F_canonical s p :
  Zpos p < 2 ^ 53 ->
  exists c ec,
    Zpos (digits2_pos c) = 53 /\ -52 <= ec <= 0 /\ Zpos c = Zpos p * 2 ^ (- ec)
    /\ binary_round prec emax s p 0 = S754_finite s c ec.
Proof.
  intros Hp%digits2_le_53. pose proof (Pos2Z.is_pos (digits2_pos p)).
  destruct (53 - Zpos (digits2_pos p)) as [|q|q] eqn:E; try lia.
  - exists p, 0. split; [lia|]. split; [lia|]. split; [simpl; lia|].
    apply binary_round_exact; [lia | lia |]. left. split; [lia|]. simpl. lia.
  - exists (Pos.iter xO p q), (- Zpos q).
    split; [rewrite digits2_iter_xO; lia|]. split; [lia|].
    rewrite Z.opp_involutive. split; [apply iter_xO_mul|].
    apply binary_round_exact; [rewrite digits2_iter_xO; lia | lia |].
    left. split; [lia|]. rewrite iter_xO_mul.
    replace (0 - - Zpos q) with (Zpos q) by lia. reflexivity.
Qed.

Lemma Z2F_nonzero z :
  z <> 0 -> Z.abs z < 2 ^ 53 ->
  exists c ec,
    Zpos (digits2_pos c) = 53 /\ -52 <= ec <= 0
    /\ cond_Zopp (z <? 0) (Zpos c) = z * 2 ^ (- ec)
    /\ Z2F z = S754_finite (z <? 0) c ec.
Proof.
  intros Hz Habs. destruct z as [|p|p]; [contradiction| |].
  - destruct (Z2F_canonical false p Habs) as (c & ec & Hc & Hec & Hv & Hr).
    exists c, ec. repeat split; try assumption; lia.
  - destruct (Z2F_canonical true p Habs) as (c & ec & Hc & Hec & Hv & Hr).
    exists c, ec. repeat split; try assumption; try lia.
    simpl. rewrite Hv. lia.
Qed.

(** A whole number of at most 53 bits, written with any exponent, rounds to
    its float. *)
Lemma normalize_int M ez z :
  ez <= 0 -> M = z * 2 ^ (- ez) -> Z.abs z < 2 ^ 53 ->
  binary_normalize prec emax M ez false = Z2F z.
Proof.
  intros Hez HM Hz.
  assert (Hp : 0 < 2 ^ (- ez)) by (apply Z.pow_pos_nonneg; lia).
  assert (Hgen : forall s p pm,
            Zpos p < 2 ^ 53 -> Zpos pm = Zpos p * 2 ^ (- ez) ->
            binary_round prec emax s pm ez = binary_round prec emax s p 0).
  { intros s p pm Hp53 Hpm.
    destruct (Z2F_canonical s p Hp53) as (c & ec & Hc & Hec & Hv & ->).
    apply binary_round_exact; [assumption | lia |].
    destruct (Z.le_gt_cases ec ez).
    - left. split; [assumption|]. rewrite Hv, Hpm, <- Z.mul_assoc, <- Z.pow_add_r by lia.
      f_equal. f_equal. lia.
    - right. split; [lia|]. rewrite Hv, Hpm, <- Z.mul_assoc, <- Z.pow_add_r by lia.
      f_equal. f_equal. lia. }
  destruct z as [|p|p].
  - subst M. reflexivity.
  - destruct M as [|pm|pm]; try lia. apply Hgen; [exact Hz | exact HM].
  - destruct M as [|pm|pm]; try lia. apply Hgen; [exact Hz | lia].
Qed.

Lemma shl_align_value m e e' :
  e' <= e -> Zpos (fst (shl_align m e e')) = Zpos m * 2 ^ (e - e').
Proof.
  intros He. unfold shl_align. destruct (e' - e) as [|q|q] eqn:E; try lia; simpl.
  - replace (e - e') with 0 by lia. lia.
  - rewrite iter_xO_mul. f_equal. f_equal. lia.
Qed.

Lemma Z2F_zero : Z2F 0 = S754_zero false.
Proof. reflexivity. Qed.

(** Whole numbers of at most 53 bits add up, and subtract, without rounding
    when the outcome has at most 53 bits. *)
Lemma f_add_exact a b :
  Z.abs a < 2 ^ 53 -> Z.abs b < 2 ^ 53 -> Z.abs (a + b) < 2 ^ 53 ->
  f_add (Z2F a) (Z2F b) = Z2F (a + b).
Proof.
  intros Ha Hb Hab.
  destruct (Z.eq_dec a 0) as [-> | Hna].
  { rewrite Z2F_zero, Z.add_0_l. destruct (Z.eq_dec b 0) as [-> | Hnb]; [reflexivity|].
    destruct (Z2F_nonzero b Hnb Hb) as (c & ec & _ & _ & _ & ->). reflexivity. }
  destruct (Z.eq_dec b 0) as [-> | Hnb].
  { rewrite Z2F_zero, Z.add_0_r.
    destruct (Z2F_nonzero a Hna Ha) as (c & ec & _ & _ & _ & ->). reflexivity. }
  destruct (Z2F_nonzero a Hna Ha) as (ca & eca & _ & Heca & Hva & ->).
  destruct (Z2F_nonzero b Hnb Hb) as (cb & ecb & _ & Hecb & Hvb & ->).
  unfold f_add, SFadd. apply normalize_int; [lia| |assumption].
  set (ez := Z.min eca ecb).
  assert (Hpa : 2 ^ (- ez) = 2 ^ (- eca) * 2 ^ (eca - ez))
    by (rewrite <- Z.pow_add_r by lia; f_equal; lia).
  assert (Hpb : 2 ^ (- ez) = 2 ^ (- ecb) * 2 ^ (ecb - ez))
    by (rewrite <- Z.pow_add_r by lia; f_equal; lia).
  rewrite Z.mul_add_distr_r. rewrite Hpa at 1. rewrite Hpb.
  rewrite !Z.mul_assoc, <- Hva, <- Hvb, !shl_align_value by lia.
  destruct (a <? 0), (b <? 0); simpl; lia.
Qed.

Lemma f_sub_exact a b :
  Z.abs a < 2 ^ 53 -> Z.abs b < 2 ^ 53 -> Z.abs (a - b) < 2 ^ 53 ->
  f_sub (Z2F a) (Z2F b) = Z2F (a - b).
Proof.
  intros Ha Hb Hab.
  destruct (Z.eq_dec b 0) as [-> | Hnb].
  { rewrite Z2F_zero, Z.sub_0_r. destruct (Z.eq_dec a 0) as [-> | Hna]; [reflexivity|].
    destruct (Z2F_nonzero a Hna Ha) as (c & ec & _ & _ & _ & ->). reflexivity. }
  destruct (Z2F_nonzero b Hnb Hb) as (cb & ecb & Hcb & Hecb & Hvb & Hfb).
  destruct (Z.eq_dec a 0) as [-> | Hna].
  { rewrite Z2F_zero, Hfb, Z.sub_0_l. simpl.
    assert (Hn : - b <> 0) by lia. assert (Hnabs : Z.abs (- b) < 2 ^ 53) by lia.
    destruct (Z2F_nonzero (- b) Hn Hnabs) as (c & ec & Hc & Hec & Hv & ->).
    assert (Hs : (- b <? 0) = negb (b <? 0)).
    { destruct (Z.ltb_spec b 0), (Z.ltb_spec (- b) 0); simpl; try reflexivity; lia. }
    rewrite Hs in *.
    assert (Hece : ec = ecb).
    { assert (Hpc := digits2_bounds c). assert (Hpcb := digits2_bounds cb).
      rewrite Hc in Hpc. rewrite Hcb in Hpcb.
      assert (Habs1 : Zpos c = Z.abs b * 2 ^ (- ec)).
      { destruct (b <? 0); simpl in Hv; [|]; nia. }
      assert (Habs2 : Zpos cb = Z.abs b * 2 ^ (- ecb)).
      { destruct (b <? 0); simpl in Hvb; [|]; nia. }
      destruct (Z.lt_trichotomy ec ecb) as [Hlt | [Heq | Hgt]]; [|assumption|].
      - exfalso. assert (Hpw : 2 ^ (- ec) = 2 ^ (- ecb) * 2 ^ (ecb - ec))
          by (rewrite <- Z.pow_add_r by lia; f_equal; lia).
        assert (2 <= 2 ^ (ecb - ec)).
        { change 2 with (2 ^ 1) at 1. apply Z.pow_le_mono_r; lia. }
        rewrite Hpw, Z.mul_assoc, <- Habs2 in Habs1. nia.
      - exfalso. assert (Hpw : 2 ^ (- ecb) = 2 ^ (- ec) * 2 ^ (ec - ecb))
          by (rewrite <- Z.pow_add_r by lia; f_equal; lia).
        assert (2 <= 2 ^ (ec - ecb)).
        { change 2 with (2 ^ 1) at 1. apply Z.pow_le_mono_r; lia. }
        rewrite Hpw, Z.mul_assoc, <- Habs1 in Habs2. nia. }
    subst ec. f_equal.
    assert (Zpos c = Zpos cb); [|congruence].
    destruct (b <? 0); simpl in Hv, Hvb; lia. }
  destruct (Z2F_nonzero a Hna Ha) as (ca & eca & _ & Heca & Hva & ->).
  rewrite Hfb.
  unfold f_sub, SFsub. apply normalize_int; [lia| |assumption].
  set (ez := Z.min eca ecb).
  assert (Hpa : 2 ^ (- ez) = 2 ^ (- eca) * 2 ^ (eca - ez))
    by (rewrite <- Z.pow_add_r by lia; f_equal; lia).
  assert (Hpb : 2 ^ (- ez) = 2 ^ (- ecb) * 2 ^ (ecb - ez))
    by (rewrite <- Z.pow_add_r by lia; f_equal; lia).
  rewrite Z.mul_sub_distr_r. rewrite Hpa at 1. rewrite Hpb.
  rewrite !Z.mul_assoc, <- Hva, <- Hvb, !shl_align_value by lia.
  destruct (a <? 0), (b <? 0); simpl; lia.
Qed.
(** On whole numbers whose sum has at most 53 bits, a step of the
    compensated sum adds exactly and leaves the compensation at zero. *)
Lemma kahan_step_exact acc z :
  Z.abs acc < 2 ^ 53 -> Z.abs z < 2 ^ 53 -> Z.abs (acc + z) < 2 ^ 53 ->
  kahan_step (Z2F acc, S754_zero false) (Z2F z) = (Z2F (acc + z), S754_zero false).
Proof.
  intros Hacc Hz Hsum. unfold kahan_step.
  change (S754_zero false) with (Z2F 0).
  rewrite (f_sub_exact z 0), Z.sub_0_r by (rewrite ?Z.sub_0_r; simpl; lia).
  rewrite (f_add_exact acc z) by assumption.
  rewrite (f_sub_exact (acc + z) acc) by (try assumption; replace (acc + z - acc) with z by lia; assumption).
  replace (acc + z - acc) with z by lia.
  rewrite (f_sub_exact z z), Z.sub_diag by (rewrite ?Z.sub_diag; simpl; lia).
  reflexivity.
Qed.

Lemma kahan_sum_exact zs : forall acc,
  Z.abs acc < 2 ^ 53 -> sums_fit acc zs ->
  fold_left kahan_step (map Z2F zs) (Z2F acc, S754_zero false)
  = (Z2F (acc + sum_Z zs), S754_zero false).
Proof.
  induction zs as [|z zs IH]; intros acc Hacc Hfit; cbn [fold_left map].
  - unfold sum_Z. simpl. now rewrite Z.add_0_r.
  - destruct Hfit as (Hz & Hsum & Hfit).
    rewrite kahan_step_exact, IH by assumption.
    f_equal. f_equal. unfold sum_Z. simpl. lia.
Qed.

(** Whole numbers whose running sums need no more than 53 bits add up
    without rounding, and the compensation of the sum stays zero: their mean
    is the float quotient of their sum by their count. *)
Lemma agg_mean_exact vals zs :
  List.filter notna vals = map Z2F zs -> zs <> [] -> sums_fit 0 zs ->
  agg_mean vals = f_div (Z2F (sum_Z zs)) (Z2F (Z.of_nat (length zs))).
Proof.
  intros Hvals Hne Hfit. unfold agg_mean. rewrite Hvals.
  destruct zs as [|z zs]; [contradiction|].
  change (map Z2F (z :: zs)) with (Z2F z :: map Z2F zs) at 1.
  cbv iota beta.
  change (Z2F z :: map Z2F zs) with (map Z2F (z :: zs)).
  change (S754_zero false, S754_zero false) with (Z2F 0, S754_zero false).
  rewrite kahan_sum_exact by (try assumption; simpl; lia).
  now rewrite length_map.
Qed.

Lemma mean_rounded_mean vals : mean_rounded vals (py_round (agg_mean vals) 1).
Proof.
  unfold mean_rounded. destruct (List.filter notna vals) as [|v vs] eqn:E.
  - unfold agg_mean. rewrite E. reflexivity.
  - split; [apply py_round_rounds|]. intros zs Hzs Hfit.
    apply agg_mean_exact; [congruence| |assumption].
    intros ->. discriminate.
Qed.

(** The record of a group summarizes the detections of the group. *)
Lemma group_summarized `{PyRuntime} recent rows g :
  rmap add_columns recent = Ok rows ->
  (forall d, In d recent -> exists t, Detection.acq_date d = Some t) ->
  In g (groupby rows) ->
  summarizes (members_of (fst g) recent) (fire_of_group g).
Proof.
  intros Hrows Hdated Hg.
  destruct (rows_spec _ _ Hrows) as [Hdet Hrow].
  destruct (groupby_members rows g Hg) as [Hne Hsnd].
  pose proof (group_members_of _ _ _ Hrows Hg) as Hmem.
  assert (Hsub : forall r, In r (snd g) -> In r rows).
  { intros r Hr. rewrite Hsnd in Hr. now apply List.filter_In in Hr as [? _]. }
  assert (Hin : forall m, In m (members_of (fst g) recent) -> In m recent).
  { intros m Hm. now apply List.filter_In in Hm as [? _]. }
  assert (exists r0, In r0 (snd g)) as [r0 Hr0]
    by (destruct (snd g) as [|r0 rs]; [contradiction | exists r0; now left]).
  assert (Hm0 : In (det r0) (members_of (fst g) recent))
    by (rewrite <- Hmem; now apply in_map).
  destruct (Hdated _ (Hin _ Hm0)) as [t0 Ht0].
  assert (Hdate0 : In (Some t0) (map Detection.acq_date (members_of (fst g) recent)))
    by (rewrite <- Ht0; now apply in_map).
  assert (Hrank : forall m rank', In m (members_of (fst g) recent) ->
            _confidence_rank (Detection.confidence m) = Ok rank' ->
            In rank' (map confidence_rank (snd g))).
  { intros m rank' Hm Hrk. rewrite <- Hmem in Hm.
    apply in_map_iff in Hm as (r & <- & Hr).
    destruct (Hrow r (Hsub r Hr)) as (_ & _ & Hr'). rewrite Hr' in Hrk.
    injection Hrk as <-. now apply in_map. }
  constructor; simpl; rewrite ?Hmem.
  - unfold agg_count. now rewrite length_filter_map.
  - exact (greatest_rounded_brightness _).
  - exact (mean_rounded_mean _).
  - exact (greatest_rounded_frp _).
  - destruct (agg_min_ts_spec _ _ Hdate0) as (t & -> & Ht & Hall).
    exists t. apply in_map_iff in Ht as (m & Hmt & Hm). repeat split; eauto.
    intros m' t' Hm' Ht'. apply Hall. rewrite <- Ht'. now apply in_map.
  - destruct (agg_max_ts_spec _ _ Hdate0) as (t & -> & Ht & Hall).
    exists t. apply in_map_iff in Ht as (m & Hmt & Hm). repeat split; eauto.
    intros m' t' Hm' Ht'. apply Hall. rewrite <- Ht'. now apply in_map.
  - destruct (agg_max_rank_spec (map confidence_rank (snd g))) as [Hmax Hall].
    { intros Hnil. apply map_eq_nil in Hnil. contradiction. }
    set (rank := agg_max_rank (map confidence_rank (snd g))) in *.
    apply in_map_iff in Hmax as (r & Hr & Hrin).
    destruct (Hrow r (Hsub r Hrin)) as (_ & _ & Hrk). rewrite Hr in Hrk.
    destruct (map_label_spec rank (confidence_rank_range _ _ Hrk)) as (label & Hl & _).
    rewrite Hl.
    exists rank. split; [|split].
    + exists (det r). split; [rewrite <- Hmem; now apply in_map | assumption].
    + intros m rank' Hm Hrk'. apply Hall. eauto.
    + exact Hl.
Qed.





(** ** Rounding a product stays close *)

Lemma shr_spec mrs e n :
  0 <= shr_m mrs ->
  shr_m (fst (shr mrs e n)) = shr_m mrs / 2 ^ Z.max 0 n
  /\ snd (shr mrs e n) = e + Z.max 0 n.
Proof.
  intros Hm. unfold shr. destruct n as [|p|p]; simpl fst; simpl snd.
  - change (Z.max 0 0) with 0. rewrite Z.pow_0_r, Z.div_1_r. lia.
  - rewrite iter_shr_1_m by assumption. replace (Z.max 0 (Zpos p)) with (Zpos p) by lia. lia.
  - replace (Z.max 0 (Zneg p)) with 0 by lia. rewrite Z.pow_0_r, Z.div_1_r. lia.
Qed.

Lemma shr_fexp_spec m e l :
  0 <= m ->
  let n := Z.max 0 (fexp prec emax (Zdigits2 m + e) - e) in
  shr_m (fst (shr_fexp prec emax m e l)) = m / 2 ^ n
  /\ snd (shr_fexp prec emax m e l) = e + n.
Proof.
  intros Hm n. unfold shr_fexp.
  assert (H0 : shr_m (shr_record_of_loc m l) = m) by (destruct l as [|[]]; reflexivity).
  destruct (shr_spec (shr_record_of_loc m l) e (fexp prec emax (Zdigits2 m + e) - e))
    as [H1 H2]; [lia|].
  rewrite H0 in H1. split; assumption.
Qed.

Lemma round_nearest_even_le m l : round_nearest_even m l <= m + 1.
Proof. destruct l as [|[]]; simpl; try lia. destruct (Z.even m); lia. Qed.

Lemma Zdigits2_bounds m :
  0 < m -> 2 ^ (Zdigits2 m - 1) <= m < 2 ^ Zdigits2 m.
Proof. destruct m; try lia. intros _. apply digits2_bounds. Qed.

Lemma round_half_even_bounds n d K :
  0 <= n -> 0 < d -> 4 * n <= (4 * K + 1) * d ->
  0 <= round_half_even n d <= K.
Proof.
  intros Hn Hd Hb. unfold round_half_even.
  pose proof (Z.div_mod n d ltac:(lia)) as Hdm.
  pose proof (Z.mod_pos_bound n d Hd) as Hr.
  assert (Hq : 0 <= n / d) by (apply Z.div_pos; lia).
  assert (HqK : n / d <= K) by nia.
  destruct (Z.compare_spec (2 * (n mod d)) d) as [Heq | Hlt | Hgt].
  - destruct (Z.even (n / d)); [lia|]. nia.
  - lia.
  - nia.
Qed.

Lemma pow2_pos a : 0 < 2 ^ a \/ a < 0.
Proof. destruct (Z.le_gt_cases 0 a); [left; now apply Z.pow_pos_nonneg | now right]. Qed.

(** Ten times a float of at most 180 in magnitude rounds to at most 1800. *)
Lemma mul_ten_index s m e :
  match e with
  | Zneg p => Zpos m <= 180 * 2 ^ Zpos p
  | _ => Zpos m * 2 ^ e <= 180
  end ->
  exists n, -1800 <= n <= 1800
    /\ rint_index (binary_round_aux prec emax s (Zpos (m * 5629499534213120)) (e + -49) loc_Exact)
       = Some n.
Proof.
  intros Hval.
  set (M := Zpos (m * 5629499534213120)).
  set (D := 49 - e).
  assert (HM : M = Zpos m * 10 * 2 ^ 49).
  { unfold M. rewrite Pos2Z.inj_mul.
    change (Zpos 5629499534213120) with (10 * 2 ^ 49). ring. }
  assert (HD : 42 <= D /\ M <= 1800 * 2 ^ D).
  { unfold D. destruct e as [|q|q].
    - split; [lia|]. rewrite HM. simpl in Hval. change (49 - 0) with 49. lia.
    - assert (Hq : 2 ^ Zpos q <= 180) by nia.
      assert (Zpos q <= 7).
      { destruct (Z.le_gt_cases (Zpos q) 7); [assumption|].
        assert (2 ^ 8 <= 2 ^ Zpos q) by (apply Z.pow_le_mono_r; lia). lia. }
      split; [lia|]. rewrite HM.
      replace (2 ^ 49) with (2 ^ Zpos q * 2 ^ (49 - Zpos q))
        by (rewrite <- Z.pow_add_r by lia; f_equal; lia).
      assert (0 < 2 ^ (49 - Zpos q)) by (apply Z.pow_pos_nonneg; lia). nia.
    - split; [lia|]. rewrite HM.
      replace (49 - Zneg q) with (Zpos q + 49) by lia.
      rewrite Z.pow_add_r by lia. nia. }
  destruct HD as [HD HMD].
  replace (e + -49) with (- D) by (unfold D; lia).
  assert (HM52 : 2 ^ 52 < M) by (rewrite HM; lia).
  pose proof (Zdigits2_bounds M ltac:(lia)) as [Hglo Hghi].
  set (g := Zdigits2 M) in *.
  assert (Hg53 : 53 <= g).
  { destruct (Z.le_gt_cases 53 g); [assumption|].
    assert (2 ^ g <= 2 ^ 52) by (apply Z.pow_le_mono_r; lia). lia. }
  assert (HgD : g <= D + 11).
  { destruct (Z.le_gt_cases g (D + 11)); [assumption|].
    assert (2 ^ (D + 11) <= 2 ^ (g - 1)) by (apply Z.pow_le_mono_r; lia).
    rewrite Z.pow_add_r in * by lia. change (2 ^ 11) with 2048 in *.
    assert (0 < 2 ^ D) by (apply Z.pow_pos_nonneg; lia). nia. }
  unfold binary_round_aux.
  destruct (shr_fexp_spec M (- D) loc_Exact ltac:(lia)) as [Hm' He'].
  fold g in Hm', He'. rewrite fexp_eq in Hm', He'.
  set (n1 := Z.max 0 (Z.max (g + - D - 53) (-1074) - - D)) in *.
  assert (Hn1 : 0 <= n1 <= D - 2) by (unfold n1; lia).
  destruct (shr_fexp prec emax M (- D) loc_Exact) as [mrs' e']. simpl in Hm', He'.
  pose proof (round_nearest_even_le (shr_m mrs') (loc_of_shr_record mrs')) as Hle.
  pose proof (round_nearest_even_ge (shr_m mrs') (loc_of_shr_record mrs')) as Hge.
  set (m1 := round_nearest_even (shr_m mrs') (loc_of_shr_record mrs')) in *.
  assert (Hp1 : 0 < 2 ^ n1) by (apply Z.pow_pos_nonneg; lia).
  assert (Hm'0 : 0 <= shr_m mrs') by (rewrite Hm'; apply Z.div_pos; lia).
  assert (Hm1 : m1 * 2 ^ n1 <= M + 2 ^ n1).
  { pose proof (Z.mul_div_le M (2 ^ n1) Hp1). rewrite <- Hm' in *. nia. }
  destruct (shr_fexp_spec m1 e' loc_Exact ltac:(lia)) as [Hm'' He''].
  set (n2 := Z.max 0 (fexp prec emax (Zdigits2 m1 + e') - e')) in *.
  assert (Hn2 : 0 <= n2) by (unfold n2; lia).
  destruct (shr_fexp prec emax m1 e' loc_Exact) as [mrs'' e'']. simpl in Hm'', He''.
  assert (Hp2 : 0 < 2 ^ n2) by (apply Z.pow_pos_nonneg; lia).
  assert (Hm''0 : 0 <= shr_m mrs'') by (rewrite Hm''; apply Z.div_pos; lia).
  assert (Hm2 : shr_m mrs'' * 2 ^ n2 <= m1).
  { pose proof (Z.mul_div_le m1 (2 ^ n2) Hp2). rewrite <- Hm'' in *. lia. }
  assert (HpD : 2 ^ D = 4 * 2 ^ (D - 2)).
  { replace D with (2 + (D - 2)) at 1 by lia. rewrite Z.pow_add_r by lia. reflexivity. }
  assert (Hp12 : 2 ^ n1 <= 2 ^ (D - 2)) by (apply Z.pow_le_mono_r; lia).
  assert (Htot : 4 * (shr_m mrs'' * 2 ^ (n1 + n2)) <= 7201 * 2 ^ D).
  { rewrite Z.pow_add_r by lia. nia. }
  destruct (shr_m mrs'') as [|mm|mm] eqn:Emm; [exists 0; split; [lia | reflexivity] | | lia].
  assert (He : e'' = n1 + n2 - D) by lia.
  destruct (e'' <=? emax - prec) eqn:Ee.
  - unfold rint_index, scaled_magnitude.
    eexists; split; [|reflexivity].
    assert (0 <= match e'' with
                 | Zneg p => round_half_even (Zpos mm * 10 ^ 0) (2 ^ Zpos p)
                 | _ => Zpos mm * 2 ^ e'' * 10 ^ 0
                 end <= 1800); [|destruct s; simpl; lia].
    rewrite Z.pow_0_r, !Z.mul_1_r.
    destruct e'' as [|q|q].
    + rewrite Z.pow_0_r, Z.mul_1_r. replace (n1 + n2) with D in Htot by lia. nia.
    + replace (n1 + n2) with (Zpos q + D) in Htot by lia.
      rewrite Z.pow_add_r in Htot by lia.
      assert (0 < 2 ^ D) by (apply Z.pow_pos_nonneg; lia).
      assert (0 < 2 ^ Zpos q) by (apply Z.pow_pos_nonneg; lia). nia.
    + apply round_half_even_bounds; [lia | apply Z.pow_pos_nonneg; lia |].
      assert (Hq : D = n1 + n2 + Zpos q) by lia.
      rewrite Hq in Htot. rewrite (Z.pow_add_r 2 (n1 + n2)) in Htot by lia.
      assert (0 < 2 ^ (n1 + n2)) by (apply Z.pow_pos_nonneg; lia). nia.
  - exfalso. apply Z.leb_gt in Ee. unfold emax, prec in Ee.
    assert (2 ^ (D + 972) <= 2 ^ (n1 + n2)) by (apply Z.pow_le_mono_r; lia).
    rewrite Z.pow_add_r in H by lia.
    assert (0 < 2 ^ D) by (apply Z.pow_pos_nonneg; lia).
    assert (7201 < 2 ^ 972) by (apply Z.ltb_lt; vm_compute; reflexivity).
    nia.
Qed.

(** A coordinate between -180 and 180 degrees has its tenths between -1800
    and 1800. *)
Lemma within_index x :
  within 180 x = true -> exists n, -1800 <= n <= 1800 /\ cell_index x = Some n.
Proof.
  unfold within. intros [Hge Hle]%andb_prop.
  destruct x as [s|s| |s m e]; try discriminate.
  - exists 0. split; [lia | reflexivity].
  - destruct s; discriminate.
  - unfold cell_index.
    change (Z2F 10) with (S754_finite false 5629499534213120 (-49)).
    unfold f_mul, SFmul. apply mul_ten_index.
    destruct s; simpl in Hge, Hle.
    + destruct e as [|q|q]; apply Z.leb_le in Hge; lia.
    + destruct e as [|q|q]; apply Z.leb_le in Hle; lia.
Qed.

Lemma within_mono x : within 90 x = true -> within 180 x = true.
Proof.
  unfold within. intros [Hge Hle]%andb_prop. apply andb_true_intro.
  destruct x as [s|s| |s m e]; try discriminate; simpl in *.
  - split; reflexivity.
  - destruct s; discriminate.
  - assert (Hp : forall q, 0 < 2 ^ Zpos q) by (intros; apply Z.pow_pos_nonneg; lia).
    destruct e as [|q|q]; try specialize (Hp q);
      apply Z.leb_le in Hge, Hle; split; apply Z.leb_le; destruct s; simpl in *; nia.
Qed.

(** ** C3: the grid *)

Lemma float_same_eq a b : float_same a b = true -> a = b.
Proof.
  destruct a as [s|s| |s m e], b as [s'|s'| |s' m' e']; simpl; try discriminate.
  - now intros ->%eqb_prop.
  - now intros ->%eqb_prop.
  - reflexivity.
  - intros [[->%eqb_prop ->%Pos.eqb_eq]%andb_prop ->%Z.eqb_eq]%andb_prop. reflexivity.
Qed.



Lemma np_round_index y n :
  rint_index y = Some n -> np_round y = S754_zero true \/ np_round y = Z2F n.
Proof.
  destruct y as [s|s| |s m e]; simpl; try discriminate.
  - intros [= <-]. destruct s; auto.
  - intros [= <-]. destruct (scaled_magnitude m e 0) as [|k|k]; destruct s; auto.
Qed.



Lemma within_notna bound x : within bound x = true -> is_nan x = false.
Proof. destruct x; try reflexivity. discriminate. Qed.

Lemma located_keyed d : located d -> key_isna (cell_of d) = false.
Proof. intros [Hlat Hlon]. apply cell_of_notna; eauto using within_notna. Qed.







(** The rows of [sample_cell]: the three detections fall in one cell. *)
Example sample_cell_rows :
  rmap add_columns sample_cell = Ok sample_rows
  /\ map fst (groupby sample_rows)
     = [(float_of_decimal false 123 (-1), float_of_decimal false 568 (-1))].
Proof. split; vm_compute; reflexivity. Qed.

(** The two points of the specification: 12.34 snaps to 12.3 and 12.36 to
    12.4, 56.78 and 56.76 both snap to 56.8. *)
Example grid_snap_examples :
  snap (float_of_decimal false 1234 (-2)) = float_of_decimal false 123 (-1)
  /\ snap (float_of_decimal false 1236 (-2)) = float_of_decimal false 124 (-1)
  /\ snap (float_of_decimal false 5678 (-2)) = float_of_decimal false 568 (-1)
  /\ snap (float_of_decimal false 5676 (-2)) = float_of_decimal false 568 (-1).
Proof. repeat split; vm_compute; reflexivity. Qed.

(** * Further properties *)

(** ** The order of cell keys *)

(** Floats that are equal compare alike with every other float. *)
Lemma f_ltb_eqb a b c :
  f_eqb a b = true -> f_ltb a c = f_ltb b c /\ f_ltb c a = f_ltb c b.
Proof.
  intros (k & Ha & Hb)%f_eqb_code.
  assert (Hcode : forall x y x' y',
            ord_code x = ord_code x' -> ord_code y = ord_code y' ->
            f_ltb x y = true -> f_ltb x' y' = true).
  { intros x y x' y' Hx Hy (p & q & Hp & Hq & Hlt)%f_ltb_code.
    apply f_ltb_code. exists p, q. repeat split; congruence. }
  assert (Hab : ord_code a = ord_code b) by congruence.
  split; apply eq_iff_eq_true; split; apply Hcode; congruence.
Qed.

Lemma f_ltb_eqb_l a b c : f_eqb a b = true -> f_ltb a c = f_ltb b c.
Proof. intros Hab. now destruct (f_ltb_eqb a b c Hab). Qed.

Lemma f_ltb_eqb_r a b c : f_eqb a b = true -> f_ltb c a = f_ltb c b.
Proof. intros Hab. now destruct (f_ltb_eqb a b c Hab). Qed.

(** The keys are ordered by latitude, then by longitude: a strict order,
    total on the keys without NaN. *)
Lemma key_ltb_trans a b c : key_ltb a b = true -> key_ltb b c = true -> key_ltb a c = true.
Proof.
  unfold key_ltb. intros Hab Hbc.
  apply orb_true_iff in Hab as [Hab | [Hab Hab']%andb_prop];
    apply orb_true_iff in Hbc as [Hbc | [Hbc Hbc']%andb_prop]; apply orb_true_iff.
  - left. eauto using f_ltb_trans.
  - left. now rewrite <- (f_ltb_eqb_r _ _ _ Hbc).
  - left. now rewrite (f_ltb_eqb_l _ _ _ Hab).
  - right. apply andb_true_intro. split; eauto using f_eqb_trans, f_ltb_trans.
Qed.

Lemma key_order_total a b :
  key_isna a = false -> key_isna b = false ->
  key_ltb a b = true \/ key_eqb a b = true \/ key_ltb b a = true.
Proof.
  unfold key_isna, key_ltb, key_eqb.
  intros [Ha1 Ha2]%orb_false_elim [Hb1 Hb2]%orb_false_elim.
  destruct (f_order_total _ _ Ha1 Hb1) as [H1 | [H1 | H1]].
  - left. now rewrite H1.
  - destruct (f_order_total _ _ Ha2 Hb2) as [H2 | [H2 | H2]].
    + left. rewrite H1, H2. apply orb_true_r.
    + right; left. now rewrite H1, H2.
    + right; right. rewrite f_eqb_sym in H1. rewrite H1, H2. apply orb_true_r.
  - right; right. now rewrite H1.
Qed.

(** Inserting a group whose key differs from every key keeps the groups in
    increasing order. *)
Lemma sorted_insert_sorted g gs :
  StronglySorted group_before gs ->
  (forall x, In x gs -> group_before g x \/ group_before x g) ->
  StronglySorted group_before (sorted_insert g gs).
Proof.
  induction 1 as [|g' gs Hgs IH Hall]; intros Hcmp; simpl.
  - repeat constructor.
  - destruct (key_ltb (fst g) (fst g')) eqn:E.
    + constructor; [now constructor|].
      constructor; [exact E|].
      rewrite List.Forall_forall in Hall |- *. intros x Hx.
      unfold group_before in *. eauto using key_ltb_trans.
    + constructor.
      * apply IH. intros x Hx. apply Hcmp. now right.
      * apply List.Forall_forall. intros x Hx.
        rewrite In_sorted_insert in Hx. destruct Hx as [-> | Hx].
        -- destruct (Hcmp g' (or_introl eq_refl)) as [H | H]; [|exact H].
           unfold group_before in H. congruence.
        -- rewrite List.Forall_forall in Hall. auto.
Qed.

Lemma sort_groups_sorted gs :
  Forall (fun g => key_isna (fst g) = false) gs ->
  distinct_keys (map fst gs) ->
  StronglySorted group_before (sort_groups gs).
Proof.
  induction 1 as [|g gs Hg Hgs IH]; simpl; [constructor|].
  intros [Hfresh Hdist]. apply sorted_insert_sorted; [auto|].
  intros x Hx. rewrite In_sort_groups in Hx.
  rewrite List.Forall_forall in Hfresh, Hgs.
  specialize (Hfresh (fst x) (in_map fst _ _ Hx)). specialize (Hgs x Hx). simpl in Hgs.
  destruct (key_order_total (fst g) (fst x) Hg Hgs) as [H | [H | H]]; auto. congruence.
Qed.

Lemma groupby_keyed rows g : In g (groupby rows) -> key_isna (fst g) = false.
Proof.
  intros Hg. destruct (groupby_members rows g Hg) as [Hne Hm].
  destruct (snd g) as [|r rs] eqn:E; [contradiction|].
  assert (Hr : In r (List.filter (fun r => key_eqb (fst g) (row_key r)) rows))
    by (rewrite <- Hm; now left).
  apply List.filter_In in Hr as [_ Hk]. now apply key_eqb_notna in Hk as [? _].
Qed.

(** The groups come out in strictly increasing order of their keys. *)
Lemma groupby_sorted rows : StronglySorted group_before (groupby rows).
Proof.
  unfold groupby.
  destruct (group_rows_grouped _ (Forall_filter_keyed rows)) as [_ _ Hdist _].
  apply sort_groups_sorted; [|exact Hdist].
  apply List.Forall_forall. intros g Hg. apply (groupby_keyed rows).
  unfold groupby. now apply In_sort_groups.
Qed.

(** ** Where the records are *)

(** A property of the keys of the rows is a property of the keys of the
    groups. *)
Lemma group_insert_keys (P : key -> Prop) r gs :
  P (row_key r) -> Forall (fun g : group => P (fst g)) gs ->
  Forall (fun g : group => P (fst g)) (group_insert r gs).
Proof.
  intros Hr. induction 1 as [|[k ms] gs Hg Hgs IH]; simpl.
  - repeat constructor. exact Hr.
  - destruct (key_eqb k (row_key r)); constructor; auto.
Qed.

Lemma group_rows_keys (P : key -> Prop) rows :
  Forall (fun r => P (row_key r)) rows ->
  Forall (fun g : group => P (fst g)) (group_rows rows).
Proof.
  unfold group_rows.
  assert (H : forall gs, Forall (fun r => P (row_key r)) rows ->
                         Forall (fun g : group => P (fst g)) gs ->
                         Forall (fun g : group => P (fst g))
                           (fold_left (fun gs r => group_insert r gs) rows gs)).
  { induction rows as [|r rows IH]; intros gs Hrows Hgs; simpl; [assumption|].
    inversion Hrows; subst. apply IH; [assumption|]. now apply group_insert_keys. }
  intros Hrows. apply H; [assumption | constructor].
Qed.

Lemma groupby_keys (P : key -> Prop) rows g :
  (forall r, In r rows -> P (row_key r)) -> In g (groupby rows) -> P (fst g).
Proof.
  intros Hrows Hg. unfold groupby in Hg. rewrite In_sort_groups in Hg.
  assert (Hall : Forall (fun g : group => P (fst g))
                   (group_rows (List.filter (fun r => negb (key_isna (row_key r))) rows))).
  { apply group_rows_keys. apply List.Forall_forall.
    intros r [Hr _]%List.filter_In. auto. }
  rewrite List.Forall_forall in Hall. auto.
Qed.

(** A grid coordinate of the globe is a tenth, from -180.0 to 180.0. *)
Lemma snap_tenth x :
  within 180 x = true ->
  snap x = f_div (S754_zero true) (Z2F 10)
  \/ exists n, -1800 <= n <= 1800 /\ snap x = f_div (Z2F n) (Z2F 10).
Proof.
  intros (n & Hn & Hx)%within_index. unfold snap.
  destruct (np_round_index _ _ Hx) as [-> | ->]; eauto.
Qed.

(** Every tenth from -180.0 to 180.0 passes the check. *)
Lemma tenths_checked : all_from tenth_checked (-1800) 3601 = true.
Proof. vm_compute. reflexivity. Qed.

Lemma tenth_checked_spec n :
  -1800 <= n <= 1800 ->
  let q := f_div (Z2F n) (Z2F 10) in
  py_round q 1 = q /\ within 180 q = true /\ (Z.abs n <= 900 -> within 90 q = true).
Proof.
  intros Hn q.
  pose proof (all_from_spec _ _ _ n tenths_checked ltac:(lia)) as Hall.
  unfold tenth_checked in Hall. fold q in Hall.
  apply andb_prop in Hall as [[Hround Hlon]%andb_prop Hlat].
  split; [now apply float_same_eq|]. split; [assumption|].
  intros Hle. apply Z.leb_le in Hle. now rewrite Hle in Hlat.
Qed.

(** Rounding a grid coordinate to one decimal leaves it as it is. *)
Lemma snap_rounded x : within 180 x = true -> py_round (snap x) 1 = snap x.
Proof.
  intros [-> | (n & Hn & ->)]%snap_tenth; [reflexivity|].
  now apply tenth_checked_spec.
Qed.

Lemma fire_key_of_group `{PyRuntime} (g : group) :
  fire_key (fire_of_group g) = (py_round (fst (fst g)) 1, py_round (snd (fst g)) 1).
Proof. reflexivity. Qed.

Lemma located_rounded d :
  located d ->
  (py_round (fst (cell_of d)) 1, py_round (snd (cell_of d)) 1) = cell_of d.
Proof.
  intros [Hlat%within_mono Hlon]. unfold cell_of. simpl.
  now rewrite !snap_rounded.
Qed.

(** The records of located detections carry the keys of their groups. *)
Lemma fire_key_located `{PyRuntime} recent rows g :
  rmap add_columns recent = Ok rows -> Forall located recent ->
  In g (groupby rows) ->
  fire_key (fire_of_group g) = fst g
  /\ exists d, In d recent /\ fst g = cell_of d.
Proof.
  intros Hrows Hloc Hg. rewrite List.Forall_forall in Hloc.
  destruct (rows_spec _ _ Hrows) as [_ Hrow].
  assert (Hd : exists d, In d recent /\ fst g = cell_of d).
  { apply (groupby_keys (fun k => exists d, In d recent /\ k = cell_of d) rows g); [|assumption].
    intros r Hr. destruct (Hrow r Hr) as (Hin & Hkey & _). eauto. }
  split; [|exact Hd]. destruct Hd as (d & Hd & Hk).
  rewrite fire_key_of_group, Hk. apply located_rounded. auto.
Qed.

(** The two exports of [sample_table]: under a window of 90 days and under
    one of 180 days. *)
Example sample_table_exported :
  export_fire_events sample_now (Some sample_table) 90
  = Ok [sample_sydney "2026-01-24"; sample_fire]
  /\ export_fire_events sample_now (Some sample_table) 180
     = Ok [sample_sydney "2025-09-06"; sample_fire].
Proof. split; vm_compute; reflexivity. Qed.

(** X1. When the detections that pass the recency filter are ranked and on
    the globe, the exporter returns, and the coordinates of its records are
    the grid coordinates of the detections: every such detection has one
    record, and one only, whose latitude and longitude equal the grid
    coordinates of the detection, and the latitude and longitude of every
    record equal the grid coordinates of one of these detections.  (Rounding
    to one decimal leaves a grid coordinate as it is.) *)
Theorem record_coordinates `{PyRuntime} (now : timestamp) (days : Z)
    (data recent : list Detection.t) :
  recent_fires now days data = Ok recent ->
  Forall ranked recent ->
  Forall located recent ->
  exists out,
    export_fire_events now (Some data) days = Ok out
    /\ (forall d, In d recent ->
          exists r, In r out /\ key_eqb (fire_key r) (cell_of d) = true
                    /\ forall r', In r' out ->
                         key_eqb (fire_key r') (cell_of d) = true -> r' = r)
    /\ (forall r, In r out ->
          exists d, In d recent /\ key_eqb (fire_key r) (cell_of d) = true).
Proof.
  intros Hrecent Hranked Hlocated.
  destruct (rows_exist _ Hranked) as [rows Hrows].
  eexists. split; [exact (export_fire_events_steps _ _ _ _ _ Hrecent Hrows)|].
  destruct (rows_spec _ _ Hrows) as [Hdet Hrow].
  split.
  - intros d Hd. rewrite <- Hdet in Hd. apply in_map_iff in Hd as (r0 & <- & Hr0).
    destruct (Hrow r0 Hr0) as (Hin & Hkey & _).
    assert (Hna : key_isna (row_key r0) = false).
    { rewrite Hkey. apply located_keyed. rewrite List.Forall_forall in Hlocated. auto. }
    destruct (groupby_cover rows r0 Hr0 Hna) as (g & Hg & Hk & Hmem).
    destruct (fire_key_located _ _ _ Hrows Hlocated Hg) as [Hfk _].
    exists (fire_of_group g). split; [apply in_map, Hg|].
    split; [rewrite Hfk, <- Hkey; exact Hk|].
    intros r' Hr' Hk'.
    apply in_map_iff in Hr' as (g' & <- & Hg').
    destruct (fire_key_located _ _ _ Hrows Hlocated Hg') as [Hfk' _].
    rewrite Hfk', <- Hkey in Hk'.
    assert (Hmem' : In r0 (snd g')).
    { destruct (groupby_members rows g' Hg') as [_ ->].
      apply List.filter_In. auto. }
    now rewrite (groupby_unique rows g' g r0 Hg' Hg Hmem' Hmem).
  - intros r Hr.
    apply in_map_iff in Hr as (g & <- & Hg).
    destruct (fire_key_located _ _ _ Hrows Hlocated Hg) as [Hfk (d & Hd & Hk)].
    exists d. split; [assumption|]. rewrite Hfk, Hk.
    apply key_eqb_refl, located_keyed. rewrite List.Forall_forall in Hlocated. auto.
Qed.

(** The records of [sample_table] under a window of 180 days. *)
Lemma record_coordinates_witness :
  recent_fires sample_now 180 sample_table = Ok sample_table
  /\ Forall ranked sample_table
  /\ Forall located sample_table
  /\ exists out,
       export_fire_events sample_now (Some sample_table) 180 = Ok out
       /\ (forall d, In d sample_table ->
             exists r, In r out /\ key_eqb (fire_key r) (cell_of d) = true
                       /\ forall r', In r' out ->
                            key_eqb (fire_key r') (cell_of d) = true -> r' = r)
       /\ (forall r, In r out ->
             exists d, In d sample_table /\ key_eqb (fire_key r) (cell_of d) = true).
Proof.
  assert (Hrecent : recent_fires sample_now 180 sample_table = Ok sample_table)
    by (vm_compute; reflexivity).
  assert (Hranked : Forall ranked sample_table) by (repeat constructor).
  assert (Hlocated : Forall located sample_table) by (repeat constructor).
  split; [exact Hrecent|].
  split; [exact Hranked|].
  split; [exact Hlocated|].
  exact (record_coordinates sample_now 180 sample_table sample_table
           Hrecent Hranked Hlocated).
Defined.

(** ** The order of the records *)

Lemma StronglySorted_map {A B} (R : A -> A -> Prop) (S : B -> B -> Prop) (f : A -> B) l :
  (forall a b, In a l -> In b l -> R a b -> S (f a) (f b)) ->
  StronglySorted R l -> StronglySorted S (map f l).
Proof.
  intros Hf Hl. induction Hl as [|a l Hl IH Hall]; simpl; constructor.
  - apply IH. intros x y Hx Hy. apply Hf; now right.
  - rewrite List.Forall_forall in Hall. apply List.Forall_forall.
    intros y (b & <- & Hb)%in_map_iff. apply Hf; [now left | now right | auto].
Qed.

(** X2. When the detections that pass the recency filter are ranked and on
    the globe, the records come in strictly increasing order of their
    coordinates, latitude first and longitude second: every record comes
    before all the records that follow it, so no two records share their
    coordinates. *)
Theorem records_ascending `{PyRuntime} (now : timestamp) (days : Z)
    (data recent : list Detection.t) :
  recent_fires now days data = Ok recent ->
  Forall ranked recent ->
  Forall located recent ->
  exists out,
    export_fire_events now (Some data) days = Ok out
    /\ StronglySorted fire_before out.
Proof.
  intros Hrecent Hranked Hlocated.
  destruct (rows_exist _ Hranked) as [rows Hrows].
  eexists. split; [exact (export_fire_events_steps _ _ _ _ _ Hrecent Hrows)|].
  apply (StronglySorted_map group_before); [|apply groupby_sorted].
  intros a b Ha Hb Hab. unfold fire_before.
  destruct (fire_key_located _ _ _ Hrows Hlocated Ha) as [-> _].
  destruct (fire_key_located _ _ _ Hrows Hlocated Hb) as [-> _].
  exact Hab.
Qed.

(** In [sample_table] the cell near Sydney comes last and its record first. *)
Lemma records_ascending_witness :
  recent_fires sample_now 180 sample_table = Ok sample_table
  /\ Forall ranked sample_table
  /\ Forall located sample_table
  /\ exists out,
       export_fire_events sample_now (Some sample_table) 180 = Ok out
       /\ StronglySorted fire_before out.
Proof.
  assert (Hrecent : recent_fires sample_now 180 sample_table = Ok sample_table)
    by (vm_compute; reflexivity).
  assert (Hranked : Forall ranked sample_table) by (repeat constructor).
  assert (Hlocated : Forall located sample_table) by (repeat constructor).
  split; [exact Hrecent|].
  split; [exact Hranked|].
  split; [exact Hlocated|].
  exact (records_ascending sample_now 180 sample_table sample_table
           Hrecent Hranked Hlocated).
Defined.

(** ** The counts of the records *)

Lemma groups_le_members (gs : list group) :
  Forall (fun g : group => snd g <> []) gs -> (length gs <= total_members gs)%nat.
Proof.
  induction 1 as [|g gs Hg _ IH]; simpl; [lia|].
  destruct (snd g); [contradiction | simpl; lia].
Qed.

(** X3. Whatever the ranked detections that pass the recency filter, the
    exporter returns and the counts of its records add up to the number of
    these detections that are counted: those with both coordinates and a
    brightness.  A detection without a coordinate is in no cell, and one
    without brightness is not counted in its cell.  No count is negative, and
    there are never more records than detections. *)
Theorem counts_account `{PyRuntime} (now : timestamp) (days : Z)
    (data recent : list Detection.t) :
  recent_fires now days data = Ok recent ->
  Forall ranked recent ->
  exists out,
    export_fire_events now (Some data) days = Ok out
    /\ sum_counts out = Z.of_nat (length (List.filter counted recent))
    /\ Forall (fun r => 0 <= Fire.count r) out
    /\ (length out <= length recent)%nat.
Proof.
  intros Hrecent Hranked.
  destruct (rows_exist _ Hranked) as [rows Hrows].
  eexists. split; [exact (export_fire_events_steps _ _ _ _ _ Hrecent Hrows)|].
  destruct (rows_spec _ _ Hrows) as [Hdet Hrow].
  split; [|split].
  - rewrite sum_counts_any. f_equal. unfold groupby.
    rewrite total_bright_sort, total_bright_rows, filter_filter.
    rewrite <- Hdet, length_filter_map. f_equal.
    apply filter_ext_in'. intros r Hr.
    destruct (Hrow r Hr) as (_ & -> & _).
    unfold counted, bright, key_isna, cell_of, notna. simpl.
    rewrite !snap_notna. now rewrite negb_orb.
  - apply List.Forall_forall. intros f Hf.
    apply in_map_iff in Hf as (g & <- & Hg).
    rewrite count_of_any_group. lia.
  - rewrite length_map.
    transitivity (total_members (groupby rows)).
    + apply groups_le_members, List.Forall_forall.
      intros g Hg. now destruct (groupby_members rows g Hg).
    + rewrite groupby_total, <- Hdet, length_map. apply length_filter_le.
Qed.

(** Of the five detections of [sample_table], the four with a brightness are
    counted. *)
Lemma counts_account_witness :
  recent_fires sample_now 180 sample_table = Ok sample_table
  /\ Forall ranked sample_table
  /\ exists out,
       export_fire_events sample_now (Some sample_table) 180 = Ok out
       /\ sum_counts out = 4
       /\ Forall (fun r => 0 <= Fire.count r) out
       /\ (length out <= 5)%nat.
Proof.
  assert (Hrecent : recent_fires sample_now 180 sample_table = Ok sample_table)
    by (vm_compute; reflexivity).
  assert (Hranked : Forall ranked sample_table) by (repeat constructor).
  split; [exact Hrecent|].
  split; [exact Hranked|].
  exact (counts_account sample_now 180 sample_table sample_table
           Hrecent Hranked).
Defined.

(** A table whose one detection has a list for its confidence is not ranked:
    the resolver raises on it, and so does the exporter. *)
Example list_confidence_raises :
  export_fire_events sample_now
    (Some [ {| Detection.latitude := Detection.latitude sample_detection;
               Detection.longitude := Detection.longitude sample_detection;
               Detection.acq_date := Detection.acq_date sample_detection;
               Detection.brightness := Detection.brightness sample_detection;
               Detection.frp := Detection.frp sample_detection;
               Detection.confidence := VObject sample_list |} ]) 90
  = Raise ValueError.
Proof. vm_compute. reflexivity. Qed.

(** ** The dates of a record *)

Lemma recent_window now days data recent d :
  recent_fires now days data = Ok recent -> In d recent ->
  exists t, Detection.acq_date d = Some t /\ ts_day now - days <= ts_day t.
Proof.
  intros ->%recent_fires_spec [_ Hd]%List.filter_In.
  unfold on_or_after in Hd. destruct (Detection.acq_date d) as [t|]; [|discriminate].
  exists t. split; [reflexivity | now apply Z.leb_le].
Qed.

(** The two dates of the record of a group are the days of two acquisitions
    of the window, the first not after the last. *)
Lemma group_dates `{PyRuntime} now days data recent rows g :
  recent_fires now days data = Ok recent ->
  rmap add_columns recent = Ok rows ->
  In g (groupby rows) ->
  exists first last,
    Fire.date_first (fire_of_group g) = date_isoformat (ts_day first)
    /\ Fire.date (fire_of_group g) = date_isoformat (ts_day last)
    /\ ts_day now - days <= ts_day first <= ts_day last
    /\ (exists d, In d recent /\ Detection.acq_date d = Some first)
    /\ (exists d, In d recent /\ Detection.acq_date d = Some last).
Proof.
  intros Hrecent Hrows Hg.
  destruct (rows_spec _ _ Hrows) as [_ Hrow].
  destruct (groupby_members rows g Hg) as [Hne Hmem].
  assert (Hin : forall r, In r (snd g) -> In (det r) recent).
  { intros r Hr. rewrite Hmem in Hr. apply List.filter_In in Hr as [Hr _].
    now destruct (Hrow r Hr). }
  set (vals := map Detection.acq_date (map det (snd g))).
  assert (Hvals : forall t, In (Some t) vals ->
            ts_day now - days <= ts_day t
            /\ exists d, In d recent /\ Detection.acq_date d = Some t).
  { intros t Ht. unfold vals in Ht. rewrite map_map in Ht.
    apply in_map_iff in Ht as (r & Hr & Hrg).
    destruct (recent_window _ _ _ _ _ Hrecent (Hin r Hrg)) as (t' & Ht' & Hle).
    split; [congruence|]. exists (det r). auto. }
  destruct (snd g) as [|r0 rs] eqn:Eg; [contradiction|].
  destruct (recent_window _ _ _ _ _ Hrecent (Hin r0 (or_introl eq_refl))) as (t0 & Ht0 & _).
  assert (H0 : In (Some t0) vals) by (unfold vals; simpl; left; exact Ht0).
  destruct (agg_min_ts_spec vals t0 H0) as (tmin & Hmin & Hminin & _).
  destruct (agg_max_ts_spec vals t0 H0) as (tmax & Hmax & Hmaxin & Hmaxall).
  exists tmin, tmax.
  unfold fire_of_group, aggregate. simpl Fire.date_first. simpl Fire.date.
  rewrite Eg. fold vals. rewrite Hmin, Hmax.
  destruct (Hvals _ Hminin) as [Hlow Hdmin]. destruct (Hvals _ Hmaxin) as [_ Hdmax].
  repeat split; auto.
Qed.



(** What the fire exporter returned: nothing, or the records of the groups. *)
Lemma export_fire_events_rows `{PyRuntime} now data days out :
  export_fire_events now data days = Ok out ->
  out = []
  \/ exists table recent rows,
       data = Some table
       /\ recent_fires now days table = Ok recent
       /\ rmap add_columns recent = Ok rows
       /\ out = map fire_of_group (groupby rows).
Proof.
  unfold export_fire_events. destruct data as [[|d table]|]; try (intros [= <-]; now left).
  destruct (recent_fires now days (d :: table)) as [recent|] eqn:Hrecent; [|discriminate].
  cbn [rbind]. destruct recent as [|d' recent]; [intros [= <-]; now left|].
  destruct (rmap add_columns (d' :: recent)) as [rows|] eqn:Hrows; [|discriminate].
  cbn [rbind]. rewrite rmap_fire_of_row. intros [= <-].
  right. exists (d :: table), (d' :: recent), rows. auto.
Qed.

(** ** When the exporters raise *)

Lemma confidence_rank_int_overflow z :
  int_too_large (VInt z) = true -> _confidence_rank (VInt z) = Raise OverflowError.
Proof.
  unfold _confidence_rank, score_rank. simpl. unfold float_of_int.
  destruct (Z2F z); try discriminate; reflexivity.
Qed.

Lemma confidence_rank_object o :
  _confidence_rank (VObject o)
  = match obj_isna o with
    | Ok true => Ok 0
    | Ok false => score_rank (VObject o)
    | Raise e => Raise e
    end.
Proof.
  unfold _confidence_rank. cbn [is_None pd_isna]. destruct (obj_isna o) as [[]|]; reflexivity.
Qed.

Lemma confidence_rank_raise value e :
  _confidence_rank value = Raise e <->
  (e = OverflowError /\ int_too_large value = true)
  \/ exists o,
       value = VObject o
       /\ (obj_isna o = Raise e
           \/ (obj_isna o = Ok false /\ obj_float o = Raise e
               /\ e <> TypeError /\ e <> ValueError)).
Proof.
  split.
  - intros Hr. destruct (resolvable value) eqn:Hres.
    { apply confidence_rank_returns in Hres as [rank Hk]. congruence. }
    destruct value as [ | | | b | z | f | s | d | t | o]; try discriminate.
    + left. simpl in Hres. apply negb_false_iff in Hres.
      rewrite (confidence_rank_int_overflow z Hres) in Hr. injection Hr as <-. auto.
    + right. exists o. split; [reflexivity|]. rewrite confidence_rank_object in Hr.
      destruct (obj_isna o) as [[]|e'] eqn:Ena; [discriminate | | left; congruence].
      right. apply score_rank_raise in Hr. simpl in Hr. tauto.
  - intros [[-> Hint] | (o & -> & [Hna | (Hna & Hf & Ht & Hv)])].
    + destruct value; try discriminate. now apply confidence_rank_int_overflow.
    + rewrite confidence_rank_object, Hna. reflexivity.
    + rewrite confidence_rank_object, Hna. apply score_rank_raise. simpl. auto.
Qed.

(** The resolver returns exactly on the values it can rank. *)
Lemma confidence_rank_resolvable value :
  (exists rank, _confidence_rank value = Ok rank) <-> resolvable value = true.
Proof.
  split; [|apply confidence_rank_returns].
  intros [rank Hrank]. destruct (resolvable value) eqn:Hres; [reflexivity|].
  exfalso.
  assert (exists e, _confidence_rank value = Raise e) as [e He]; [|congruence].
  destruct value as [ | | | b | z | f | s | d | t | o]; try discriminate.
  - exists OverflowError. apply confidence_rank_raise. left.
    split; [reflexivity|]. simpl in Hres. now apply negb_false_iff in Hres.
  - simpl in Hres. destruct (obj_isna o) as [[]|e] eqn:Ena; try discriminate.
    + destruct (obj_float o) as [x|e] eqn:Ef; try discriminate.
      exists e. apply confidence_rank_raise. right. exists o. split; [reflexivity|].
      right. destruct e; try discriminate; repeat split; congruence.
    + exists e. apply confidence_rank_raise. right. exists o. split; [reflexivity|].
      now left.
Qed.

(** A loop over a list raises what its body raises on the first item on
    which it raises. *)
Lemma rmap_raise {A B} (f : A -> result B) l e :
  rmap f l = Raise e <->
  exists l1 x l2,
    l = l1 ++ x :: l2
    /\ Forall (fun y => exists z, f y = Ok z) l1
    /\ f x = Raise e.
Proof.
  induction l as [|a l IH]; simpl.
  - split; [discriminate | intros ([|? ?] & x & l2 & [=] & _)].
  - destruct (f a) as [b|e'] eqn:Ea; cbn [rbind].
    + destruct (rmap f l) as [bs|e''] eqn:El; cbn [rbind].
      * split; [discriminate|].
        intros ([|a' l1] & x & l2 & Heq & Hall & Hx); injection Heq as <- ->.
        -- congruence.
        -- assert (Hno : Ok bs = Raise e :> result (list B)); [|discriminate].
           apply IH. exists l1, x, l2. inversion Hall; auto.
      * split.
        -- intros [= <-]. destruct (proj1 IH eq_refl) as (l1 & x & l2 & -> & Hall & Hx).
           exists (a :: l1), x, l2. repeat split; [constructor; eauto | assumption].
        -- intros ([|a' l1] & x & l2 & Heq & Hall & Hx); injection Heq as <- ->.
           ++ congruence.
           ++ f_equal. assert (Hr : Raise e'' = Raise e :> result (list B)); [|congruence].
              apply IH. exists l1, x, l2. inversion Hall; auto.
    + split.
      * intros [= <-]. exists [], a, l. auto.
      * intros ([|a' l1] & x & l2 & Heq & Hall & Hx); injection Heq as <- ->.
        -- congruence.
        -- inversion Hall as [|? ? [z Hz] _]; subst. congruence.
Qed.

(** The grid columns are computed up to the first detection that the
    resolver raises on. *)
Lemma add_columns_raise recent e :
  rmap add_columns recent = Raise e <->
  exists before d after,
    recent = before ++ d :: after
    /\ Forall ranked before
    /\ _confidence_rank (Detection.confidence d) = Raise e.
Proof.
  rewrite rmap_raise.
  assert (Hok : forall d, (exists r, add_columns d = Ok r) <-> ranked d).
  { intros d. unfold ranked. rewrite <- confidence_rank_resolvable. unfold add_columns.
    destruct (_confidence_rank (Detection.confidence d)); cbn [rbind]; split;
      intros [x Hx]; try discriminate; eauto. }
  assert (Hraise : forall d, add_columns d = Raise e
                             <-> _confidence_rank (Detection.confidence d) = Raise e).
  { intros d. unfold add_columns.
    destruct (_confidence_rank (Detection.confidence d)); cbn [rbind]; split;
      intros Hx; try discriminate; injection Hx as <-; reflexivity. }
  split; intros (before & d & after & -> & Hall & Hd); exists before, d, after;
    (split; [reflexivity|]); (split; [|now apply Hraise]);
    (eapply List.Forall_impl; [|exact Hall]); intros x; apply Hok.
Qed.

Lemma minus_days_raise now days e : minus_days now days = Raise e -> e = OverflowError.
Proof.
  unfold minus_days. destruct (_ <? _); [now intros [= <-]|].
  destruct (valid_ordinal _); [discriminate | now intros [= <-]].
Qed.

Lemma undated_all table :
  forallb undated table = true <-> Forall (fun d => Detection.acq_date d = None) table.
Proof.
  rewrite forallb_forall, List.Forall_forall. unfold undated.
  split; intros Hall d Hd; specialize (Hall d Hd);
    destruct (Detection.acq_date d); congruence.
Qed.

(** The filter raises when the window cannot be computed, and when no row
    of a table that is not empty has a date. *)
Lemma recent_fires_raises now days table e :
  recent_fires now days table = Raise e <->
  minus_days now days = Raise e
  \/ ((exists cutoff, minus_days now days = Ok cutoff)
      /\ table <> [] /\ Forall (fun d => Detection.acq_date d = None) table
      /\ e = TypeError).
Proof.
  unfold recent_fires. destruct (minus_days now days) as [cutoff|e'] eqn:Ecut; cbn [rbind].
  - destruct table as [|d table].
    + split; [discriminate | intros [[=] | (_ & Hne & _)]; now destruct Hne].
    + destruct (forallb undated (d :: table)) eqn:Hu.
      * split.
        -- intros [= <-]. right. split; [eauto|]. split; [discriminate|].
           split; [now apply undated_all | reflexivity].
        -- intros [[=] | (_ & _ & _ & ->)]; reflexivity.
      * split; [discriminate|]. intros [[=] | (_ & _ & Hall & _)].
        apply undated_all in Hall. congruence.
  - split.
    + intros [= <-]. now left.
    + intros [[= <-] | ([c [=]] & _)]; reflexivity.
Qed.

(** X5. Without a table, or with an empty one, the fire exporter never
    raises.  With a table that is not empty it raises in three cases and in
    no other: when the first day of the window cannot be computed (a window
    of more than 999999999 days, or one that starts outside the calendar),
    what the subtraction raises, an [OverflowError]; when no row has a date,
    a [TypeError]; and when the resolver raises on the confidence of a
    detection that passes the recency filter, what it raises on the first
    such detection. *)
Theorem fire_export_raises `{PyRuntime} (now : timestamp)
    (data : option (list Detection.t)) (days : Z) (e : exn) :
  export_fire_events now data days = Raise e <->
  exists table,
    data = Some table /\ table <> []
    /\ ((minus_days now days = Raise e /\ e = OverflowError)
        \/ ((exists cutoff, minus_days now days = Ok cutoff)
            /\ Forall (fun d => Detection.acq_date d = None) table
            /\ e = TypeError)
        \/ exists recent before d after,
             recent_fires now days table = Ok recent
             /\ recent = before ++ d :: after
             /\ Forall ranked before
             /\ _confidence_rank (Detection.confidence d) = Raise e).
Proof.
  unfold export_fire_events. destruct data as [[|d0 table]|].
  - split; [discriminate|]. intros (t & [= <-] & Hne & _). now destruct Hne.
  - destruct (recent_fires now days (d0 :: table)) as [recent|e'] eqn:Hrecent; cbn [rbind].
    + assert (Hrows : (match recent with
                       | [] => Ok []
                       | _ :: _ =>
                           rows <- rmap add_columns recent;;
                           rmap fire_of_row (map aggregate (groupby rows))
                       end = Raise e) <-> rmap add_columns recent = Raise e).
      { destruct recent as [|d' recent']; [split; discriminate|].
        destruct (rmap add_columns (d' :: recent')); cbn [rbind].
        - rewrite rmap_fire_of_row. split; discriminate.
        - split; intros [= <-]; reflexivity. }
      rewrite Hrows, add_columns_raise. split.
      * intros (before & d & after & -> & Hall & Hd).
        exists (d0 :: table). split; [reflexivity|]. split; [discriminate|].
        right. right. exists (before ++ d :: after), before, d, after. auto.
      * intros (t & [= <-] & _ & [[Hm _] | [(Hc & Hall & _) | Hex]]).
        -- assert (Hr : recent_fires now days (d0 :: table) = Raise e)
             by (apply recent_fires_raises; now left).
           congruence.
        -- assert (Hr : recent_fires now days (d0 :: table) = Raise TypeError).
           { apply recent_fires_raises. right.
             split; [exact Hc|]. split; [discriminate|]. split; [exact Hall | reflexivity]. }
           congruence.
        -- destruct Hex as (recent' & before & d & after & Hr & -> & Hall & Hd).
           rewrite Hrecent in Hr. injection Hr as ->.
           exists before, d, after. auto.
    + apply recent_fires_raises in Hrecent. split.
      * intros [= <-]. exists (d0 :: table). split; [reflexivity|]. split; [discriminate|].
        destruct Hrecent as [Hm | (Hc & _ & Hall & ->)].
        -- left. split; [assumption|]. now apply minus_days_raise in Hm.
        -- right. left. auto.
      * intros (t & [= <-] & _ & [[Hm _] | [(Hc & Hall & ->) | Hex]]).
        -- destruct Hrecent as [Hm' | ([c Hc] & _)]; congruence.
        -- destruct Hrecent as [Hm' | (_ & _ & _ & ->)]; [|reflexivity].
           destruct Hc as [c Hc]. congruence.
        -- destruct Hex as (recent' & _ & _ & _ & Hr & _).
           exfalso.
           assert (Hr' : recent_fires now days (d0 :: table) = Raise e')
             by (apply recent_fires_raises; exact Hrecent).
           congruence.
  - split; [discriminate|]. intros (t & [=] & _).
Qed.

(** ** Widening the window *)

Lemma filter_comm {A} (p q : A -> bool) l :
  List.filter p (List.filter q l) = List.filter q (List.filter p l).
Proof.
  rewrite !filter_filter. apply filter_ext_in'. intros x _. apply andb_comm.
Qed.

Lemma length_filter_filter_le {A} (p q : A -> bool) l :
  (length (List.filter p (List.filter q l)) <= length (List.filter p l))%nat.
Proof. rewrite filter_comm. apply length_filter_le. Qed.

Lemma recent_fires_wider now days days' data recent recent' :
  days <= days' ->
  recent_fires now days data = Ok recent ->
  recent_fires now days' data = Ok recent' ->
  recent = List.filter (on_or_after (ts_day now - days)) recent'.
Proof.
  intros Hle ->%recent_fires_spec ->%recent_fires_spec.
  rewrite filter_filter. apply filter_ext_in'. intros d _.
  unfold on_or_after. destruct (Detection.acq_date d) as [t|]; [|reflexivity].
  destruct (ts_day now - days <=? ts_day t) eqn:E; [|now rewrite andb_false_r].
  apply Z.leb_le in E. rewrite andb_true_r. symmetry. apply Z.leb_le. lia.
Qed.

Lemma count_of_members `{PyRuntime} recent rows g :
  rmap add_columns recent = Ok rows -> In g (groupby rows) ->
  Fire.count (fire_of_group g)
  = Z.of_nat (length (List.filter (fun d => notna (Detection.brightness d))
                        (members_of (fst g) recent))).
Proof.
  intros Hrows Hg. rewrite count_of_any_group.
  rewrite <- (group_members_of _ _ _ Hrows Hg), length_filter_map. reflexivity.
Qed.

(** X6. Widening the window loses nothing.  When the detections of the wider
    window are ranked and on the globe, both exports return, and every record
    of the narrow window has, in the export of the wider one, a record at the
    same coordinates whose count is not lower. *)
Theorem wider_window_keeps_cells `{PyRuntime} (now : timestamp) (days days' : Z)
    (data recent recent' : list Detection.t) :
  days <= days' ->
  recent_fires now days data = Ok recent ->
  recent_fires now days' data = Ok recent' ->
  Forall ranked recent' ->
  Forall located recent' ->
  exists out out',
    export_fire_events now (Some data) days = Ok out
    /\ export_fire_events now (Some data) days' = Ok out'
    /\ forall r, In r out ->
         exists r', In r' out'
                    /\ key_eqb (fire_key r') (fire_key r) = true
                    /\ Fire.count r <= Fire.count r'.
Proof.
  intros Hle Hrecent Hrecent' Hranked' Hlocated'.
  pose proof (recent_fires_wider _ _ _ _ _ _ Hle Hrecent Hrecent') as Hsub.
  assert (Hin : forall d, In d recent -> In d recent').
  { intros d Hd. rewrite Hsub in Hd. now apply List.filter_In in Hd as [? _]. }
  assert (Hranked : Forall ranked recent).
  { rewrite List.Forall_forall in *. auto. }
  assert (Hlocated : Forall located recent).
  { rewrite List.Forall_forall in *. auto. }
  destruct (rows_exist _ Hranked) as [rows Hrows].
  destruct (rows_exist _ Hranked') as [rows' Hrows'].
  eexists. eexists.
  split; [exact (export_fire_events_steps _ _ _ _ _ Hrecent Hrows)|].
  split; [exact (export_fire_events_steps _ _ _ _ _ Hrecent' Hrows')|].
  destruct (rows_spec _ _ Hrows) as [Hdet Hrow].
  destruct (rows_spec _ _ Hrows') as [Hdet' Hrow'].
  intros f Hf.
  apply in_map_iff in Hf as (g & <- & Hg).
  destruct (groupby_members rows g Hg) as [Hne Hmem].
  destruct (snd g) as [|r0 rs] eqn:Eg; [contradiction|].
  assert (Hr0 : In r0 (List.filter (fun r => key_eqb (fst g) (row_key r)) rows))
    by (rewrite <- Hmem; now left).
  apply List.filter_In in Hr0 as [Hr0 Hk0].
  destruct (Hrow r0 Hr0) as (Hd0 & Hkey0 & _).
  apply Hin in Hd0. rewrite <- Hdet' in Hd0.
  apply in_map_iff in Hd0 as (r0' & Hdd & Hr0').
  destruct (Hrow' r0' Hr0') as (Hd0' & Hkey0' & _).
  assert (Hna : key_isna (row_key r0') = false).
  { rewrite Hkey0'. apply located_keyed. rewrite List.Forall_forall in Hlocated'. auto. }
  destruct (groupby_cover rows' r0' Hr0' Hna) as (g' & Hg' & Hk' & _).
  assert (Hgg : key_eqb (fst g') (fst g) = true).
  { rewrite Hkey0', Hdd, <- Hkey0 in Hk'. rewrite key_eqb_sym in Hk0.
    eauto using key_eqb_trans. }
  exists (fire_of_group g'). split; [apply in_map, Hg'|].
  destruct (fire_key_located _ _ _ Hrows Hlocated Hg) as [-> _].
  destruct (fire_key_located _ _ _ Hrows' Hlocated' Hg') as [-> _].
  split; [exact Hgg|].
  rewrite (count_of_members _ _ _ Hrows Hg), (count_of_members _ _ _ Hrows' Hg').
  apply inj_le. unfold members_of.
  rewrite (filter_ext_in' (fun d => key_eqb (fst g) (cell_of d))
             (fun d => key_eqb (fst g') (cell_of d)) recent).
  2:{ intros d _. symmetry. now apply key_eqb_same. }
  rewrite Hsub, (filter_comm _ (on_or_after _)).
  apply length_filter_filter_le.
Qed.

(** [sample_table] under windows of 90 and of 180 days. *)
Lemma wider_window_keeps_cells_witness :
  90 <= 180
  /\ recent_fires sample_now 90 sample_table = Ok (List.filter (on_or_after 739551) sample_table)
  /\ recent_fires sample_now 180 sample_table = Ok sample_table
  /\ Forall ranked sample_table
  /\ Forall located sample_table
  /\ exists out out',
       export_fire_events sample_now (Some sample_table) 90 = Ok out
       /\ export_fire_events sample_now (Some sample_table) 180 = Ok out'
       /\ forall r, In r out ->
            exists r', In r' out'
                       /\ key_eqb (fire_key r') (fire_key r) = true
                       /\ Fire.count r <= Fire.count r'.
Proof.
  assert (Hrecent : recent_fires sample_now 180 sample_table = Ok sample_table)
    by (vm_compute; reflexivity).
  assert (Hranked : Forall ranked sample_table) by (repeat constructor).
  assert (Hlocated : Forall located sample_table) by (repeat constructor).
  assert (H0 : 90 <= 180) by lia.
  assert (H1 : recent_fires sample_now 90 sample_table
               = Ok (List.filter (on_or_after 739551) sample_table)) by reflexivity.
  split; [exact H0|]. split; [exact H1|].
  split; [exact Hrecent|].
  split; [exact Hranked|].
  split; [exact Hlocated|].
  exact (wider_window_keeps_cells sample_now 90 180 sample_table _ sample_table
           H0 H1 Hrecent Hranked Hlocated).
Defined.

(** ** The earthquake exporter: all or nothing *)

Lemma dict_get_some quake k v d : quake !! k = Some v -> dict_get quake k d = v.
Proof. unfold dict_get. now intros ->. Qed.

Lemma quake_of_raw_well_formed quake r : quake_of_raw quake = Ok r -> well_formed quake.
Proof.
  unfold quake_of_raw.
  destruct (py_float (dict_get quake "latitude" _)) as [lat|] eqn:Hlat; [|discriminate].
  destruct (py_float (dict_get quake "longitude" _)) as [lon|] eqn:Hlon; [|discriminate].
  destruct (py_float (dict_get quake "mag" _)) as [mag|] eqn:Hmag; [|discriminate].
  destruct (py_float (dict_get quake "depth_km" _)) as [dep|] eqn:Hdep; [|discriminate].
  intros _ k v Hk Hv. simpl in Hk.
  destruct Hk as [<- | [<- | [<- | [<- | []]]]];
    rewrite (dict_get_some _ _ _ _ Hv) in *; eauto.
Qed.

Lemma rmap_Exists_raise {A B} (f : A -> result B) l e :
  rmap f l = Raise e -> Exists (fun x => f x = Raise e) l.
Proof.
  induction l as [|x l IH]; simpl; [discriminate|].
  destruct (f x) as [y|e'] eqn:E; simpl.
  - destruct (rmap f l) as [ys|e'']; simpl; [discriminate|].
    intros [= <-]. right. now apply IH.
  - intros [= <-]. now left.
Qed.

Lemma rmap_quakes_well_formed quakes records :
  rmap quake_of_raw quakes = Ok records -> Forall well_formed quakes.
Proof.
  intros Hrecords%rmap_Forall2.
  induction Hrecords as [|quake r quakes records Hr _ IH]; constructor; auto.
  exact (quake_of_raw_well_formed _ _ Hr).
Qed.

(** X7. The earthquake exporter is all or nothing.  Once the window is
    computed and the source has answered a list of raw records, the exporter
    returns exactly when every record is well formed (each of latitude,
    longitude, mag and depth_km that is present is a value [float()]
    accepts), and it then returns as many records as it was given.  When it
    raises, it raises what the normalization of one of the records raises,
    and no record is returned. *)
Theorem earthquakes_all_or_nothing (now start : timestamp) (days : Z) (query : usgs_query)
    (min_magnitude : float) (quakes : list (gmap string pyval)) :
  minus_days now days = Ok start ->
  query (ts_day start) (ts_day now) min_magnitude = Ok (Some quakes) ->
  ((exists records, export_earthquake_events now query days min_magnitude = Ok records)
   <-> Forall well_formed quakes)
  /\ (forall records,
        export_earthquake_events now query days min_magnitude = Ok records ->
        length records = length quakes)
  /\ (forall e,
        export_earthquake_events now query days min_magnitude = Raise e ->
        Exists (fun quake => quake_of_raw quake = Raise e) quakes).
Proof.
  intros Hstart Hquery.
  assert (Hrun : export_earthquake_events now query days min_magnitude
                 = rmap quake_of_raw quakes).
  { unfold export_earthquake_events. rewrite Hstart. cbn [rbind]. rewrite Hquery.
    cbn [rbind]. now destruct quakes. }
  rewrite Hrun. split; [split|split].
  - intros [records Hrecords]. exact (rmap_quakes_well_formed _ _ Hrecords).
  - intros Hwf. destruct (rmap_quakes quakes Hwf) as (records & Hrecords & _). eauto.
  - intros records Hrecords%rmap_Forall2. symmetry. eapply Forall2_length. exact Hrecords.
  - intros e. apply rmap_Exists_raise.
Qed.

(** One record spelled as a string is well formed; with a null magnitude
    it is not, and the export raises. *)
Lemma earthquakes_all_or_nothing_witness :
  minus_days sample_now 90 = Ok {| ts_day := 739551; ts_nanos := 82800000000000 |}
  /\ ((exists records,
         export_earthquake_events sample_now (sample_query [sample_quake (VStr "3.1")])
           90 (Z2F 3) = Ok records)
      <-> Forall well_formed [sample_quake (VStr "3.1")]).
Proof.
  assert (H1 : minus_days sample_now 90
               = Ok {| ts_day := 739551; ts_nanos := 82800000000000 |}) by reflexivity.
  split; [exact H1|].
  exact (proj1 (earthquakes_all_or_nothing sample_now _ 90
                  (sample_query [sample_quake (VStr "3.1")]) (Z2F 3) _ H1 eq_refl)).
Defined.

(** ** The document of [main] *)

Lemma main_steps `{PyRuntime} cfg firms_data query t_fires t_quakes t_range t_stamp doc :
  main cfg firms_data query t_fires t_quakes t_range t_stamp = Ok doc ->
  export_fire_events t_fires firms_data (Config.EVENT_HISTORY_DAYS cfg) = Ok (Output.fires doc)
  /\ export_earthquake_events t_quakes query (Config.EVENT_HISTORY_DAYS cfg)
       (Config.MIN_EARTHQUAKE_MAGNITUDE_EXPORT cfg) = Ok (Output.earthquakes doc)
  /\ minus_days t_range (Config.EVENT_HISTORY_DAYS cfg)
     = Ok {| ts_day := Output.data_range_start doc; ts_nanos := ts_nanos t_range |}
  /\ Output.data_range_end doc = ts_day t_range
  /\ Output.data_range_days doc = Config.EVENT_HISTORY_DAYS cfg
  /\ Output.generated_at doc = t_stamp.
Proof.
  unfold main.
  destruct (export_fire_events _ _ _) as [fires|]; [|discriminate]. cbn [rbind].
  destruct (export_earthquake_events _ _ _ _) as [earthquakes|]; [|discriminate]. cbn [rbind].
  destruct (minus_days _ _) as [start|] eqn:E; [|discriminate]. cbn [rbind].
  intros [= <-]. simpl. repeat split.
  unfold minus_days in E. destruct (_ <? _); [discriminate|].
  destruct (valid_ordinal _); [|discriminate]. now injection E as <-.
Qed.

(** X8. In every document [main] returns, [data_range] is the window of
    [EVENT_HISTORY_DAYS] days that ends on the day the clock shows when the
    range is computed: [start] is [end] minus [days], and it is a date of the
    calendar.  The earthquakes of the document are what the source answered
    to one query, for the window of that many days that ends on the day the
    clock showed when the earthquakes were exported and for the configured
    minimum magnitude.  The two dates of every fire record are not before the
    first day of the window of that many days that ends on the day the clock
    showed when the fires were exported, [date_first] not after [date]; no
    upper end is stated, for the exporter has none.  So the three windows
    start on the same day when the three readings of the clock fall on the
    same day. *)
Theorem document_window `{PyRuntime}
    (cfg : Config.t) (firms_data : option (list Detection.t)) (query : usgs_query)
    (t_fires t_quakes t_range t_stamp : timestamp) (doc : Output.t) :
  main cfg firms_data query t_fires t_quakes t_range t_stamp = Ok doc ->
  Output.data_range_days doc = Config.EVENT_HISTORY_DAYS cfg
  /\ Output.data_range_end doc = ts_day t_range
  /\ Output.data_range_start doc = ts_day t_range - Output.data_range_days doc
  /\ valid_date (Output.data_range_start doc)
  /\ (exists answer,
        query (ts_day t_quakes - Output.data_range_days doc) (ts_day t_quakes)
          (Config.MIN_EARTHQUAKE_MAGNITUDE_EXPORT cfg) = Ok answer
        /\ match answer with
           | None | Some [] => Output.earthquakes doc = []
           | Some quakes => rmap quake_of_raw quakes = Ok (Output.earthquakes doc)
           end)
  /\ (forall r, In r (Output.fires doc) ->
        exists first last,
          Fire.date_first r = date_isoformat first /\ Fire.date r = date_isoformat last
          /\ ts_day t_fires - Output.data_range_days doc <= first <= last).
Proof.
  intros (Hfires & Hquakes & Hstart & Hend & Hdays & _)%main_steps.
  rewrite Hdays. split; [reflexivity|]. split; [exact Hend|].
  pose proof (minus_days_day _ _ _ Hstart) as Hday. simpl in Hday.
  split; [exact Hday|]. split; [|split].
  - unfold minus_days in Hstart. destruct (_ <? _); [discriminate|].
    destruct (valid_ordinal _) eqn:E; [|discriminate].
    rewrite Hday. unfold valid_ordinal in E. apply andb_prop in E as [E1 E2].
    apply Z.leb_le in E1, E2. split; assumption.
  - unfold export_earthquake_events in Hquakes.
    destruct (minus_days t_quakes _) as [start|] eqn:E; [|discriminate].
    apply minus_days_day in E. cbn [rbind] in Hquakes. rewrite E in Hquakes.
    destruct (query _ _ _) as [answer|]; [|discriminate]. cbn [rbind] in Hquakes.
    exists answer. split; [reflexivity|].
    destruct answer as [[|quake quakes]|]; try (now injection Hquakes); exact Hquakes.
  - intros r Hr.
    destruct (export_fire_events_rows _ _ _ _ Hfires)
      as [Hnil | (table & recent & rows & _ & Hrecent & Hrows & Hout)].
    + rewrite Hnil in Hr. destruct Hr.
    + rewrite Hout in Hr.
      apply in_map_iff in Hr as (g & <- & Hg).
      destruct (group_dates _ _ _ _ _ _ Hrecent Hrows Hg)
        as (first & last & Hf & Hl & Hwin & _).
      exists (ts_day first), (ts_day last). auto.
Qed.

(** The document of the three detections of [sample_cell] and of two
    earthquakes: its one fire record is dated from 2025-10-27, the first day
    of the window, to 2026-01-20. *)
Lemma document_window_witness :
  main sample_config (Some sample_cell) sample_quakes
    sample_now sample_now sample_now sample_now
  = Ok sample_fire_document
  /\ Output.data_range_start sample_fire_document = 739641 - 90
  /\ valid_date (Output.data_range_start sample_fire_document)
  /\ Output.fires sample_fire_document = [sample_fire]
  /\ (forall r, In r (Output.fires sample_fire_document) ->
        exists first last,
          Fire.date_first r = date_isoformat first /\ Fire.date r = date_isoformat last
          /\ 739641 - 90 <= first <= last).
Proof.
  assert (Hrun : main sample_config (Some sample_cell) sample_quakes
                   sample_now sample_now sample_now sample_now = Ok sample_fire_document)
    by (vm_compute; reflexivity).
  split; [exact Hrun|].
  pose proof (document_window _ _ _ _ _ _ _ _ Hrun)
    as (_ & _ & Hstart & Hvalid & _ & Hdates).
  split; [exact Hstart|]. split; [exact Hvalid|]. split; [reflexivity | exact Hdates].
Defined.

(** The filter has no upper end: a detection dated two months after the
    reading of the clock is exported. *)
Example later_detection_exported :
  exists r,
    export_fire_events sample_now
      (Some [ {| Detection.latitude := Detection.latitude sample_detection;
                 Detection.longitude := Detection.longitude sample_detection;
                 Detection.acq_date := Some {| ts_day := 739700; ts_nanos := 0 |};
                 Detection.brightness := Detection.brightness sample_detection;
                 Detection.frp := Detection.frp sample_detection;
                 Detection.confidence := VStr "n" |} ]) 90
    = Ok [r]
    /\ Fire.date r = "2026-03-25"%string
    /\ ts_day sample_now < 739700.
Proof. eexists. repeat split; vm_compute; reflexivity. Qed.

(** The clock passes midnight after the earthquakes are exported: the
    document states a range that ends a day after the window that was
    queried. *)
Example document_window_midnight :
  exists doc,
    main sample_config None sample_quakes sample_now sample_now
      {| ts_day := 739642; ts_nanos := 0 |} {| ts_day := 739642; ts_nanos := 0 |} = Ok doc
    /\ Output.data_range_start doc = 739552
    /\ Output.data_range_end doc = 739642
    /\ export_earthquake_events sample_now sample_quakes 90
         (Config.MIN_EARTHQUAKE_MAGNITUDE_EXPORT sample_config)
       = Ok (Output.earthquakes doc)
    /\ minus_days sample_now 90 = Ok {| ts_day := 739551; ts_nanos := 82800000000000 |}.
Proof. eexists. repeat split; vm_compute; reflexivity. Qed.

(** ** The statistics of a document without NaN *)

Lemma not_ltb_leb x y :
  is_nan x = false -> is_nan y = false -> f_ltb y x = false -> f_leb x y = true.
Proof.
  intros Hx Hy Hlt. unfold f_leb.
  destruct (f_order_total x y Hx Hy) as [-> | [-> | H]];
    [reflexivity | apply orb_true_r | congruence].
Qed.

Lemma range_encloses vals r :
  vals <> [] -> Forall (fun v => is_nan v = false) vals -> range_of vals r -> encloses vals r.
Proof.
  intros Hne Hvals Hr. destruct vals as [|v vs]; [contradiction|].
  destruct Hr as [(lo & Hlo & Hloin & Hleast) (hi & Hhi & Hhiin & Hgreatest)].
  rewrite List.Forall_forall in Hvals.
  exists lo, hi. repeat split; auto.
  - apply not_ltb_leb; auto.
  - apply not_ltb_leb; auto.
Qed.

(** X9. In every document [main] returns, [total_fires] and
    [total_earthquakes] are the numbers of records of the two lists.  When
    there are fire records and none has a NaN brightness, the two ends of
    [fire_brightness_range] are brightnesses of records and every brightness
    lies between them, [min <= brightness <= max]; and so for the magnitudes
    of the earthquakes. *)
Theorem statistics_enclose `{PyRuntime}
    (cfg : Config.t) (firms_data : option (list Detection.t)) (query : usgs_query)
    (t_fires t_quakes t_range t_stamp : timestamp) (doc : Output.t) :
  main cfg firms_data query t_fires t_quakes t_range t_stamp = Ok doc ->
  Statistics.total_fires (Output.statistics doc) = Z.of_nat (length (Output.fires doc))
  /\ Statistics.total_earthquakes (Output.statistics doc)
     = Z.of_nat (length (Output.earthquakes doc))
  /\ (Output.fires doc <> [] ->
      Forall (fun f => is_nan (Fire.brightness f) = false) (Output.fires doc) ->
      encloses (map Fire.brightness (Output.fires doc))
        (Statistics.fire_brightness_range (Output.statistics doc)))
  /\ (Output.earthquakes doc <> [] ->
      Forall (fun q => is_nan (Quake.magnitude q) = false) (Output.earthquakes doc) ->
      encloses (map Quake.magnitude (Output.earthquakes doc))
        (Statistics.earthquake_magnitude_range (Output.statistics doc))).
Proof.
  intros Hdoc. rewrite (main_statistics _ _ _ _ _ _ _ _ Hdoc).
  split; [reflexivity|]. split; [reflexivity|]. split.
  - intros Hne Hall. apply range_encloses.
    + destruct (Output.fires doc); [contradiction | discriminate].
    + now apply Forall_map.
    + apply statistics_fire_range.
  - intros Hne Hall. apply range_encloses.
    + destruct (Output.earthquakes doc); [contradiction | discriminate].
    + now apply Forall_map.
    + apply statistics_magnitude_range.
Qed.

(** The document of two earthquakes of magnitudes 3.1 and 5.8. *)
Lemma statistics_enclose_witness :
  main sample_config None sample_quakes sample_now sample_now sample_now sample_now
  = Ok sample_document
  /\ Statistics.total_earthquakes (Output.statistics sample_document) = 2
  /\ encloses [float_of_decimal false 31 (-1); float_of_decimal false 58 (-1)]
       (Statistics.earthquake_magnitude_range (Output.statistics sample_document)).
Proof.
  assert (Hrun : main sample_config None sample_quakes
                   sample_now sample_now sample_now sample_now = Ok sample_document)
    by (vm_compute; reflexivity).
  split; [exact Hrun|].
  pose proof (statistics_enclose _ _ _ _ _ _ _ _ Hrun) as (_ & Htotal & _ & Hquakes).
  split; [exact Htotal|].
  apply Hquakes; [discriminate | repeat constructor].
Defined.

(** ** The integers that [float()] refuses *)

(** The round bit after a shift to the right is the last bit shifted out. *)
Lemma shr_1_r mrs : 0 <= shr_m mrs -> shr_r (shr_1 mrs) = Z.odd (shr_m mrs).
Proof.
  destruct mrs as [m r s]; simpl. intros Hm.
  destruct m as [|[p|p|]|p]; simpl; try lia; reflexivity.
Qed.

Lemma iter_shr_1_r n : forall mrs,
  0 <= shr_m mrs ->
  shr_r (SpecFloat.iter_pos shr_1 n mrs) = Z.odd (shr_m mrs / 2 ^ (Zpos n - 1)).
Proof.
  assert (Hp : forall k, 0 <= k -> 0 < 2 ^ k) by (intros; apply Z.pow_pos_nonneg; lia).
  induction n as [n IH | n IH |]; intros mrs Hm; simpl SpecFloat.iter_pos.
  - assert (H1 : 0 <= shr_m (shr_1 mrs)) by (rewrite shr_1_m by lia; apply Z.div_pos; lia).
    assert (H2 : 0 <= shr_m (SpecFloat.iter_pos shr_1 n (shr_1 mrs)))
      by (rewrite iter_shr_1_m by lia; apply Z.div_pos; [lia | apply Hp; lia]).
    rewrite IH, iter_shr_1_m, shr_1_m by lia.
    pose proof (Hp (Zpos n) ltac:(lia)). pose proof (Hp (Zpos n - 1) ltac:(lia)).
    rewrite !Z.div_div by lia. f_equal. f_equal.
    rewrite <- Z.pow_add_r by lia.
    change 2 with (2 ^ 1) at 1. rewrite <- Z.pow_add_r by lia. f_equal. lia.
  - assert (H2 : 0 <= shr_m (SpecFloat.iter_pos shr_1 n mrs))
      by (rewrite iter_shr_1_m by lia; apply Z.div_pos; [lia | apply Hp; lia]).
    rewrite IH, iter_shr_1_m by lia.
    pose proof (Hp (Zpos n) ltac:(lia)). pose proof (Hp (Zpos n - 1) ltac:(lia)).
    rewrite Z.div_div by lia. f_equal. f_equal.
    rewrite <- Z.pow_add_r by lia. f_equal. lia.
  - rewrite shr_1_r by lia. change (1 - 1) with 0. now rewrite Z.pow_0_r, Z.div_1_r.
Qed.

Lemma round_nearest_even_odd mrs :
  Z.odd (shr_m mrs) = true ->
  round_nearest_even (shr_m mrs) (loc_of_shr_record mrs)
  = shr_m mrs + (if shr_r mrs then 1 else 0).
Proof.
  destruct mrs as [m [] []]; simpl; intros Hodd; try lia.
  rewrite <- Z.negb_odd, Hodd. reflexivity.
Qed.

Lemma Zdigits2_unique m k : 0 < k -> 2 ^ (k - 1) <= m < 2 ^ k -> Zdigits2 m = k.
Proof.
  intros Hk [Hlo Hhi].
  assert (Hm : 0 < m).
  { assert (0 < 2 ^ (k - 1)) by (apply Z.pow_pos_nonneg; lia). lia. }
  pose proof (Zdigits2_bounds m Hm) as [Hlo' Hhi'].
  assert (Hg : 0 < Zdigits2 m) by (destruct m; simpl; lia).
  destruct (Z.lt_total (Zdigits2 m) k) as [Hlt | [Heq | Hgt]]; [|assumption|].
  - assert (2 ^ Zdigits2 m <= 2 ^ (k - 1)) by (apply Z.pow_le_mono_r; lia). lia.
  - assert (2 ^ k <= 2 ^ (Zdigits2 m - 1)) by (apply Z.pow_le_mono_r; lia). lia.
Qed.

(** Whether the conversion of an integer of more than 53 bits overflows. *)
Lemma binary_round_aux_overflow s p :
  53 < Zpos (digits2_pos p) ->
  is_infinity (binary_round_aux prec emax s (Zpos p) 0 loc_Exact)
  = (float_int_limit <=? Zpos p).
Proof.
  intros Hd.
  pose proof (digits2_bounds p) as [Hlo Hhi].
  set (d := Zpos (digits2_pos p)) in *.
  set (n1 := d - 53).
  assert (Hp : forall k, 0 <= k -> 0 < 2 ^ k) by (intros; apply Z.pow_pos_nonneg; lia).
  assert (Hsplit : 2 ^ (d - 1) = 2 ^ 52 * 2 ^ n1 /\ 2 ^ d = 2 ^ 53 * 2 ^ n1).
  { unfold n1. rewrite <- !Z.pow_add_r by lia. split; f_equal; lia. }
  destruct Hsplit as [Hs1 Hs2]. pose proof (Hp n1 ltac:(unfold n1; lia)) as Hpn1.
  unfold binary_round_aux.
  destruct (shr_fexp_spec (Zpos p) 0 loc_Exact ltac:(lia)) as [Hm' He'].
  assert (Hr' : shr_r (fst (shr_fexp prec emax (Zpos p) 0 loc_Exact))
                = Z.odd (Zpos p / 2 ^ (n1 - 1))).
  { unfold shr_fexp. rewrite fexp_eq. simpl Zdigits2. fold d.
    replace (Z.max (d + 0 - 53) (-1074) - 0) with n1 by (unfold n1; lia).
    unfold shr. destruct n1 as [|k|k] eqn:En1; try lia.
    simpl fst. rewrite iter_shr_1_r by (simpl; lia). reflexivity. }
  rewrite fexp_eq in Hm', He'. simpl Zdigits2 in Hm', He'. fold d in Hm', He'.
  replace (Z.max 0 (Z.max (d + 0 - 53) (-1074) - 0)) with n1 in Hm', He' by (unfold n1; lia).
  destruct (shr_fexp prec emax (Zpos p) 0 loc_Exact) as [mrs' e']. simpl in Hm', He', Hr'.
  assert (Hm'b : 2 ^ 52 <= shr_m mrs' < 2 ^ 53).
  { rewrite Hm'. split.
    - apply Z.div_le_lower_bound; lia.
    - apply Z.div_lt_upper_bound; lia. }
  pose proof (round_nearest_even_le (shr_m mrs') (loc_of_shr_record mrs')) as Hle.
  pose proof (round_nearest_even_ge (shr_m mrs') (loc_of_shr_record mrs')) as Hge.
  pose proof (round_nearest_even_odd mrs') as Hodd.
  set (m1 := round_nearest_even (shr_m mrs') (loc_of_shr_record mrs')) in *.
  destruct (shr_fexp_spec m1 e' loc_Exact ltac:(lia)) as [Hm'' He''].
  rewrite fexp_eq in Hm'', He''.
  assert (Hcases : (m1 < 2 ^ 53 /\ Zdigits2 m1 = 53) \/ (m1 = 2 ^ 53 /\ Zdigits2 m1 = 54)).
  { destruct (Z.eq_dec m1 (2 ^ 53)) as [-> | Hne]; [right; split; reflexivity|].
    left. split; [lia|]. apply Zdigits2_unique; [lia|]. change (53 - 1) with 52. lia. }
  destruct (shr_fexp prec emax m1 e' loc_Exact) as [mrs'' e'']. simpl in Hm'', He''.
  rewrite Z.add_0_l in He'. subst e'.
  (* the powers of two around the limit, in terms of [T = 2^970] *)
  assert (HT : exists T, 0 < T /\ 2 ^ 970 = T /\ 2 ^ 971 = 2 * T
                         /\ 2 ^ 1023 = 9007199254740992 * T
                         /\ 2 ^ 1024 = 18014398509481984 * T
                         /\ float_int_limit = 18014398509481983 * T).
  { exists (2 ^ 970). repeat split; reflexivity. }
  destruct HT as (T & HT0 & HT970 & HT971 & HT1023 & HT1024 & Hlimit).
  rewrite Hlimit.
  change (2 ^ 53) with 9007199254740992 in *.
  change (2 ^ 52) with 4503599627370496 in *.
  assert (Hbig : 972 <= n1 -> 18014398509481983 * T <= Zpos p).
  { intros Hn.
    assert (2 ^ 1024 <= 2 ^ (d - 1)) by (apply Z.pow_le_mono_r; unfold n1 in Hn; lia).
    rewrite HT1024 in *. lia. }
  assert (Hsmall : n1 <= 970 -> Zpos p < 18014398509481983 * T).
  { intros Hn.
    assert (2 ^ d <= 2 ^ 1023) by (apply Z.pow_le_mono_r; unfold n1 in Hn; lia).
    rewrite HT1023 in *. lia. }
  (* the one exponent where the rounding decides *)
  assert (Hedge : n1 = 971 ->
            (m1 = 9007199254740992 -> 18014398509481983 * T <= Zpos p)
            /\ (m1 < 9007199254740992 -> Zpos p < 18014398509481983 * T)).
  { intros Hn. rewrite Hn in *. change (971 - 1) with 970 in Hr'.
    rewrite HT970 in Hr'. rewrite HT971 in Hm'.
    set (q := Zpos p / T) in *.
    assert (Hq : T * q <= Zpos p < T * (q + 1)).
    { unfold q. split; [apply Z.mul_div_le; lia|].
      pose proof (Z.mod_pos_bound (Zpos p) T HT0).
      pose proof (Z.div_mod (Zpos p) T ltac:(lia)). lia. }
    assert (Hq2 : shr_m mrs' = q / 2).
    { rewrite Hm'. unfold q. rewrite Z.div_div by lia. f_equal. lia. }
    pose proof (Z.div_mod q 2 ltac:(lia)) as Hdm.
    pose proof (Z.mod_pos_bound q 2 ltac:(lia)) as Hmb.
    assert (Hqodd : Z.odd q = (q mod 2 =? 1)).
    { rewrite Zmod_odd. destruct (Z.odd q); reflexivity. }
    clear Hs1 Hs2 Hpn1 Hlo Hhi HT970 HT971 HT1023 HT1024 Hlimit Hbig Hsmall.
    destruct (Z.eq_dec (shr_m mrs') 9007199254740991) as [Hmax | Hnmax].
    - assert (Ho : Z.odd (shr_m mrs') = true) by (rewrite Hmax; reflexivity).
      specialize (Hodd Ho). rewrite Hr' in Hodd.
      destruct (Z.odd q) eqn:Eq.
      + symmetry in Hqodd. apply Z.eqb_eq in Hqodd. split; intros; nia.
      + symmetry in Hqodd. apply Z.eqb_neq in Hqodd. split; intros; nia.
    - split; intros; nia. }
  destruct Hcases as [[Hlt Hdig] | [Heq Hdig]]; rewrite Hdig in Hm'', He''.
  - replace (Z.max 0 (Z.max (53 + n1 - 53) (-1074) - n1)) with 0 in Hm'', He''
      by (unfold n1; lia).
    rewrite Z.pow_0_r, Z.div_1_r in Hm''. rewrite Hm''.
    destruct m1 as [|m|m]; try lia.
    change (emax - prec) with 971. replace e'' with n1 by lia.
    destruct (n1 <=? 971) eqn:E; simpl; symmetry.
    + apply Z.leb_gt. apply Z.leb_le in E.
      destruct (Z.eq_dec n1 971) as [Hn | Hn]; [now apply Hedge | apply Hsmall; lia].
    + apply Z.leb_le. apply Z.leb_gt in E. apply Hbig. lia.
  - replace (Z.max 0 (Z.max (54 + n1 - 53) (-1074) - n1)) with 1 in Hm'', He''
      by (unfold n1; lia).
    rewrite Hm'', Heq. change (9007199254740992 / 2 ^ 1) with (Zpos 4503599627370496).
    change (emax - prec) with 971. replace e'' with (n1 + 1) by lia.
    destruct (n1 + 1 <=? 971) eqn:E; simpl; symmetry.
    + apply Z.leb_gt. apply Z.leb_le in E. apply Hsmall. lia.
    + apply Z.leb_le. apply Z.leb_gt in E.
      destruct (Z.eq_dec n1 971) as [Hn | Hn]; [now apply Hedge | apply Hbig; lia].
Qed.

Lemma binary_round_overflow s p :
  is_infinity (binary_round prec emax s p 0) = (float_int_limit <=? Zpos p).
Proof.
  destruct (Z.le_gt_cases (Zpos (digits2_pos p)) 53) as [Hd|Hd].
  - destruct (Z2F_exact s p Hd) as (m & k & -> & _ & _). simpl. symmetry.
    apply Z.leb_gt. pose proof (digits2_bounds p) as [_ Hhi].
    assert (2 ^ Zpos (digits2_pos p) <= 2 ^ 53) by (apply Z.pow_le_mono_r; lia).
    assert (2 ^ 53 < float_int_limit) by (apply Z.ltb_lt; vm_compute; reflexivity).
    lia.
  - rewrite <- (binary_round_aux_overflow s p) by lia.
    unfold binary_round. rewrite fexp_eq.
    replace (Z.max (Zpos (digits2_pos p) + 0 - 53) (-1074))
      with (Zpos (digits2_pos p) - 53) by lia.
    unfold shl_align.
    destruct (Zpos (digits2_pos p) - 53 - 0) as [|q|q] eqn:E; try lia; reflexivity.
Qed.

(** [float()] refuses an integer exactly from [float_int_limit] up in
    magnitude. *)
Lemma Z2F_overflow z : is_infinity (Z2F z) = (float_int_limit <=? Z.abs z).
Proof.
  destruct z as [|p|p]; unfold Z2F, binary_normalize.
  - reflexivity.
  - apply binary_round_overflow.
  - apply binary_round_overflow.
Qed.

Lemma int_too_large_limit value :
  int_too_large value = true <-> exists z, value = VInt z /\ float_int_limit <= Z.abs z.
Proof.
  split.
  - destruct value as [ | | | b | z | f | s | | | ]; try discriminate.
    simpl. intros Hz. exists z. split; [reflexivity|].
    apply Z.leb_le. rewrite <- Z2F_overflow. now destruct (Z2F z).
  - intros (z & -> & Hz). apply Z.leb_le in Hz. rewrite <- Z2F_overflow in Hz.
    simpl. now destruct (Z2F z).
Qed.

(** X10. When the confidence resolver raises.  Of the values of the
    built-in kinds (None, NA, NaT, a bool, an int, a float, a str, a date, a
    datetime) it raises on the integers of magnitude [2^1024 - 2^970] or
    more, which round to no float, and on nothing else, and what it raises
    is [OverflowError].  On an object of another class it raises what the
    truth value of [pandas.isna] raises (on a list of two items, a
    [ValueError]) or, when the object is no null, what its [float()] raises
    unless that is a [TypeError] or a [ValueError].  On every other value it
    returns. *)
Theorem confidence_rank_raises (value : pyval) (e : exn) :
  _confidence_rank value = Raise e <->
  (e = OverflowError /\ exists z, value = VInt z /\ float_int_limit <= Z.abs z)
  \/ exists o,
       value = VObject o
       /\ (obj_isna o = Raise e
           \/ (obj_isna o = Ok false /\ obj_float o = Raise e
               /\ e <> TypeError /\ e <> ValueError)).
Proof.
  rewrite <- int_too_large_limit. apply confidence_rank_raise.
Qed.

(** The least integer that is refused and the greatest one that is ranked. *)
Example confidence_rank_limit :
  _confidence_rank (VInt float_int_limit) = Raise OverflowError
  /\ _confidence_rank (VInt (float_int_limit - 1)) = Ok 2
  /\ _confidence_rank (VInt (- float_int_limit)) = Raise OverflowError
  /\ _confidence_rank (VInt (1 - float_int_limit)) = Ok 0.
Proof. repeat split; vm_compute; reflexivity. Qed.

(** ** Labels and ranks *)

(** X11. The label of a rank is read back as that rank: whenever the
    resolver returns a rank, [CONFIDENCE_LABELS] has a label for it, and the
    resolver gives that label the same rank.  So the confidence a record
    carries stands for the rank it was made from. *)
Theorem label_round_trip (value : pyval) (rank : Z) :
  _confidence_rank value = Ok rank ->
  exists label,
    CONFIDENCE_LABELS !! rank = Some label
    /\ _confidence_rank (VStr label) = Ok rank.
Proof.
  intros Hrank%confidence_rank_range.
  assert (rank = 0 \/ rank = 1 \/ rank = 2) as [-> | [-> | ->]] by lia;
    eexists; split; reflexivity.
Qed.

(** The score 45 is of rank 1, whose label "nominal" is of rank 1. *)
Lemma label_round_trip_witness :
  _confidence_rank (VInt 45) = Ok 1
  /\ exists label,
       CONFIDENCE_LABELS !! 1 = Some label /\ _confidence_rank (VStr label) = Ok 1.
Proof.
  assert (H1 : _confidence_rank (VInt 45) = Ok 1) by (vm_compute; reflexivity).
  split; [exact H1|].
  exact (label_round_trip (VInt 45) 1 H1).
Defined.

(** ** The fields of a raw earthquake *)

Lemma dict_get_insert_ne (quake : gmap string pyval) k k' v d :
  k <> k' -> dict_get (<[k := v]> quake) k' d = dict_get quake k' d.
Proof. intros Hne. unfold dict_get. now rewrite lookup_insert_ne. Qed.

Lemma dict_get_delete_ne (quake : gmap string pyval) k k' d :
  k <> k' -> dict_get (delete k quake) k' d = dict_get quake k' d.
Proof. intros Hne. unfold dict_get. now rewrite lookup_delete_ne. Qed.

(** X12. The normalizer reads seven fields of a raw record and nothing else:
    setting or removing any other field changes neither the record it makes
    nor the exception it raises. *)
Theorem other_fields_ignored (quake : gmap string pyval) (k : string) (v : pyval) :
  ~ In k quake_keys ->
  quake_of_raw (<[k := v]> quake) = quake_of_raw quake
  /\ quake_of_raw (delete k quake) = quake_of_raw quake.
Proof.
  intros Hk. unfold quake_keys in Hk. simpl in Hk.
  unfold quake_of_raw.
  rewrite !dict_get_insert_ne, !dict_get_delete_ne by (intros ->; tauto).
  split; reflexivity.
Qed.

(** An identifier added to a raw record is not exported. *)
Lemma other_fields_ignored_witness :
  ~ In "id"%string quake_keys
  /\ quake_of_raw (<["id"%string := VStr "us7000abcd"]> (sample_quake (VInt 3)))
     = quake_of_raw (sample_quake (VInt 3)).
Proof.
  assert (H1 : ~ In "id"%string quake_keys)
    by (simpl; intros H; repeat destruct H as [H|H]; try discriminate H; exact H).
  split; [exact H1|].
  exact (proj1 (other_fields_ignored (sample_quake (VInt 3)) "id" (VStr "us7000abcd") H1)).
Defined.

(** ** The grid on the globe *)

(** Ten times a float of at most [K] in magnitude rounds to at most [10 * K]. *)
Lemma mul_ten_index_bound K s m e :
  1 <= K <= 180 ->
  match e with
  | Zneg p => Zpos m <= K * 2 ^ Zpos p
  | _ => Zpos m * 2 ^ e <= K
  end ->
  exists n, - (10 * K) <= n <= 10 * K
    /\ rint_index (binary_round_aux prec emax s (Zpos (m * 5629499534213120)) (e + -49) loc_Exact)
       = Some n.
Proof.
  intros HK Hval.
  set (M := Zpos (m * 5629499534213120)).
  set (D := 49 - e).
  assert (HM : M = Zpos m * 10 * 2 ^ 49).
  { unfold M. rewrite Pos2Z.inj_mul.
    change (Zpos 5629499534213120) with (10 * 2 ^ 49). ring. }
  assert (HD : 42 <= D /\ M <= (10 * K) * 2 ^ D).
  { unfold D. destruct e as [|q|q].
    - split; [lia|]. rewrite HM. simpl in Hval. change (49 - 0) with 49. lia.
    - assert (Hq : 2 ^ Zpos q <= K) by nia.
      assert (Zpos q <= 7).
      { destruct (Z.le_gt_cases (Zpos q) 7); [assumption|].
        assert (2 ^ 8 <= 2 ^ Zpos q) by (apply Z.pow_le_mono_r; lia). lia. }
      split; [lia|]. rewrite HM.
      replace (2 ^ 49) with (2 ^ Zpos q * 2 ^ (49 - Zpos q))
        by (rewrite <- Z.pow_add_r by lia; f_equal; lia).
      assert (0 < 2 ^ (49 - Zpos q)) by (apply Z.pow_pos_nonneg; lia). nia.
    - split; [lia|]. rewrite HM.
      replace (49 - Zneg q) with (Zpos q + 49) by lia.
      rewrite Z.pow_add_r by lia. nia. }
  destruct HD as [HD HMD].
  replace (e + -49) with (- D) by (unfold D; lia).
  assert (HM52 : 2 ^ 52 < M) by (rewrite HM; lia).
  pose proof (Zdigits2_bounds M ltac:(lia)) as [Hglo Hghi].
  set (g := Zdigits2 M) in *.
  assert (Hg53 : 53 <= g).
  { destruct (Z.le_gt_cases 53 g); [assumption|].
    assert (2 ^ g <= 2 ^ 52) by (apply Z.pow_le_mono_r; lia). lia. }
  assert (HgD : g <= D + 11).
  { destruct (Z.le_gt_cases g (D + 11)); [assumption|].
    assert (2 ^ (D + 11) <= 2 ^ (g - 1)) by (apply Z.pow_le_mono_r; lia).
    rewrite Z.pow_add_r in * by lia. change (2 ^ 11) with 2048 in *.
    assert (0 < 2 ^ D) by (apply Z.pow_pos_nonneg; lia). nia. }
  unfold binary_round_aux.
  destruct (shr_fexp_spec M (- D) loc_Exact ltac:(lia)) as [Hm' He'].
  fold g in Hm', He'. rewrite fexp_eq in Hm', He'.
  set (n1 := Z.max 0 (Z.max (g + - D - 53) (-1074) - - D)) in *.
  assert (Hn1 : 0 <= n1 <= D - 2) by (unfold n1; lia).
  destruct (shr_fexp prec emax M (- D) loc_Exact) as [mrs' e']. simpl in Hm', He'.
  pose proof (round_nearest_even_le (shr_m mrs') (loc_of_shr_record mrs')) as Hle.
  pose proof (round_nearest_even_ge (shr_m mrs') (loc_of_shr_record mrs')) as Hge.
  set (m1 := round_nearest_even (shr_m mrs') (loc_of_shr_record mrs')) in *.
  assert (Hp1 : 0 < 2 ^ n1) by (apply Z.pow_pos_nonneg; lia).
  assert (Hm'0 : 0 <= shr_m mrs') by (rewrite Hm'; apply Z.div_pos; lia).
  assert (Hm1 : m1 * 2 ^ n1 <= M + 2 ^ n1).
  { pose proof (Z.mul_div_le M (2 ^ n1) Hp1). rewrite <- Hm' in *. nia. }
  destruct (shr_fexp_spec m1 e' loc_Exact ltac:(lia)) as [Hm'' He''].
  set (n2 := Z.max 0 (fexp prec emax (Zdigits2 m1 + e') - e')) in *.
  assert (Hn2 : 0 <= n2) by (unfold n2; lia).
  destruct (shr_fexp prec emax m1 e' loc_Exact) as [mrs'' e'']. simpl in Hm'', He''.
  assert (Hp2 : 0 < 2 ^ n2) by (apply Z.pow_pos_nonneg; lia).
  assert (Hm''0 : 0 <= shr_m mrs'') by (rewrite Hm''; apply Z.div_pos; lia).
  assert (Hm2 : shr_m mrs'' * 2 ^ n2 <= m1).
  { pose proof (Z.mul_div_le m1 (2 ^ n2) Hp2). rewrite <- Hm'' in *. lia. }
  assert (HpD : 2 ^ D = 4 * 2 ^ (D - 2)).
  { replace D with (2 + (D - 2)) at 1 by lia. rewrite Z.pow_add_r by lia. reflexivity. }
  assert (Hp12 : 2 ^ n1 <= 2 ^ (D - 2)) by (apply Z.pow_le_mono_r; lia).
  assert (Htot : 4 * (shr_m mrs'' * 2 ^ (n1 + n2)) <= (40 * K + 1) * 2 ^ D).
  { rewrite Z.pow_add_r by lia. nia. }
  destruct (shr_m mrs'') as [|mm|mm] eqn:Emm; [exists 0; split; [lia | reflexivity] | | lia].
  assert (He : e'' = n1 + n2 - D) by lia.
  destruct (e'' <=? emax - prec) eqn:Ee.
  - unfold rint_index, scaled_magnitude.
    eexists; split; [|reflexivity].
    assert (0 <= match e'' with
                 | Zneg p => round_half_even (Zpos mm * 10 ^ 0) (2 ^ Zpos p)
                 | _ => Zpos mm * 2 ^ e'' * 10 ^ 0
                 end <= 10 * K); [|destruct s; simpl; lia].
    rewrite Z.pow_0_r, !Z.mul_1_r.
    destruct e'' as [|q|q].
    + rewrite Z.pow_0_r, Z.mul_1_r. replace (n1 + n2) with D in Htot by lia. nia.
    + replace (n1 + n2) with (Zpos q + D) in Htot by lia.
      rewrite Z.pow_add_r in Htot by lia.
      assert (0 < 2 ^ D) by (apply Z.pow_pos_nonneg; lia).
      assert (0 < 2 ^ Zpos q) by (apply Z.pow_pos_nonneg; lia). nia.
    + apply round_half_even_bounds; [lia | apply Z.pow_pos_nonneg; lia |].
      assert (Hq : D = n1 + n2 + Zpos q) by lia.
      rewrite Hq in Htot. rewrite (Z.pow_add_r 2 (n1 + n2)) in Htot by lia.
      assert (0 < 2 ^ (n1 + n2)) by (apply Z.pow_pos_nonneg; lia). nia.
  - exfalso. apply Z.leb_gt in Ee. unfold emax, prec in Ee.
    assert (2 ^ (D + 972) <= 2 ^ (n1 + n2)) by (apply Z.pow_le_mono_r; lia).
    rewrite Z.pow_add_r in H by lia.
    assert (0 < 2 ^ D) by (apply Z.pow_pos_nonneg; lia).
    assert (7201 < 2 ^ 972) by (apply Z.ltb_lt; vm_compute; reflexivity).
    nia.
Qed.

Lemma within_index_bound K x :
  1 <= K <= 180 ->
  within K x = true -> exists n, - (10 * K) <= n <= 10 * K /\ cell_index x = Some n.
Proof.
  intros HK. unfold within. intros [Hge Hle]%andb_prop.
  destruct x as [s|s| |s m e]; try discriminate.
  - exists 0. split; [lia | reflexivity].
  - destruct s; discriminate.
  - unfold cell_index.
    change (Z2F 10) with (S754_finite false 5629499534213120 (-49)).
    unfold f_mul, SFmul. apply mul_ten_index_bound; [assumption|].
    destruct s; simpl in Hge, Hle.
    + destruct e as [|q|q]; apply Z.leb_le in Hge; lia.
    + destruct e as [|q|q]; apply Z.leb_le in Hle; lia.
Qed.

(** The grid coordinate of a coordinate within 90 (180) degrees is within 90
    (180) degrees. *)
Lemma snap_within K x :
  K = 90 \/ K = 180 -> within K x = true -> within K (snap x) = true.
Proof.
  intros HK Hx.
  destruct (within_index_bound K x ltac:(lia) Hx) as (n & Hn & Hidx).
  unfold cell_index in Hidx. unfold snap.
  destruct (np_round_index _ _ Hidx) as [-> | ->].
  - destruct HK as [-> | ->]; reflexivity.
  - destruct (tenth_checked_spec n ltac:(lia)) as (_ & Hlon & Hlat).
    destruct HK as [-> | ->]; [apply Hlat; lia | exact Hlon].
Qed.

(** X13. The grid does not leave the globe.  When the detections that pass
    the recency filter are ranked and on the globe, every record has a
    latitude between -90 and 90 degrees and a longitude between -180 and 180
    degrees. *)
Theorem records_on_globe `{PyRuntime} (now : timestamp) (days : Z)
    (data recent : list Detection.t) :
  recent_fires now days data = Ok recent ->
  Forall ranked recent ->
  Forall located recent ->
  exists out,
    export_fire_events now (Some data) days = Ok out
    /\ Forall (fun r => within 90 (Fire.lat r) = true /\ within 180 (Fire.lon r) = true) out.
Proof.
  intros Hrecent Hranked Hlocated.
  destruct (rows_exist _ Hranked) as [rows Hrows].
  eexists. split; [exact (export_fire_events_steps _ _ _ _ _ Hrecent Hrows)|].
  apply List.Forall_forall. intros f Hf.
  apply in_map_iff in Hf as (g & <- & Hg).
  destruct (fire_key_located _ _ _ Hrows Hlocated Hg) as [Hkey (d & Hd & Hcell)].
  rewrite List.Forall_forall in Hlocated. destruct (Hlocated d Hd) as [Hlat Hlon].
  change (Fire.lat (fire_of_group g))
    with (fst (fire_key (fire_of_group g))).
  change (Fire.lon (fire_of_group g))
    with (snd (fire_key (fire_of_group g))).
  rewrite Hkey, Hcell. split; apply snap_within; auto.
Qed.

(** The records of [sample_table] are on the globe. *)
Lemma records_on_globe_witness :
  recent_fires sample_now 180 sample_table = Ok sample_table
  /\ Forall ranked sample_table
  /\ Forall located sample_table
  /\ exists out,
       export_fire_events sample_now (Some sample_table) 180 = Ok out
       /\ Forall (fun r => within 90 (Fire.lat r) = true
                           /\ within 180 (Fire.lon r) = true) out.
Proof.
  assert (Hrecent : recent_fires sample_now 180 sample_table = Ok sample_table)
    by (vm_compute; reflexivity).
  assert (Hranked : Forall ranked sample_table) by (repeat constructor).
  assert (Hlocated : Forall located sample_table) by (repeat constructor).
  split; [exact Hrecent|]. split; [exact Hranked|]. split; [exact Hlocated|].
  exact (records_on_globe sample_now 180 sample_table sample_table
           Hrecent Hranked Hlocated).
Defined.

(** The last cells before the pole and before the date line. *)
Example snap_at_the_edge :
  snap (float_of_decimal false 8996 (-2)) = Z2F 90
  /\ snap (float_of_decimal true 17996 (-2)) = Z2F (-180)
  /\ snap (float_of_decimal false 8994 (-2)) = float_of_decimal false 899 (-1).
Proof. repeat split; vm_compute; reflexivity. Qed.

(** ** The grid is symmetric *)

Lemma binary_round_aux_opp s m e l :
  binary_round_aux prec emax (negb s) m e l = f_opp (binary_round_aux prec emax s m e l).
Proof.
  unfold binary_round_aux.
  destruct (shr_fexp prec emax m e l) as [mrs' e'].
  destruct (shr_fexp prec emax _ e' loc_Exact) as [mrs'' e''].
  destruct (shr_m mrs''); try reflexivity.
  destruct (e'' <=? emax - prec); reflexivity.
Qed.

Lemma binary_round_opp s m e :
  binary_round prec emax (negb s) m e = f_opp (binary_round prec emax s m e).
Proof.
  unfold binary_round. destruct (shl_align m e _) as [mz ez]. apply binary_round_aux_opp.
Qed.

Lemma f_mul_opp x y : f_mul (f_opp x) y = f_opp (f_mul x y).
Proof.
  destruct x as [sx|sx| |sx mx ex], y as [sy|sy| |sy my ey]; simpl; try reflexivity;
    try (now rewrite negb_xorb_l).
  rewrite <- binary_round_aux_opp. now rewrite negb_xorb_l.
Qed.

Lemma f_div_opp x y : f_div (f_opp x) y = f_opp (f_div x y).
Proof.
  destruct x as [sx|sx| |sx mx ex], y as [sy|sy| |sy my ey]; simpl; try reflexivity;
    try (now rewrite negb_xorb_l).
  unfold f_div, SFdiv. simpl.
  destruct (SFdiv_core_binary prec emax (Zpos mx) ex (Zpos my) ey) as [[mz ez] lz].
  rewrite <- binary_round_aux_opp. now rewrite negb_xorb_l.
Qed.

Lemma np_round_opp x : np_round (f_opp x) = f_opp (np_round x).
Proof.
  destruct x as [s|s| |s m e]; simpl; try reflexivity.
  destruct (scaled_magnitude m e 0) as [|k|k]; [reflexivity| |];
    destruct s; simpl; try apply (binary_round_opp false); apply (binary_round_opp true).
Qed.

(** X14. The grid is symmetric about the equator and about the prime
    meridian: the grid coordinate of the opposite of a coordinate is the
    opposite of its grid coordinate, whatever the coordinate. *)
Theorem snap_mirror (x : float) : snap (f_opp x) = f_opp (snap x).
Proof. unfold snap. now rewrite f_mul_opp, np_round_opp, f_div_opp. Qed.

(** ** Scores and ranks *)

Lemma binary64_finite s m e :
  is_binary64 (S754_finite s m e) = true ->
  -1074 <= e /\ Zpos m < 2 ^ 53 /\ (-1074 < e -> 2 ^ 52 <= Zpos m).
Proof.
  unfold is_binary64, valid_binary, bounded, canonical_mantissa.
  intros [Hc _]%andb_prop. apply Z.eqb_eq in Hc. rewrite fexp_eq in Hc.
  pose proof (digits2_bounds m) as [Hlo Hhi].
  set (d := Zpos (digits2_pos m)) in *.
  assert (Hd : d <= 53) by lia.
  split; [lia|]. split.
  - assert (2 ^ d <= 2 ^ 53) by (apply Z.pow_le_mono_r; lia). lia.
  - intros He. assert (d = 53) by lia.
    replace (d - 1) with 52 in Hlo by lia. exact Hlo.
Qed.

Lemma cond_Zopp_mul s a b : cond_Zopp s (a * b) = cond_Zopp s a * b.
Proof. destruct s; simpl; ring. Qed.

Lemma float_ge_int_ulps s m e n :
  -1074 <= e ->
  float_ge_int (S754_finite s m e) n = (n * 2 ^ 1074 <=? ulps (S754_finite s m e)).
Proof.
  intros He. unfold float_ge_int, ulps.
  assert (Hp : forall k, 0 <= k -> 0 < 2 ^ k) by (intros; apply Z.pow_pos_nonneg; lia).
  rewrite cond_Zopp_mul.
  destruct e as [|q|q]; apply eq_iff_eq_true; rewrite !Z.leb_le.
  - rewrite Z.pow_0_r, Z.mul_1_r. change (0 + 1074) with 1074.
    apply Z.mul_le_mono_pos_r, Hp. lia.
  - rewrite Z.pow_add_r, Z.mul_assoc by lia.
    apply Z.mul_le_mono_pos_r, Hp. lia.
  - replace (2 ^ 1074) with (2 ^ Zpos q * 2 ^ (Zneg q + 1074))
      by (rewrite <- Z.pow_add_r by lia; f_equal; lia).
    rewrite Z.mul_assoc. apply Z.mul_le_mono_pos_r, Hp. lia.
Qed.

(** Among binary64 magnitudes, the greater exponent, or the greater mantissa
    under the same exponent, is the greater value. *)
Lemma magnitude_order m1 e1 m2 e2 :
  is_binary64 (S754_finite false m1 e1) = true ->
  is_binary64 (S754_finite false m2 e2) = true ->
  e1 < e2 \/ (e1 = e2 /\ Zpos m1 < Zpos m2) ->
  Zpos m1 * 2 ^ (e1 + 1074) < Zpos m2 * 2 ^ (e2 + 1074).
Proof.
  intros (He1 & Hm1 & _)%binary64_finite (He2 & _ & Hm2)%binary64_finite Hlt.
  assert (Hp : forall k, 0 <= k -> 0 < 2 ^ k) by (intros; apply Z.pow_pos_nonneg; lia).
  destruct Hlt as [Hlt | [-> Hlt]].
  - specialize (Hm2 ltac:(lia)).
    assert (H1 : 2 ^ (e1 + 1 + 1074) <= 2 ^ (e2 + 1074)) by (apply Z.pow_le_mono_r; lia).
    replace (e1 + 1 + 1074) with (1 + (e1 + 1074)) in H1 by lia.
    rewrite Z.pow_add_r in H1 by lia. change (2 ^ 1) with 2 in H1.
    pose proof (Hp (e1 + 1074) ltac:(lia)). pose proof (Hp (e2 + 1074) ltac:(lia)).
    change (2 ^ 53) with (2 * 2 ^ 52) in Hm1.
    assert (0 < 2 ^ 52) by (apply Hp; lia). nia.
  - pose proof (Hp (e2 + 1074) ltac:(lia)). nia.
Qed.

Lemma is_binary64_sign s s' m e :
  is_binary64 (S754_finite s m e) = is_binary64 (S754_finite s' m e).
Proof. reflexivity. Qed.

Lemma f_ltb_ulps a b :
  is_binary64 a = true -> is_binary64 b = true ->
  is_infinity a = false -> is_infinity b = false ->
  f_ltb a b = true -> ulps a < ulps b.
Proof.
  intros Ha Hb Hia Hib (x & y & Hx & Hy & Hlt)%f_ltb_code.
  assert (Hp : forall k, 0 <= k -> 0 < 2 ^ k) by (intros; apply Z.pow_pos_nonneg; lia).
  destruct a as [sa|sa| |sa ma ea], b as [sb|sb| |sb mb eb]; try discriminate;
    simpl in Hx, Hy; injection Hx as <-; injection Hy as <-; simpl in Hlt.
  - lia.
  - destruct sb; simpl in Hlt |- *; [lia|].
    apply binary64_finite in Hb as (Hb & _). pose proof (Hp (eb + 1074) ltac:(lia)). nia.
  - destruct sa; simpl in Hlt |- *; [|lia].
    apply binary64_finite in Ha as (Ha & _). pose proof (Hp (ea + 1074) ltac:(lia)). nia.
  - pose proof (proj1 (binary64_finite _ _ _ Ha)) as Hea.
    pose proof (proj1 (binary64_finite _ _ _ Hb)) as Heb.
    pose proof (Hp (ea + 1074) ltac:(lia)). pose proof (Hp (eb + 1074) ltac:(lia)).
    destruct sa, sb; simpl in Hlt |- *.
    + rewrite (is_binary64_sign _ false) in Ha, Hb.
      pose proof (magnitude_order mb eb ma ea Hb Ha ltac:(lia)). lia.
    + nia.
    + lia.
    + exact (magnitude_order ma ea mb eb Ha Hb ltac:(lia)).
Qed.

(** A float that reaches a threshold is followed by floats that reach it. *)
Lemma float_ge_int_mono a b n :
  is_binary64 a = true -> is_binary64 b = true ->
  f_leb a b = true -> float_ge_int a n = true -> float_ge_int b n = true.
Proof.
  intros Ha Hb Hle Hn. unfold f_leb in Hle.
  apply orb_true_iff in Hle as [Hlt | Heq].
  - destruct (is_infinity a) eqn:Hia.
    { destruct a as [|[]| |]; try discriminate. now destruct b as [|[]| |]. }
    destruct (is_infinity b) eqn:Hib.
    { destruct b as [|[]| |]; try discriminate; [|reflexivity].
      destruct a as [|[]| |[]]; discriminate. }
    pose proof (f_ltb_ulps a b Ha Hb Hia Hib Hlt) as Hu.
    assert (Hge : forall x, is_binary64 x = true -> is_infinity x = false -> is_nan x = false ->
                    float_ge_int x n = (n * 2 ^ 1074 <=? ulps x)).
    { intros [s|s| |s m e] Hx Hix Hnx; try discriminate.
      - simpl. apply eq_iff_eq_true. rewrite !Z.leb_le.
        change 0 with (0 * 2 ^ 1074) at 2.
        apply Z.mul_le_mono_pos_r, Z.pow_pos_nonneg; lia.
      - apply float_ge_int_ulps. now apply binary64_finite in Hx. }
    assert (Hna : is_nan a = false) by (destruct a; try reflexivity; discriminate).
    assert (Hnb : is_nan b = false) by (destruct a, b; try reflexivity; discriminate).
    rewrite (Hge a Ha Hia Hna) in Hn. rewrite (Hge b Hb Hib Hnb).
    apply Z.leb_le in Hn. apply Z.leb_le.
    exact (Z.le_trans _ _ _ Hn (Z.lt_le_incl _ _ Hu)).
  - apply f_eqb_code in Heq as (x & Hx & Hy).
    destruct a as [sa|sa| |sa ma ea], b as [sb|sb| |sb mb eb]; try discriminate;
      simpl in Hx, Hy; injection Hx as <-.
    all: try destruct sa; try destruct sb; simpl in Hy; try discriminate.
    all: try exact Hn.
    all: injection Hy as He Hm; assert (eb = ea) by lia; subst; exact Hn.
Qed.

Lemma threshold_rank_mono a b :
  is_binary64 a = true -> is_binary64 b = true ->
  f_leb a b = true -> threshold_rank a <= threshold_rank b.
Proof.
  intros Ha Hb Hle. unfold threshold_rank.
  pose proof (float_ge_int_mono a b 80 Ha Hb Hle) as H80.
  pose proof (float_ge_int_mono a b 30 Ha Hb Hle) as H30.
  destruct (float_ge_int a 80); [rewrite H80 by reflexivity; lia|].
  destruct (float_ge_int a 30); [rewrite H30 by reflexivity|];
    destruct (float_ge_int b 80); try lia; destruct (float_ge_int b 30); lia.
Qed.

Lemma confidence_rank_float f :
  is_nan f = false -> _confidence_rank (VFloat f) = Ok (threshold_rank f).
Proof.
  intros Hf. unfold _confidence_rank. simpl. rewrite Hf. apply score_rank_float.
Qed.

Lemma f_leb_notna a b : f_leb a b = true -> is_nan a = false /\ is_nan b = false.
Proof.
  unfold f_leb. intros [H | H]%orb_true_iff.
  - destruct a, b; try discriminate; split; reflexivity.
  - now apply f_eqb_notna.
Qed.

(** X15. A greater score never has a lower rank: of two binary64 scores
    [a <= b], both are ranked and the rank of [a] is at most the rank of
    [b]. *)
Theorem rank_monotone (a b : float) :
  is_binary64 a = true -> is_binary64 b = true -> f_leb a b = true ->
  exists ra rb,
    _confidence_rank (VFloat a) = Ok ra /\ _confidence_rank (VFloat b) = Ok rb
    /\ ra <= rb.
Proof.
  intros Ha Hb Hle. destruct (f_leb_notna a b Hle) as [Hna Hnb].
  exists (threshold_rank a), (threshold_rank b).
  rewrite !confidence_rank_float by assumption.
  repeat split. now apply threshold_rank_mono.
Qed.

(** The scores 29.9 and 30: ranks 0 and 1. *)
Lemma rank_monotone_witness :
  is_binary64 (float_of_decimal false 299 (-1)) = true
  /\ is_binary64 (Z2F 30) = true
  /\ f_leb (float_of_decimal false 299 (-1)) (Z2F 30) = true
  /\ exists ra rb,
       _confidence_rank (VFloat (float_of_decimal false 299 (-1))) = Ok ra
       /\ _confidence_rank (VFloat (Z2F 30)) = Ok rb
       /\ ra <= rb.
Proof.
  assert (H1 : is_binary64 (float_of_decimal false 299 (-1)) = true) by reflexivity.
  assert (H2 : is_binary64 (Z2F 30) = true) by reflexivity.
  assert (H3 : f_leb (float_of_decimal false 299 (-1)) (Z2F 30) = true) by reflexivity.
  split; [exact H1|]. split; [exact H2|]. split; [exact H3|].
  exact (rank_monotone _ _ H1 H2 H3).
Defined.

(** An integer score within the floats is ranked as the integer it is. *)
Lemma confidence_rank_int z :
  Z.abs z < float_int_limit ->
  _confidence_rank (VInt z) = Ok (if 80 <=? z then 2 else if 30 <=? z then 1 else 0).
Proof.
  intros Hz. apply Z.leb_gt in Hz. rewrite <- Z2F_overflow in Hz.
  unfold _confidence_rank, score_rank. simpl. unfold float_of_int.
  rewrite threshold_high, threshold_nominal.
  rewrite <- (float_ge_int_Z2F z 80), <- (float_ge_int_Z2F z 30) by lia.
  destruct (Z2F z) as [s|s| |s m e]; try discriminate;
    destruct (float_ge_int _ 80); try reflexivity; destruct (float_ge_int _ 30); reflexivity.
Qed.

(** ** The order of the table *)

Lemma filter_Permutation' {A} (p : A -> bool) l l' :
  Permutation l l' -> Permutation (List.filter p l) (List.filter p l').
Proof.
  induction 1 as [|x l l' _ IH|x y l|l l' l'' _ IH1 _ IH2]; simpl.
  - constructor.
  - destruct (p x); [now constructor | assumption].
  - destruct (p x), (p y); try apply perm_swap; apply Permutation_refl.
  - eapply perm_trans; eassumption.
Qed.

Lemma recent_fires_Permutation now days data data' recent :
  Permutation data data' ->
  recent_fires now days data = Ok recent ->
  exists recent', recent_fires now days data' = Ok recent' /\ Permutation recent recent'.
Proof.
  intros Hperm Hrecent. unfold recent_fires in *.
  destruct (minus_days now days) as [cutoff|]; [|discriminate].
  cbn [rbind] in *.
  assert (Hu : forallb undated data' = forallb undated data).
  { clear Hrecent. induction Hperm as [|x l l' _ IH|x y l|l l' l'' _ IH1 _ IH2]; simpl.
    - reflexivity.
    - now rewrite IH.
    - destruct (undated x), (undated y); reflexivity.
    - congruence. }
  destruct data as [|d data].
  - apply Permutation_nil in Hperm as ->. injection Hrecent as <-.
    eexists. split; [reflexivity | constructor].
  - destruct data' as [|d' data''];
      [apply Permutation_sym, Permutation_nil in Hperm; discriminate|].
    rewrite Hu. destruct (forallb undated (d :: data)); [discriminate|].
    injection Hrecent as <-.
    eexists. split; [reflexivity|].
    exact (filter_Permutation' _ _ _ Hperm).
Qed.

Lemma earliest_date_unique M M' s s' :
  (forall m, In m M <-> In m M') ->
  earliest_date M s -> earliest_date M' s' -> s = s'.
Proof.
  intros Hsame (t & (m & Hm & Ht) & Hall & ->) (t' & (m' & Hm' & Ht') & Hall' & ->).
  f_equal. apply Z.le_antisymm.
  - apply (Hall m' t'); [now apply Hsame | assumption].
  - apply (Hall' m t); [now apply Hsame | assumption].
Qed.

Lemma latest_date_unique M M' s s' :
  (forall m, In m M <-> In m M') ->
  latest_date M s -> latest_date M' s' -> s = s'.
Proof.
  intros Hsame (t & (m & Hm & Ht) & Hall & ->) (t' & (m' & Hm' & Ht') & Hall' & ->).
  f_equal. apply Z.le_antisymm.
  - apply (Hall' m t); [now apply Hsame | assumption].
  - apply (Hall m' t'); [now apply Hsame | assumption].
Qed.

Lemma best_confidence_unique M M' s s' :
  (forall m, In m M <-> In m M') ->
  best_confidence M s -> best_confidence M' s' -> s = s'.
Proof.
  intros Hsame (k & (m & Hm & Hk) & Hall & Hl) (k' & (m' & Hm' & Hk') & Hall' & Hl').
  assert (k = k').
  { apply Z.le_antisymm.
    - apply (Hall' m k); [now apply Hsame | assumption].
    - apply (Hall m' k'); [now apply Hsame | assumption]. }
  subst k'. congruence.
Qed.

(** X16. The cells do not depend on the order of the table.  Take the table
    in any other order: when the detections that pass the recency filter are
    ranked and on the globe, both exports return, and every record of the one
    has a record of the other at the same coordinates with the same count, the
    same two dates and the same confidence. *)
Theorem order_of_the_table `{PyRuntime} (now : timestamp) (days : Z)
    (data data' recent : list Detection.t) :
  Permutation data data' ->
  recent_fires now days data = Ok recent ->
  Forall ranked recent ->
  Forall located recent ->
  exists out out',
    export_fire_events now (Some data) days = Ok out
    /\ export_fire_events now (Some data') days = Ok out'
    /\ forall r, In r out -> exists r', In r' out' /\ same_summary r r'.
Proof.
  intros Hperm Hrecent Hranked Hlocated.
  destruct (recent_fires_Permutation _ _ _ _ _ Hperm Hrecent) as (recent' & Hrecent' & Hp).
  pose proof (Permutation_Forall Hp Hranked) as Hranked'.
  pose proof (Permutation_Forall Hp Hlocated) as Hlocated'.
  destruct (rows_exist _ Hranked) as [rows Hrows].
  destruct (rows_exist _ Hranked') as [rows' Hrows'].
  eexists. eexists.
  split; [exact (export_fire_events_steps _ _ _ _ _ Hrecent Hrows)|].
  split; [exact (export_fire_events_steps _ _ _ _ _ Hrecent' Hrows')|].
  destruct (rows_spec _ _ Hrows) as [Hdet Hrow].
  destruct (rows_spec _ _ Hrows') as [Hdet' Hrow'].
  intros f Hf.
  apply in_map_iff in Hf as (g & <- & Hg).
  destruct (groupby_members rows g Hg) as [Hne Hmem].
  destruct (snd g) as [|r0 rs] eqn:Eg; [contradiction|].
  assert (Hr0 : In r0 (List.filter (fun r => key_eqb (fst g) (row_key r)) rows))
    by (rewrite <- Hmem; now left).
  apply List.filter_In in Hr0 as [Hr0 Hk0].
  destruct (Hrow r0 Hr0) as (Hd0 & Hkey0 & _).
  apply (Permutation_in _ Hp) in Hd0. rewrite <- Hdet' in Hd0.
  apply in_map_iff in Hd0 as (r0' & Hdd & Hr0').
  destruct (Hrow' r0' Hr0') as (Hd0' & Hkey0' & _).
  assert (Hna : key_isna (row_key r0') = false).
  { rewrite Hkey0'. apply located_keyed. rewrite List.Forall_forall in Hlocated'. auto. }
  destruct (groupby_cover rows' r0' Hr0' Hna) as (g' & Hg' & Hk' & _).
  assert (Hgg : key_eqb (fst g') (fst g) = true).
  { rewrite Hkey0', Hdd, <- Hkey0 in Hk'. rewrite key_eqb_sym in Hk0.
    eauto using key_eqb_trans. }
  exists (fire_of_group g'). split; [apply in_map, Hg'|].
  pose proof (group_summarized _ _ _ Hrows
                (fun d => recent_dated _ _ _ _ d Hrecent) Hg) as Hsum.
  pose proof (group_summarized _ _ _ Hrows'
                (fun d => recent_dated _ _ _ _ d Hrecent') Hg') as Hsum'.
  rewrite (members_of_same _ _ recent' Hgg) in Hsum'.
  assert (Hmp : Permutation (members_of (fst g) recent) (members_of (fst g) recent'))
    by (apply filter_Permutation', Hp).
  assert (Hsame : forall m, In m (members_of (fst g) recent')
                            <-> In m (members_of (fst g) recent)).
  { intros m. split; apply Permutation_in; [symmetry|]; exact Hmp. }
  destruct Hsum as [Hc _ _ _ Hdf Hdl Hconf], Hsum' as [Hc' _ _ _ Hdf' Hdl' Hconf'].
  destruct (fire_key_located _ _ _ Hrows Hlocated Hg) as [Hfk _].
  destruct (fire_key_located _ _ _ Hrows' Hlocated' Hg') as [Hfk' _].
  unfold same_summary. rewrite Hfk, Hfk'. split; [exact Hgg|]. split; [|split; [|split]].
  - rewrite Hc, Hc'. f_equal. symmetry.
    apply Permutation_length, filter_Permutation', Hmp.
  - exact (earliest_date_unique _ _ _ _ Hsame Hdf' Hdf).
  - exact (latest_date_unique _ _ _ _ Hsame Hdl' Hdl).
  - exact (best_confidence_unique _ _ _ _ Hsame Hconf' Hconf).
Qed.

(** [sample_table] read backwards, under a window of 90 days. *)
Lemma order_of_the_table_witness :
  Permutation sample_table sample_table_reversed
  /\ recent_fires sample_now 90 sample_table
     = Ok (List.filter (on_or_after 739551) sample_table)
  /\ Forall ranked (List.filter (on_or_after 739551) sample_table)
  /\ Forall located (List.filter (on_or_after 739551) sample_table)
  /\ exists out out',
       export_fire_events sample_now (Some sample_table) 90 = Ok out
       /\ export_fire_events sample_now (Some sample_table_reversed) 90 = Ok out'
       /\ forall r, In r out -> exists r', In r' out' /\ same_summary r r'.
Proof.
  assert (H0 : Permutation sample_table sample_table_reversed) by apply Permutation_rev.
  assert (H1 : recent_fires sample_now 90 sample_table
               = Ok (List.filter (on_or_after 739551) sample_table)) by reflexivity.
  assert (H2 : Forall ranked (List.filter (on_or_after 739551) sample_table))
    by (repeat constructor).
  assert (H4 : Forall located (List.filter (on_or_after 739551) sample_table))
    by (repeat constructor).
  split; [exact H0|]. split; [exact H1|]. split; [exact H2|].
  split; [exact H4|].
  exact (order_of_the_table sample_now 90 sample_table sample_table_reversed _
           H0 H1 H2 H4).
Defined.

(** Read backwards, [sample_table] gives the same records. *)
Example sample_table_reversed_exported :
  export_fire_events sample_now (Some sample_table_reversed) 90
  = export_fire_events sample_now (Some sample_table) 90.
Proof. vm_compute. reflexivity. Qed.

(** ** The form of a date *)

(** X17. The date of a timestamp of the calendar (years 1 to 9999) is written
    as ten characters, [YYYY-MM-DD]: four digits, a dash, two digits, a dash
    and two digits, for a datetime as for a date. *)
Theorem format_date_iso `{PyRuntime} (value : pyval) (day : Z) :
  value = VDate day \/ (exists t, value = VDatetime t /\ ts_day t = day) ->
  valid_date day ->
  exists out, _format_date value = Ok out /\ is_iso_date out = true.
Proof.
  intros Hvalue Hday. exists (date_isoformat day). split.
  - destruct Hvalue as [-> | (t & -> & <-)]; reflexivity.
  - now apply date_isoformat_iso.
Qed.

(** The timestamp [sample_now] is written 2026-01-25. *)
Lemma format_date_iso_witness :
  (VDatetime sample_now = VDate 739641
   \/ exists t, VDatetime sample_now = VDatetime t /\ ts_day t = 739641)
  /\ valid_date 739641
  /\ (exists out, _format_date (VDatetime sample_now) = Ok out /\ is_iso_date out = true)
  /\ _format_date (VDatetime sample_now) = Ok "2026-01-25"%string.
Proof.
  assert (H1 : VDatetime sample_now = VDate 739641
               \/ exists t, VDatetime sample_now = VDatetime t /\ ts_day t = 739641)
    by (right; exists sample_now; split; reflexivity).
  assert (H2 : valid_date 739641) by (unfold valid_date; lia).
  split; [exact H1|]. split; [exact H2|].
  split; [exact (format_date_iso _ _ H1 H2) | reflexivity].
Defined.
